(** * Watchlist matching pipeline (app.py): a shallow embedding and its properties

    The development follows the layout of [app.py]:
    - Python values and the few builtins the program calls on them;
    - [clean_name], the name normalizer;
    - [standardize_record] and its three element-wise helpers, on a decoded
      dictionary and, in [FromText], on the line of text, with [eval] as a
      parameter;
    - the three match rules and [get_all_matches];
    - [drop_duplicates] and the map / filter / map pipeline of [main].

    The strings of records and dictionaries are modelled as [string], read as
    sequences of code points below 256, on which [str.lower] is one mapping
    per character; the name normalizer is also modelled in full, on
    sequences of arbitrary code points, in [Unicode], and the two agree on
    [string]. Exceptions are values of [exn] in an error monad. *)

From Stdlib Require Import String Ascii List Bool ZArith NArith Lia Permutation.
From Stdlib Require Import DecimalString.
Import ListNotations.
Local Open Scope string_scope.
Local Open Scope list_scope.

(** ** Exceptions and the error monad *)

Inductive exn : Type :=
| ValueError (msg : string)
| TypeError
| KeyError (key : string)
| AttributeError.

Inductive result (A : Type) : Type :=
| Ok (a : A)
| Raise (e : exn).
Arguments Ok {A} a.
Arguments Raise {A} e.

Definition bind {A B : Type} (m : result A) (k : A -> result B) : result B :=
  match m with
  | Ok a => k a
  | Raise e => Raise e
  end.

Notation "x <- m ;; k" := (bind m (fun x => k))
  (at level 61, m at next level, right associativity).

(** A [for] loop whose body may raise: the loop state is threaded from left to
    right and the first exception leaves the loop. *)
Fixpoint for_each {A S : Type} (body : S -> A -> result S) (xs : list A) (st : S)
  : result S :=
  match xs with
  | [] => Ok st
  | x :: rest => st' <- body st x ;; for_each body rest st'
  end.

(** A [for] loop whose body cannot raise. *)
Definition for_pure {A S : Type} (body : S -> A -> S) (xs : list A) (st : S) : S :=
  fold_left body xs st.

(** ** Strings *)

(** The code points below 256 that [str.lower] changes: A to Z, and the
    accented capitals U+00C0 to U+00DE apart from the multiplication sign
    U+00D7. Each is mapped 32 places up. *)
Definition is_upper (c : ascii) : bool :=
  let n := N_of_ascii c in
  ((65 <=? n) && (n <=? 90) || (192 <=? n) && (n <=? 214)
   || (216 <=? n) && (n <=? 222))%N.

Definition lower_char (c : ascii) : ascii :=
  if is_upper c then ascii_of_N (N_of_ascii c + 32) else c.

(** [s.lower()] *)
Fixpoint str_lower (s : string) : string :=
  match s with
  | EmptyString => EmptyString
  | String c rest => String (lower_char c) (str_lower rest)
  end.

(** [s.replace(old, new)] for a one-character [old]. *)
Fixpoint str_replace (old : ascii) (new : string) (s : string) : string :=
  match s with
  | EmptyString => EmptyString
  | String c rest =>
      if Ascii.eqb c old then new ++ str_replace old new rest
      else String c (str_replace old new rest)
  end.

Definition hyphen : ascii := "-"%char.
Definition period : ascii := "."%char.
Definition comma : ascii := ","%char.
Definition apostrophe : ascii := "'"%char.

(** [clean_name] on a [str] argument (app.py, lines 293-303). *)
Definition clean_str (name : string) : string :=
  str_replace apostrophe ""
    (str_replace comma ""
      (str_replace period ""
        (str_replace hyphen " "
          (str_lower name)))).

(** ** Python values

    The values of a decoded input line that the properties speak of: [None],
    integers, strings, lists and dictionaries with string keys. A dictionary
    lists each key once, in insertion order. Floating-point numbers and
    booleans are not modelled. *)

#[warnings="-register-all"]
Inductive PyVal : Type :=
| VNone
| VInt (z : Z)
| VStr (s : string)
| VList (xs : list PyVal)
| VDict (kvs : list (string * PyVal)).

Definition dict : Type := list (string * PyVal).

(** [key in d] *)
Definition dict_mem (key : string) (d : dict) : bool :=
  existsb (fun kv => String.eqb (fst kv) key) d.

(** [d[key]] *)
Fixpoint dict_get (key : string) (d : dict) : result PyVal :=
  match d with
  | [] => Raise (KeyError key)
  | (k, v) :: rest => if String.eqb k key then Ok v else dict_get key rest
  end.

(** [d] without [key] (used to state what the absence of a field does). *)
Definition dict_remove (key : string) (d : dict) : dict :=
  filter (fun kv => negb (String.eqb (fst kv) key)) d.

Fixpoint dict_lookup (key : string) (d : dict) : option PyVal :=
  match d with
  | [] => None
  | (k, v) :: rest => if String.eqb k key then Some v else dict_lookup key rest
  end.

(** [a == b] *)
Fixpoint py_eq (a b : PyVal) : bool :=
  match a, b with
  | VNone, VNone => true
  | VInt x, VInt y => Z.eqb x y
  | VStr x, VStr y => String.eqb x y
  | VList xs, VList ys =>
      (fix all2 (xs ys : list PyVal) : bool :=
         match xs, ys with
         | [], [] => true
         | x :: xs', y :: ys' => py_eq x y && all2 xs' ys'
         | _, _ => false
         end) xs ys
  | VDict d1, VDict d2 =>
      Nat.eqb (List.length d1) (List.length d2) &&
      (fix sub (d : list (string * PyVal)) : bool :=
         match d with
         | [] => true
         | (k, v) :: d' =>
             match dict_lookup k d2 with
             | Some w => py_eq v w
             | None => false
             end && sub d'
         end) d1
  | _, _ => false
  end.

(** [needle in hay] for two strings. *)
Fixpoint str_contains (needle hay : string) : bool :=
  String.prefix needle hay ||
  match hay with
  | EmptyString => false
  | String _ rest => str_contains needle rest
  end.

(** [key in v] for a string [key]. *)
Definition py_contains (key : string) (v : PyVal) : result bool :=
  match v with
  | VDict kvs => Ok (dict_mem key kvs)
  | VList xs => Ok (existsb (py_eq (VStr key)) xs)
  | VStr s => Ok (str_contains key s)
  | VNone | VInt _ => Raise TypeError
  end.

(** [v[key]] for a string [key]. *)
Definition py_getitem (v : PyVal) (key : string) : result PyVal :=
  match v with
  | VDict kvs => dict_get key kvs
  | _ => Raise TypeError
  end.

Fixpoint chars_of (s : string) : list PyVal :=
  match s with
  | EmptyString => []
  | String c rest => VStr (String c "") :: chars_of rest
  end.

(** The elements a [for] loop over [v] visits. *)
Definition py_iter (v : PyVal) : result (list PyVal) :=
  match v with
  | VList xs => Ok xs
  | VDict kvs => Ok (map (fun kv => VStr (fst kv)) kvs)
  | VStr s => Ok (chars_of s)
  | VNone | VInt _ => Raise TypeError
  end.

(** *** [int(v)] *)

(** The blanks [int] strips: tab to carriage return, space, and below 256
    the two blanks outside ASCII, U+0085 and U+00A0. *)
Definition is_space (c : ascii) : bool :=
  let n := N_of_ascii c in
  ((9 <=? n) && (n <=? 13) || (n =? 32) || (n =? 133) || (n =? 160))%N.

Definition is_digit (c : ascii) : bool :=
  let n := N_of_ascii c in (48 <=? n)%N && (n <=? 57)%N.

Definition digit_val (c : ascii) : Z := Z.of_N (N_of_ascii c) - 48.

Fixpoint lstrip (s : string) : string :=
  match s with
  | String c rest => if is_space c then lstrip rest else s
  | EmptyString => EmptyString
  end.

Fixpoint rstrip (s : string) : string :=
  match s with
  | EmptyString => EmptyString
  | String c rest =>
      match rstrip rest with
      | EmptyString => if is_space c then EmptyString else String c EmptyString
      | r => String c r
      end
  end.

(** Decimal digits, single underscores allowed between two digits. *)
Fixpoint parse_digits (acc : Z) (after_digit : bool) (s : string) : option Z :=
  match s with
  | EmptyString => if after_digit then Some acc else None
  | String c rest =>
      if is_digit c then parse_digits (10 * acc + digit_val c) true rest
      else if Ascii.eqb c "_" && after_digit then parse_digits acc false rest
      else None
  end.

Definition parse_int (s : string) : option Z :=
  match rstrip (lstrip s) with
  | String "-" rest => option_map Z.opp (parse_digits 0 false rest)
  | String "+" rest => parse_digits 0 false rest
  | t => parse_digits 0 false t
  end.

(** [int(v)].  The limit CPython puts on the number of digits of a text (4300
    unless configured otherwise) is not modelled. *)
Definition py_int (v : PyVal) : result Z :=
  match v with
  | VInt z => Ok z
  | VStr s =>
      match parse_int s with
      | Some z => Ok z
      | None => Raise (ValueError "invalid literal for int()")
      end
  | VNone | VList _ | VDict _ => Raise TypeError
  end.

(** ** The canonical schema (app.py, lines 10-40)

    Fields that [standardize_record] coerces carry their coerced type; fields
    it copies from the input carry the Python value as it came. *)

Record Address : Type := mkAddress {
  address_value : PyVal;
  country : PyVal;
  postal_code : PyVal
}.

Record Alias : Type := mkAlias {
  alias_value : PyVal;
  alias_type : PyVal
}.

Record IDNumber : Type := mkIDNumber {
  id_value : PyVal;
  comment : PyVal
}.

Record Record_ : Type := mkRecord {
  id_ : Z;
  type_ : string;
  name : string;
  aliases : list Alias;
  nationality : PyVal;
  addresses : list Address;
  id_numbers : list IDNumber;
  place_of_birth : option string;
  position : option string;
  reported_dates_of_birth : PyVal
}.

(** The error section 7 calls [MissingRequiredField]: the [ValueError] the
    standardizer raises by hand for an absent key. *)
Definition MissingRequiredField (field : string) : exn :=
  ValueError (field ++ " not found").

(** ** Record standardizer (app.py, lines 76-210) *)

(** [value = x[key] if key in x else None] *)
Definition get_or_none (x : PyVal) (key : string) : result PyVal :=
  present <- py_contains key x ;;
  if present then py_getitem x key else Ok VNone.

Definition standardize_addresses (address_list : PyVal) : result (list Address) :=
  elems <- py_iter address_list ;;
  for_each
    (fun standard_addresses address =>
       value <- get_or_none address "value" ;;
       country <- get_or_none address "country" ;;
       postal_code <- get_or_none address "postal_code" ;;
       Ok (standard_addresses ++ [mkAddress value country postal_code]))
    elems [].

Definition standardize_aliases (aliases_list : PyVal) : result (list Alias) :=
  elems <- py_iter aliases_list ;;
  for_each
    (fun standard_aliases alias =>
       value <- get_or_none alias "value" ;;
       type_ <- get_or_none alias "type" ;;
       Ok (standard_aliases ++ [mkAlias value type_]))
    elems [].

Definition standardize_id_numbers (id_numbers_list : PyVal) : result (list IDNumber) :=
  elems <- py_iter id_numbers_list ;;
  for_each
    (fun standard_id_numbers id_numbers =>
       value <- get_or_none id_numbers "value" ;;
       comment <- get_or_none id_numbers "comment" ;;
       Ok (standard_id_numbers ++ [mkIDNumber value comment]))
    elems [].

Section Standardizer.

(** [repr] of a list or dictionary, which [str] falls back to; no property
    below depends on what it prints. *)
Variable py_repr : PyVal -> string.

(** [str(v)] *)
Definition py_str (v : PyVal) : string :=
  match v with
  | VNone => "None"
  | VInt z => NilZero.string_of_int (Z.to_int z)
  | VStr s => s
  | VList _ | VDict _ => py_repr v
  end.

(** [standardize_record], from the decoded dictionary on (lines 81-144).
    The function as it is called, on a line of text, is
    [FromText.standardize_record] below. *)
Definition standardize_record (record_dict : dict) : result Record_ :=
  id_ <- (if dict_mem "id" record_dict
          then v <- dict_get "id" record_dict ;; py_int v
          else Raise (ValueError "id not found")) ;;
  type_ <- (if dict_mem "type" record_dict
            then v <- dict_get "type" record_dict ;; Ok (py_str v)
            else Raise (ValueError "type not found")) ;;
  name <- (if dict_mem "name" record_dict
           then v <- dict_get "name" record_dict ;; Ok (py_str v)
           else Raise (ValueError "name not found")) ;;
  aliases <- (if dict_mem "aliases" record_dict
              then v <- dict_get "aliases" record_dict ;; standardize_aliases v
              else Ok []) ;;
  nationality <- (if dict_mem "nationality" record_dict
                  then dict_get "nationality" record_dict
                  else Ok (VList [])) ;;
  addresses <- (if dict_mem "addresses" record_dict
                then v <- dict_get "addresses" record_dict ;; standardize_addresses v
                else Ok []) ;;
  id_numbers <- (if dict_mem "id_numbers" record_dict
                 then v <- dict_get "id_numbers" record_dict ;; standardize_id_numbers v
                 else Ok []) ;;
  place_of_birth <- (if dict_mem "place_of_birth" record_dict
                     then v <- dict_get "place_of_birth" record_dict ;; Ok (Some (py_str v))
                     else Ok None) ;;
  position <- (if dict_mem "position" record_dict
               then v <- dict_get "position" record_dict ;; Ok (Some (py_str v))
               else Ok None) ;;
  reported_dates_of_birth <- (if dict_mem "reported_dates_of_birth" record_dict
                              then dict_get "reported_dates_of_birth" record_dict
                              else Ok (VList [])) ;;
  Ok (mkRecord id_ type_ name aliases nationality addresses id_numbers
        place_of_birth position reported_dates_of_birth).

End Standardizer.

(** ** A line of text (app.py, lines 76-144)

    [standardize_record] is given a line of text.  It rewrites the text,
    hands it to [eval], and reads the fields from whatever [eval] returns. *)

Module FromText.

(** [s.replace(old, new)] for a non-empty [old]: the occurrences of [old] are
    taken from the left and do not overlap.  [skip] counts the characters of
    the occurrence just replaced that are still to be passed. *)
Fixpoint replace_from (old new : string) (skip : nat) (s : string) : string :=
  match s with
  | EmptyString => EmptyString
  | String c rest =>
      match skip with
      | S n => replace_from old new n rest
      | O =>
          if String.prefix old s
          then (new ++ replace_from old new (String.length old - 1) rest)%string
          else String c (replace_from old new 0 rest)
      end
  end.

Definition py_replace (old new s : string) : string := replace_from old new 0 s.

(** Line 78. *)
Definition standard_string (input_string : string) : string :=
  py_replace "null" "None" (py_replace "[null]" "[]" input_string).

(** [eval] runs the text as Python code and is not modelled: it is a
    parameter.  It returns a value or raises, and its exception can be of any
    class; the class is given by name. *)
Inductive Evaluated : Type :=
| Value (v : PyVal)
| EvalRaises (cls : string).

(** What a call of [standardize_record] does: it returns a record, or an
    exception leaves it, raised by [eval] at line 79 or by the statements
    after it. *)
Inductive Outcome : Type :=
| Standard (r : Record_)
| Fails (e : exn)
| EvalFails (cls : string).

Section Line.

Variable py_repr : PyVal -> string.
Variable py_eval : string -> Evaluated.

(** Lines 81-144, on whatever value [eval] returned. *)
Definition read_fields (record_dict : PyVal) : result Record_ :=
  id_ <- (b <- py_contains "id" record_dict ;;
          if b then v <- py_getitem record_dict "id" ;; py_int v
          else Raise (ValueError "id not found")) ;;
  type_ <- (b <- py_contains "type" record_dict ;;
            if b then v <- py_getitem record_dict "type" ;; Ok (py_str py_repr v)
            else Raise (ValueError "type not found")) ;;
  name <- (b <- py_contains "name" record_dict ;;
           if b then v <- py_getitem record_dict "name" ;; Ok (py_str py_repr v)
           else Raise (ValueError "name not found")) ;;
  aliases <- (b <- py_contains "aliases" record_dict ;;
              if b then v <- py_getitem record_dict "aliases" ;; standardize_aliases v
              else Ok []) ;;
  nationality <- (b <- py_contains "nationality" record_dict ;;
                  if b then py_getitem record_dict "nationality"
                  else Ok (VList [])) ;;
  addresses <- (b <- py_contains "addresses" record_dict ;;
                if b then v <- py_getitem record_dict "addresses" ;;
                          standardize_addresses v
                else Ok []) ;;
  id_numbers <- (b <- py_contains "id_numbers" record_dict ;;
                 if b then v <- py_getitem record_dict "id_numbers" ;;
                           standardize_id_numbers v
                 else Ok []) ;;
  place_of_birth <- (b <- py_contains "place_of_birth" record_dict ;;
                     if b then v <- py_getitem record_dict "place_of_birth" ;;
                               Ok (Some (py_str py_repr v))
                     else Ok None) ;;
  position <- (b <- py_contains "position" record_dict ;;
               if b then v <- py_getitem record_dict "position" ;;
                         Ok (Some (py_str py_repr v))
               else Ok None) ;;
  reported_dates_of_birth <- (b <- py_contains "reported_dates_of_birth" record_dict ;;
                              if b then py_getitem record_dict "reported_dates_of_birth"
                              else Ok (VList [])) ;;
  Ok (mkRecord id_ type_ name aliases nationality addresses id_numbers
        place_of_birth position reported_dates_of_birth).

Definition standardize_record (input_string : string) : Outcome :=
  match py_eval (standard_string input_string) with
  | EvalRaises cls => EvalFails cls
  | Value record_dict =>
      match read_fields record_dict with
      | Ok standard_record => Standard standard_record
      | Raise e => Fails e
      end
  end.

End Line.

End FromText.

(** ** Name normalizer as called (app.py, lines 293-303)

    Only a [str] has a [lower] method. *)
Definition clean_name (name : PyVal) : result string :=
  match name with
  | VStr s => Ok (clean_str s)
  | VNone | VInt _ | VList _ | VDict _ => Raise AttributeError
  end.

(** ** Matching engine (app.py, lines 213-290)

    One constructor per shape of match dictionary, its arguments in the order
    of the dictionary's keys:
    [{"gbr_name", "ofac_name"}], [{"gbr_name", "ofac_alias"}],
    [{"gbr_alias", "ofac_name"}], [{"gbr_alias", "ofac_alias"}] and
    [{"gbr_id_number", "gbr_comment", "ofac_id_number", "ofac_comment"}]. *)
Inductive Evidence : Type :=
| NameToName (gbr_name ofac_name : string)
| NameToAlias (gbr_name : string) (ofac_alias : PyVal)
| AliasToName (gbr_alias : PyVal) (ofac_name : string)
| AliasToAlias (gbr_alias ofac_alias : PyVal)
| IdentifierMatch (gbr_id_number gbr_comment ofac_id_number ofac_comment : PyVal).

Record OutputRecord : Type := mkOutput {
  gbr_id : Z;
  ofac_id : Z;
  matches : list Evidence
}.

Definition get_name_matches (potential_match : Record_ * Record_)
  : result (list Evidence) :=
  let '(gbr_record, ofac_record) := potential_match in
  let matches := [] in
  g <- clean_name (VStr (name gbr_record)) ;;
  o <- clean_name (VStr (name ofac_record)) ;;
  let matches :=
    if String.eqb g o
    then matches ++ [NameToName (name gbr_record) (name ofac_record)]
    else matches in
  for_each
    (fun matches alias =>
       g <- clean_name (VStr (name gbr_record)) ;;
       a <- clean_name (alias_value alias) ;;
       Ok (if String.eqb g a
           then matches ++ [NameToAlias (name gbr_record) (alias_value alias)]
           else matches))
    (aliases ofac_record) matches.

Definition get_alias_matches (potential_match : Record_ * Record_)
  : result (list Evidence) :=
  let '(gbr_record, ofac_record) := potential_match in
  for_each
    (fun matches gbr_alias =>
       g <- clean_name (alias_value gbr_alias) ;;
       o <- clean_name (VStr (name ofac_record)) ;;
       let matches :=
         if String.eqb g o
         then matches ++ [AliasToName (alias_value gbr_alias) (name ofac_record)]
         else matches in
       for_each
         (fun matches ofac_alias =>
            g <- clean_name (alias_value gbr_alias) ;;
            o <- clean_name (alias_value ofac_alias) ;;
            Ok (if String.eqb g o
                then matches ++ [AliasToAlias (alias_value gbr_alias)
                                              (alias_value ofac_alias)]
                else matches))
         (aliases ofac_record) matches)
    (aliases gbr_record) [].

Definition get_id_matches (potential_match : Record_ * Record_) : list Evidence :=
  let '(gbr_record, ofac_record) := potential_match in
  for_pure
    (fun matches gbr_id =>
       for_pure
         (fun matches ofac_id =>
            if py_eq (id_value gbr_id) (id_value ofac_id)
            then matches ++ [IdentifierMatch (id_value gbr_id) (comment gbr_id)
                                             (id_value ofac_id) (comment ofac_id)]
            else matches)
         (id_numbers ofac_record) matches)
    (id_numbers gbr_record) [].

Definition get_all_matches (potential_match : Record_ * Record_)
  : result OutputRecord :=
  let '(gbr_record, ofac_record) := potential_match in
  name_matches <- get_name_matches potential_match ;;
  alias_matches <- get_alias_matches potential_match ;;
  let id_matches := get_id_matches potential_match in
  let all_matches := (name_matches ++ alias_matches) ++ id_matches in
  Ok (mkOutput (id_ gbr_record) (id_ ofac_record) all_matches).

(** ** Evidence deduplicator (app.py, lines 306-316) *)

(** [==] on two match dictionaries: the same keys, and equal values under
    each key. *)
Definition evidence_eqb (a b : Evidence) : bool :=
  match a, b with
  | NameToName g o, NameToName g' o' => String.eqb g g' && String.eqb o o'
  | NameToAlias g o, NameToAlias g' o' => String.eqb g g' && py_eq o o'
  | AliasToName g o, AliasToName g' o' => py_eq g g' && String.eqb o o'
  | AliasToAlias g o, AliasToAlias g' o' => py_eq g g' && py_eq o o'
  | IdentifierMatch v c w d, IdentifierMatch v' c' w' d' =>
      py_eq v v' && py_eq c c' && py_eq w w' && py_eq d d'
  | _, _ => false
  end.

(** [pd.Series(xs).drop_duplicates().to_list()], the library call with its
    default [keep="first"]: one pass, an element is kept unless it equals one
    already kept. *)
Definition dedupe_step (kept : list Evidence) (x : Evidence) : list Evidence :=
  if existsb (evidence_eqb x) kept then kept else kept ++ [x].

Definition series_drop_duplicates (xs : list Evidence) : list Evidence :=
  for_pure dedupe_step xs [].

Definition drop_duplicates (output_record : OutputRecord) : OutputRecord :=
  let new_gbr_id := gbr_id output_record in
  let new_ofac_id := ofac_id output_record in
  let all_matches := matches output_record in
  let unique_matches := series_drop_duplicates all_matches in
  mkOutput new_gbr_id new_ofac_id unique_matches.

(** ** Pairwise join (app.py, lines 43-62) *)

(** [rdd.map(f)] for an [f] that may raise: the first exception fails the job. *)
Fixpoint rdd_map {A B : Type} (f : A -> result B) (xs : list A) : result (list B) :=
  match xs with
  | [] => Ok []
  | x :: rest => y <- f x ;; ys <- rdd_map f rest ;; Ok (y :: ys)
  end.

(** [gbr.cartesian(ofac)] *)
Definition cartesian {A B : Type} (gbr : list A) (ofac : list B) : list (A * B) :=
  list_prod gbr ofac.

(** Truth value of a list. *)
Definition truthy {A : Type} (xs : list A) : bool :=
  match xs with
  | [] => false
  | _ :: _ => true
  end.

(** Lines 53-62: all pairs, matched, the empty results filtered out, the rest
    deduplicated. *)
Definition run (gbr ofac : list Record_) : result (list OutputRecord) :=
  let potential_matches := cartesian gbr ofac in
  all <- rdd_map get_all_matches potential_matches ;;
  Ok (map drop_duplicates (filter (fun output_record => truthy (matches output_record)) all)).

(** Lines 49-62, from the decoded lines on. *)
Definition main (py_repr : PyVal -> string) (gbr_lines ofac_lines : list dict)
  : result (list OutputRecord) :=
  gbr <- rdd_map (standardize_record py_repr) gbr_lines ;;
  ofac <- rdd_map (standardize_record py_repr) ofac_lines ;;
  run gbr ofac.

(** ** Well-formed records

    Section 3 types the value and the comment of an alias or an identifier as
    optional strings. *)

Definition is_str (v : PyVal) : bool :=
  match v with
  | VStr _ => true
  | _ => false
  end.

Definition is_opt_str (v : PyVal) : bool :=
  match v with
  | VNone | VStr _ => true
  | _ => false
  end.

Definition wf_alias (a : Alias) : bool :=
  is_opt_str (alias_value a) && is_opt_str (alias_type a).

Definition wf_id_number (i : IDNumber) : bool :=
  is_opt_str (id_value i) && is_opt_str (comment i).

Definition well_formed (r : Record_) : bool :=
  forallb wf_alias (aliases r) && forallb wf_id_number (id_numbers r).

(** Every alias carries a string value. *)
Definition named_aliases (r : Record_) : bool :=
  forallb (fun a => is_str (alias_value a)) (aliases r).

Definition wf_evidence (e : Evidence) : bool :=
  match e with
  | NameToName _ _ => true
  | NameToAlias _ o => is_opt_str o
  | AliasToName g _ => is_opt_str g
  | AliasToAlias g o => is_opt_str g && is_opt_str o
  | IdentifierMatch v c w d =>
      is_opt_str v && is_opt_str c && is_opt_str w && is_opt_str d
  end.

(** The evidence a swap of the two records turns an entry into. *)
Definition mirror (e : Evidence) : Evidence :=
  match e with
  | NameToName g o => NameToName o g
  | NameToAlias g o => AliasToName o g
  | AliasToName g o => NameToAlias o g
  | AliasToAlias g o => AliasToAlias o g
  | IdentifierMatch v c w d => IdentifierMatch w d v c
  end.

Definition is_name_rule (e : Evidence) : bool :=
  match e with
  | NameToName _ _ | NameToAlias _ _ => true
  | _ => false
  end.

Definition is_alias_rule (e : Evidence) : bool :=
  match e with
  | AliasToName _ _ | AliasToAlias _ _ => true
  | _ => false
  end.

Definition is_id_rule (e : Evidence) : bool :=
  match e with
  | IdentifierMatch _ _ _ _ => true
  | _ => false
  end.

Definition of_opt (o : option string) : PyVal :=
  match o with
  | Some s => VStr s
  | None => VNone
  end.

(** A record with the given name, aliases and identifiers and nothing else. *)
Definition record_of (i : Z) (n : string) (als : list Alias) (ids : list IDNumber)
  : Record_ :=
  mkRecord i "individual" n als (VList []) [] ids None None (VList []).

(** The deduplicator as section 4.4 words it: an entry goes when it is
    identical to an entry anywhere earlier in the sequence, and stays where it
    is otherwise. [earlier] holds every entry passed so far, kept or not. *)
Module DedupeSpec.

Fixpoint dedupe_from (earlier xs : list Evidence) : list Evidence :=
  match xs with
  | [] => []
  | x :: rest =>
      (if existsb (evidence_eqb x) earlier then [] else [x])
        ++ dedupe_from (earlier ++ [x]) rest
  end.

Definition dedupe (xs : list Evidence) : list Evidence := dedupe_from [] xs.

End DedupeSpec.

(** [subseq xs ys]: [xs] is [ys] with some entries left out, the others in
    their order. *)
Inductive subseq {A : Type} : list A -> list A -> Prop :=
| subseq_nil : subseq [] []
| subseq_skip (y : A) (xs ys : list A) : subseq xs ys -> subseq xs (y :: ys)
| subseq_keep (x : A) (xs ys : list A) : subseq xs ys -> subseq (x :: xs) (x :: ys).

(** ** A declarative reading of the match rules

    What each rule emits, element by element, with [None] where the loop body
    would raise. *)

Fixpoint collect {A B : Type} (g : A -> option (list B)) (xs : list A)
  : option (list B) :=
  match xs with
  | [] => Some []
  | x :: rest =>
      match g x, collect g rest with
      | Some ys, Some zs => Some (ys ++ zs)
      | _, _ => None
      end
  end.

Definition name_to_name (l r : Record_) : list Evidence :=
  if String.eqb (clean_str (name l)) (clean_str (name r))
  then [NameToName (name l) (name r)] else [].

Definition name_to_alias (l : Record_) (ra : Alias) : option (list Evidence) :=
  match alias_value ra with
  | VStr a =>
      Some (if String.eqb (clean_str (name l)) (clean_str a)
            then [NameToAlias (name l) (VStr a)] else [])
  | _ => None
  end.

Definition alias_to_alias (la : string) (ra : Alias) : option (list Evidence) :=
  match alias_value ra with
  | VStr a =>
      Some (if String.eqb (clean_str la) (clean_str a)
            then [AliasToAlias (VStr la) (VStr a)] else [])
  | _ => None
  end.

Definition alias_rules (r : Record_) (la : Alias) : option (list Evidence) :=
  match alias_value la with
  | VStr a =>
      match collect (alias_to_alias a) (aliases r) with
      | Some ys =>
          Some ((if String.eqb (clean_str a) (clean_str (name r))
                 then [AliasToName (VStr a) (name r)] else []) ++ ys)
      | None => None
      end
  | _ => None
  end.

Definition id_rule (li ri : IDNumber) : list Evidence :=
  if py_eq (id_value li) (id_value ri)
  then [IdentifierMatch (id_value li) (comment li) (id_value ri) (comment ri)]
  else [].

Definition raise_if_none {A : Type} (o : option A) : result A :=
  match o with
  | Some a => Ok a
  | None => Raise AttributeError
  end.

(** The same rules on the strings themselves, for records whose aliases all
    carry a string value. *)

Definition alias_strings (r : Record_) : list string :=
  flat_map (fun a => match alias_value a with VStr s => [s] | _ => [] end) (aliases r).

Definition name_vs_alias (n a : string) : list Evidence :=
  if String.eqb (clean_str n) (clean_str a) then [NameToAlias n (VStr a)] else [].

Definition alias_vs_name (a n : string) : list Evidence :=
  if String.eqb (clean_str a) (clean_str n) then [AliasToName (VStr a) n] else [].

Definition alias_vs_alias (a b : string) : list Evidence :=
  if String.eqb (clean_str a) (clean_str b) then [AliasToAlias (VStr a) (VStr b)] else [].

(** The two variants section 8 calls symmetric under a swap. *)
Definition is_symmetric_variant (e : Evidence) : bool :=
  match e with
  | NameToName _ _ | IdentifierMatch _ _ _ _ => true
  | _ => false
  end.

(** ** Reading the required fields *)

(** The dictionary has an [id] and [int] accepts it. *)
Definition id_coercible (d : dict) : bool :=
  match dict_get "id" d with
  | Ok v => match py_int v with Ok _ => true | Raise _ => false end
  | Raise _ => false
  end.

Definition required_fields : list string := ["id"; "type"; "name"].

Definition optional_fields : list string :=
  ["aliases"; "nationality"; "addresses"; "id_numbers"; "place_of_birth";
   "position"; "reported_dates_of_birth"].

Definition is_value_error (e : exn) : bool :=
  match e with
  | ValueError _ => true
  | _ => false
  end.

(** ** Vocabulary for further properties of the standardizer *)

(** The value under [key], [None] when the dictionary has no such key. *)
Definition dict_get_or_none (d : dict) (key : string) : PyVal :=
  match dict_lookup key d with
  | Some v => v
  | None => VNone
  end.

Definition recognized_fields : list string := required_fields ++ optional_fields.

Definition alias_of_dict (d : dict) : Alias :=
  mkAlias (dict_get_or_none d "value") (dict_get_or_none d "type").

Definition address_of_dict (d : dict) : Address :=
  mkAddress (dict_get_or_none d "value") (dict_get_or_none d "country")
            (dict_get_or_none d "postal_code").

Definition id_number_of_dict (d : dict) : IDNumber :=
  mkIDNumber (dict_get_or_none d "value") (dict_get_or_none d "comment").

(** Not something a [for] loop body can look a key up in. *)
Definition is_scalar (v : PyVal) : bool :=
  match v with
  | VNone | VInt _ => true
  | _ => false
  end.

(** ** Vocabulary for further properties of the engine and the deduplicator *)

(** The fields of a record the match rules read. *)
Definition same_matching_fields (a b : Record_) : Prop :=
  id_ a = id_ b /\ name a = name b /\
  map alias_value (aliases a) = map alias_value (aliases b) /\
  id_numbers a = id_numbers b.

(** No entry of [ys] is [==] to an entry before it in [seen ++ ys]. *)
Fixpoint distinct_from (seen ys : list Evidence) : bool :=
  match ys with
  | [] => true
  | y :: rest =>
      negb (existsb (evidence_eqb y) seen) && distinct_from (seen ++ [y]) rest
  end.

(** ** Names as sequences of code points: [clean_name] in full

    A Python [str] is a sequence of Unicode code points, and [str.lower] is
    the full lower-case conversion of the Unicode standard: every code point
    is replaced by its lower-case mapping, one code point long except for
    U+0130, and a capital sigma becomes a final or a plain small sigma
    according to the cased letters around it. The three tables are those of
    Unicode 14.0.0, the version of CPython 3.11: the lower-case mappings, and
    the code points with the properties Cased and Case_Ignorable. *)
Module Unicode.

Definition ustr : Type := list N.

Definition in_ranges (c : N) (rs : list (N * N)) : bool :=
  existsb (fun r => (fst r <=? c)%N && (c <=? snd r)%N) rs.

Fixpoint lookup (c : N) (t : list (N * N)) : option N :=
  match t with
  | [] => None
  | (k, v) :: rest => if (k =? c)%N then Some v else lookup c rest
  end.

(** Code points whose lower-case mapping is another single code point. *)
Definition lower_table : list (N * N) :=
  [
   (0x41, 0x61); (0x42, 0x62); (0x43, 0x63); (0x44, 0x64); (0x45, 0x65); (0x46, 0x66);
   (0x47, 0x67); (0x48, 0x68); (0x49, 0x69); (0x4A, 0x6A); (0x4B, 0x6B); (0x4C, 0x6C);
   (0x4D, 0x6D); (0x4E, 0x6E); (0x4F, 0x6F); (0x50, 0x70); (0x51, 0x71); (0x52, 0x72);
   (0x53, 0x73); (0x54, 0x74); (0x55, 0x75); (0x56, 0x76); (0x57, 0x77); (0x58, 0x78);
   (0x59, 0x79); (0x5A, 0x7A); (0xC0, 0xE0); (0xC1, 0xE1); (0xC2, 0xE2); (0xC3, 0xE3);
   (0xC4, 0xE4); (0xC5, 0xE5); (0xC6, 0xE6); (0xC7, 0xE7); (0xC8, 0xE8); (0xC9, 0xE9);
   (0xCA, 0xEA); (0xCB, 0xEB); (0xCC, 0xEC); (0xCD, 0xED); (0xCE, 0xEE); (0xCF, 0xEF);
   (0xD0, 0xF0); (0xD1, 0xF1); (0xD2, 0xF2); (0xD3, 0xF3); (0xD4, 0xF4); (0xD5, 0xF5);
   (0xD6, 0xF6); (0xD8, 0xF8); (0xD9, 0xF9); (0xDA, 0xFA); (0xDB, 0xFB); (0xDC, 0xFC);
   (0xDD, 0xFD); (0xDE, 0xFE); (0x100, 0x101); (0x102, 0x103); (0x104, 0x105); (0x106, 0x107);
   (0x108, 0x109); (0x10A, 0x10B); (0x10C, 0x10D); (0x10E, 0x10F); (0x110, 0x111); (0x112, 0x113);
   (0x114, 0x115); (0x116, 0x117); (0x118, 0x119); (0x11A, 0x11B); (0x11C, 0x11D); (0x11E, 0x11F);
   (0x120, 0x121); (0x122, 0x123); (0x124, 0x125); (0x126, 0x127); (0x128, 0x129); (0x12A, 0x12B);
   (0x12C, 0x12D); (0x12E, 0x12F); (0x132, 0x133); (0x134, 0x135); (0x136, 0x137); (0x139, 0x13A);
   (0x13B, 0x13C); (0x13D, 0x13E); (0x13F, 0x140); (0x141, 0x142); (0x143, 0x144); (0x145, 0x146);
   (0x147, 0x148); (0x14A, 0x14B); (0x14C, 0x14D); (0x14E, 0x14F); (0x150, 0x151); (0x152, 0x153);
   (0x154, 0x155); (0x156, 0x157); (0x158, 0x159); (0x15A, 0x15B); (0x15C, 0x15D); (0x15E, 0x15F);
   (0x160, 0x161); (0x162, 0x163); (0x164, 0x165); (0x166, 0x167); (0x168, 0x169); (0x16A, 0x16B);
   (0x16C, 0x16D); (0x16E, 0x16F); (0x170, 0x171); (0x172, 0x173); (0x174, 0x175); (0x176, 0x177);
   (0x178, 0xFF); (0x179, 0x17A); (0x17B, 0x17C); (0x17D, 0x17E); (0x181, 0x253); (0x182, 0x183);
   (0x184, 0x185); (0x186, 0x254); (0x187, 0x188); (0x189, 0x256); (0x18A, 0x257); (0x18B, 0x18C);
   (0x18E, 0x1DD); (0x18F, 0x259); (0x190, 0x25B); (0x191, 0x192); (0x193, 0x260); (0x194, 0x263);
   (0x196, 0x269); (0x197, 0x268); (0x198, 0x199); (0x19C, 0x26F); (0x19D, 0x272); (0x19F, 0x275);
   (0x1A0, 0x1A1); (0x1A2, 0x1A3); (0x1A4, 0x1A5); (0x1A6, 0x280); (0x1A7, 0x1A8); (0x1A9, 0x283);
   (0x1AC, 0x1AD); (0x1AE, 0x288); (0x1AF, 0x1B0); (0x1B1, 0x28A); (0x1B2, 0x28B); (0x1B3, 0x1B4);
   (0x1B5, 0x1B6); (0x1B7, 0x292); (0x1B8, 0x1B9); (0x1BC, 0x1BD); (0x1C4, 0x1C6); (0x1C5, 0x1C6);
   (0x1C7, 0x1C9); (0x1C8, 0x1C9); (0x1CA, 0x1CC); (0x1CB, 0x1CC); (0x1CD, 0x1CE); (0x1CF, 0x1D0);
   (0x1D1, 0x1D2); (0x1D3, 0x1D4); (0x1D5, 0x1D6); (0x1D7, 0x1D8); (0x1D9, 0x1DA); (0x1DB, 0x1DC);
   (0x1DE, 0x1DF); (0x1E0, 0x1E1); (0x1E2, 0x1E3); (0x1E4, 0x1E5); (0x1E6, 0x1E7); (0x1E8, 0x1E9);
   (0x1EA, 0x1EB); (0x1EC, 0x1ED); (0x1EE, 0x1EF); (0x1F1, 0x1F3); (0x1F2, 0x1F3); (0x1F4, 0x1F5);
   (0x1F6, 0x195); (0x1F7, 0x1BF); (0x1F8, 0x1F9); (0x1FA, 0x1FB); (0x1FC, 0x1FD); (0x1FE, 0x1FF);
   (0x200, 0x201); (0x202, 0x203); (0x204, 0x205); (0x206, 0x207); (0x208, 0x209); (0x20A, 0x20B);
   (0x20C, 0x20D); (0x20E, 0x20F); (0x210, 0x211); (0x212, 0x213); (0x214, 0x215); (0x216, 0x217);
   (0x218, 0x219); (0x21A, 0x21B); (0x21C, 0x21D); (0x21E, 0x21F); (0x220, 0x19E); (0x222, 0x223);
   (0x224, 0x225); (0x226, 0x227); (0x228, 0x229); (0x22A, 0x22B); (0x22C, 0x22D); (0x22E, 0x22F);
   (0x230, 0x231); (0x232, 0x233); (0x23A, 0x2C65); (0x23B, 0x23C); (0x23D, 0x19A); (0x23E, 0x2C66);
   (0x241, 0x242); (0x243, 0x180); (0x244, 0x289); (0x245, 0x28C); (0x246, 0x247); (0x248, 0x249);
   (0x24A, 0x24B); (0x24C, 0x24D); (0x24E, 0x24F); (0x370, 0x371); (0x372, 0x373); (0x376, 0x377);
   (0x37F, 0x3F3); (0x386, 0x3AC); (0x388, 0x3AD); (0x389, 0x3AE); (0x38A, 0x3AF); (0x38C, 0x3CC);
   (0x38E, 0x3CD); (0x38F, 0x3CE); (0x391, 0x3B1); (0x392, 0x3B2); (0x393, 0x3B3); (0x394, 0x3B4);
   (0x395, 0x3B5); (0x396, 0x3B6); (0x397, 0x3B7); (0x398, 0x3B8); (0x399, 0x3B9); (0x39A, 0x3BA);
   (0x39B, 0x3BB); (0x39C, 0x3BC); (0x39D, 0x3BD); (0x39E, 0x3BE); (0x39F, 0x3BF); (0x3A0, 0x3C0);
   (0x3A1, 0x3C1); (0x3A3, 0x3C3); (0x3A4, 0x3C4); (0x3A5, 0x3C5); (0x3A6, 0x3C6); (0x3A7, 0x3C7);
   (0x3A8, 0x3C8); (0x3A9, 0x3C9); (0x3AA, 0x3CA); (0x3AB, 0x3CB); (0x3CF, 0x3D7); (0x3D8, 0x3D9);
   (0x3DA, 0x3DB); (0x3DC, 0x3DD); (0x3DE, 0x3DF); (0x3E0, 0x3E1); (0x3E2, 0x3E3); (0x3E4, 0x3E5);
   (0x3E6, 0x3E7); (0x3E8, 0x3E9); (0x3EA, 0x3EB); (0x3EC, 0x3ED); (0x3EE, 0x3EF); (0x3F4, 0x3B8);
   (0x3F7, 0x3F8); (0x3F9, 0x3F2); (0x3FA, 0x3FB); (0x3FD, 0x37B); (0x3FE, 0x37C); (0x3FF, 0x37D);
   (0x400, 0x450); (0x401, 0x451); (0x402, 0x452); (0x403, 0x453); (0x404, 0x454); (0x405, 0x455);
   (0x406, 0x456); (0x407, 0x457); (0x408, 0x458); (0x409, 0x459); (0x40A, 0x45A); (0x40B, 0x45B);
   (0x40C, 0x45C); (0x40D, 0x45D); (0x40E, 0x45E); (0x40F, 0x45F); (0x410, 0x430); (0x411, 0x431);
   (0x412, 0x432); (0x413, 0x433); (0x414, 0x434); (0x415, 0x435); (0x416, 0x436); (0x417, 0x437);
   (0x418, 0x438); (0x419, 0x439); (0x41A, 0x43A); (0x41B, 0x43B); (0x41C, 0x43C); (0x41D, 0x43D);
   (0x41E, 0x43E); (0x41F, 0x43F); (0x420, 0x440); (0x421, 0x441); (0x422, 0x442); (0x423, 0x443);
   (0x424, 0x444); (0x425, 0x445); (0x426, 0x446); (0x427, 0x447); (0x428, 0x448); (0x429, 0x449);
   (0x42A, 0x44A); (0x42B, 0x44B); (0x42C, 0x44C); (0x42D, 0x44D); (0x42E, 0x44E); (0x42F, 0x44F);
   (0x460, 0x461); (0x462, 0x463); (0x464, 0x465); (0x466, 0x467); (0x468, 0x469); (0x46A, 0x46B);
   (0x46C, 0x46D); (0x46E, 0x46F); (0x470, 0x471); (0x472, 0x473); (0x474, 0x475); (0x476, 0x477);
   (0x478, 0x479); (0x47A, 0x47B); (0x47C, 0x47D); (0x47E, 0x47F); (0x480, 0x481); (0x48A, 0x48B);
   (0x48C, 0x48D); (0x48E, 0x48F); (0x490, 0x491); (0x492, 0x493); (0x494, 0x495); (0x496, 0x497);
   (0x498, 0x499); (0x49A, 0x49B); (0x49C, 0x49D); (0x49E, 0x49F); (0x4A0, 0x4A1); (0x4A2, 0x4A3);
   (0x4A4, 0x4A5); (0x4A6, 0x4A7); (0x4A8, 0x4A9); (0x4AA, 0x4AB); (0x4AC, 0x4AD); (0x4AE, 0x4AF);
   (0x4B0, 0x4B1); (0x4B2, 0x4B3); (0x4B4, 0x4B5); (0x4B6, 0x4B7); (0x4B8, 0x4B9); (0x4BA, 0x4BB);
   (0x4BC, 0x4BD); (0x4BE, 0x4BF); (0x4C0, 0x4CF); (0x4C1, 0x4C2); (0x4C3, 0x4C4); (0x4C5, 0x4C6);
   (0x4C7, 0x4C8); (0x4C9, 0x4CA); (0x4CB, 0x4CC); (0x4CD, 0x4CE); (0x4D0, 0x4D1); (0x4D2, 0x4D3);
   (0x4D4, 0x4D5); (0x4D6, 0x4D7); (0x4D8, 0x4D9); (0x4DA, 0x4DB); (0x4DC, 0x4DD); (0x4DE, 0x4DF);
   (0x4E0, 0x4E1); (0x4E2, 0x4E3); (0x4E4, 0x4E5); (0x4E6, 0x4E7); (0x4E8, 0x4E9); (0x4EA, 0x4EB);
   (0x4EC, 0x4ED); (0x4EE, 0x4EF); (0x4F0, 0x4F1); (0x4F2, 0x4F3); (0x4F4, 0x4F5); (0x4F6, 0x4F7);
   (0x4F8, 0x4F9); (0x4FA, 0x4FB); (0x4FC, 0x4FD); (0x4FE, 0x4FF); (0x500, 0x501); (0x502, 0x503);
   (0x504, 0x505); (0x506, 0x507); (0x508, 0x509); (0x50A, 0x50B); (0x50C, 0x50D); (0x50E, 0x50F);
   (0x510, 0x511); (0x512, 0x513); (0x514, 0x515); (0x516, 0x517); (0x518, 0x519); (0x51A, 0x51B);
   (0x51C, 0x51D); (0x51E, 0x51F); (0x520, 0x521); (0x522, 0x523); (0x524, 0x525); (0x526, 0x527);
   (0x528, 0x529); (0x52A, 0x52B); (0x52C, 0x52D); (0x52E, 0x52F); (0x531, 0x561); (0x532, 0x562);
   (0x533, 0x563); (0x534, 0x564); (0x535, 0x565); (0x536, 0x566); (0x537, 0x567); (0x538, 0x568);
   (0x539, 0x569); (0x53A, 0x56A); (0x53B, 0x56B); (0x53C, 0x56C); (0x53D, 0x56D); (0x53E, 0x56E);
   (0x53F, 0x56F); (0x540, 0x570); (0x541, 0x571); (0x542, 0x572); (0x543, 0x573); (0x544, 0x574);
   (0x545, 0x575); (0x546, 0x576); (0x547, 0x577); (0x548, 0x578); (0x549, 0x579); (0x54A, 0x57A);
   (0x54B, 0x57B); (0x54C, 0x57C); (0x54D, 0x57D); (0x54E, 0x57E); (0x54F, 0x57F); (0x550, 0x580);
   (0x551, 0x581); (0x552, 0x582); (0x553, 0x583); (0x554, 0x584); (0x555, 0x585); (0x556, 0x586);
   (0x10A0, 0x2D00); (0x10A1, 0x2D01); (0x10A2, 0x2D02); (0x10A3, 0x2D03); (0x10A4, 0x2D04); (0x10A5, 0x2D05);
   (0x10A6, 0x2D06); (0x10A7, 0x2D07); (0x10A8, 0x2D08); (0x10A9, 0x2D09); (0x10AA, 0x2D0A); (0x10AB, 0x2D0B);
   (0x10AC, 0x2D0C); (0x10AD, 0x2D0D); (0x10AE, 0x2D0E); (0x10AF, 0x2D0F); (0x10B0, 0x2D10); (0x10B1, 0x2D11);
   (0x10B2, 0x2D12); (0x10B3, 0x2D13); (0x10B4, 0x2D14); (0x10B5, 0x2D15); (0x10B6, 0x2D16); (0x10B7, 0x2D17);
   (0x10B8, 0x2D18); (0x10B9, 0x2D19); (0x10BA, 0x2D1A); (0x10BB, 0x2D1B); (0x10BC, 0x2D1C); (0x10BD, 0x2D1D);
   (0x10BE, 0x2D1E); (0x10BF, 0x2D1F); (0x10C0, 0x2D20); (0x10C1, 0x2D21); (0x10C2, 0x2D22); (0x10C3, 0x2D23);
   (0x10C4, 0x2D24); (0x10C5, 0x2D25); (0x10C7, 0x2D27); (0x10CD, 0x2D2D); (0x13A0, 0xAB70); (0x13A1, 0xAB71);
   (0x13A2, 0xAB72); (0x13A3, 0xAB73); (0x13A4, 0xAB74); (0x13A5, 0xAB75); (0x13A6, 0xAB76); (0x13A7, 0xAB77);
   (0x13A8, 0xAB78); (0x13A9, 0xAB79); (0x13AA, 0xAB7A); (0x13AB, 0xAB7B); (0x13AC, 0xAB7C); (0x13AD, 0xAB7D);
   (0x13AE, 0xAB7E); (0x13AF, 0xAB7F); (0x13B0, 0xAB80); (0x13B1, 0xAB81); (0x13B2, 0xAB82); (0x13B3, 0xAB83);
   (0x13B4, 0xAB84); (0x13B5, 0xAB85); (0x13B6, 0xAB86); (0x13B7, 0xAB87); (0x13B8, 0xAB88); (0x13B9, 0xAB89);
   (0x13BA, 0xAB8A); (0x13BB, 0xAB8B); (0x13BC, 0xAB8C); (0x13BD, 0xAB8D); (0x13BE, 0xAB8E); (0x13BF, 0xAB8F);
   (0x13C0, 0xAB90); (0x13C1, 0xAB91); (0x13C2, 0xAB92); (0x13C3, 0xAB93); (0x13C4, 0xAB94); (0x13C5, 0xAB95);
   (0x13C6, 0xAB96); (0x13C7, 0xAB97); (0x13C8, 0xAB98); (0x13C9, 0xAB99); (0x13CA, 0xAB9A); (0x13CB, 0xAB9B);
   (0x13CC, 0xAB9C); (0x13CD, 0xAB9D); (0x13CE, 0xAB9E); (0x13CF, 0xAB9F); (0x13D0, 0xABA0); (0x13D1, 0xABA1);
   (0x13D2, 0xABA2); (0x13D3, 0xABA3); (0x13D4, 0xABA4); (0x13D5, 0xABA5); (0x13D6, 0xABA6); (0x13D7, 0xABA7);
   (0x13D8, 0xABA8); (0x13D9, 0xABA9); (0x13DA, 0xABAA); (0x13DB, 0xABAB); (0x13DC, 0xABAC); (0x13DD, 0xABAD);
   (0x13DE, 0xABAE); (0x13DF, 0xABAF); (0x13E0, 0xABB0); (0x13E1, 0xABB1); (0x13E2, 0xABB2); (0x13E3, 0xABB3);
   (0x13E4, 0xABB4); (0x13E5, 0xABB5); (0x13E6, 0xABB6); (0x13E7, 0xABB7); (0x13E8, 0xABB8); (0x13E9, 0xABB9);
   (0x13EA, 0xABBA); (0x13EB, 0xABBB); (0x13EC, 0xABBC); (0x13ED, 0xABBD); (0x13EE, 0xABBE); (0x13EF, 0xABBF);
   (0x13F0, 0x13F8); (0x13F1, 0x13F9); (0x13F2, 0x13FA); (0x13F3, 0x13FB); (0x13F4, 0x13FC); (0x13F5, 0x13FD);
   (0x1C90, 0x10D0); (0x1C91, 0x10D1); (0x1C92, 0x10D2); (0x1C93, 0x10D3); (0x1C94, 0x10D4); (0x1C95, 0x10D5);
   (0x1C96, 0x10D6); (0x1C97, 0x10D7); (0x1C98, 0x10D8); (0x1C99, 0x10D9); (0x1C9A, 0x10DA); (0x1C9B, 0x10DB);
   (0x1C9C, 0x10DC); (0x1C9D, 0x10DD); (0x1C9E, 0x10DE); (0x1C9F, 0x10DF); (0x1CA0, 0x10E0); (0x1CA1, 0x10E1);
   (0x1CA2, 0x10E2); (0x1CA3, 0x10E3); (0x1CA4, 0x10E4); (0x1CA5, 0x10E5); (0x1CA6, 0x10E6); (0x1CA7, 0x10E7);
   (0x1CA8, 0x10E8); (0x1CA9, 0x10E9); (0x1CAA, 0x10EA); (0x1CAB, 0x10EB); (0x1CAC, 0x10EC); (0x1CAD, 0x10ED);
   (0x1CAE, 0x10EE); (0x1CAF, 0x10EF); (0x1CB0, 0x10F0); (0x1CB1, 0x10F1); (0x1CB2, 0x10F2); (0x1CB3, 0x10F3);
   (0x1CB4, 0x10F4); (0x1CB5, 0x10F5); (0x1CB6, 0x10F6); (0x1CB7, 0x10F7); (0x1CB8, 0x10F8); (0x1CB9, 0x10F9);
   (0x1CBA, 0x10FA); (0x1CBD, 0x10FD); (0x1CBE, 0x10FE); (0x1CBF, 0x10FF); (0x1E00, 0x1E01); (0x1E02, 0x1E03);
   (0x1E04, 0x1E05); (0x1E06, 0x1E07); (0x1E08, 0x1E09); (0x1E0A, 0x1E0B); (0x1E0C, 0x1E0D); (0x1E0E, 0x1E0F);
   (0x1E10, 0x1E11); (0x1E12, 0x1E13); (0x1E14, 0x1E15); (0x1E16, 0x1E17); (0x1E18, 0x1E19); (0x1E1A, 0x1E1B);
   (0x1E1C, 0x1E1D); (0x1E1E, 0x1E1F); (0x1E20, 0x1E21); (0x1E22, 0x1E23); (0x1E24, 0x1E25); (0x1E26, 0x1E27);
   (0x1E28, 0x1E29); (0x1E2A, 0x1E2B); (0x1E2C, 0x1E2D); (0x1E2E, 0x1E2F); (0x1E30, 0x1E31); (0x1E32, 0x1E33);
   (0x1E34, 0x1E35); (0x1E36, 0x1E37); (0x1E38, 0x1E39); (0x1E3A, 0x1E3B); (0x1E3C, 0x1E3D); (0x1E3E, 0x1E3F);
   (0x1E40, 0x1E41); (0x1E42, 0x1E43); (0x1E44, 0x1E45); (0x1E46, 0x1E47); (0x1E48, 0x1E49); (0x1E4A, 0x1E4B);
   (0x1E4C, 0x1E4D); (0x1E4E, 0x1E4F); (0x1E50, 0x1E51); (0x1E52, 0x1E53); (0x1E54, 0x1E55); (0x1E56, 0x1E57);
   (0x1E58, 0x1E59); (0x1E5A, 0x1E5B); (0x1E5C, 0x1E5D); (0x1E5E, 0x1E5F); (0x1E60, 0x1E61); (0x1E62, 0x1E63);
   (0x1E64, 0x1E65); (0x1E66, 0x1E67); (0x1E68, 0x1E69); (0x1E6A, 0x1E6B); (0x1E6C, 0x1E6D); (0x1E6E, 0x1E6F);
   (0x1E70, 0x1E71); (0x1E72, 0x1E73); (0x1E74, 0x1E75); (0x1E76, 0x1E77); (0x1E78, 0x1E79); (0x1E7A, 0x1E7B);
   (0x1E7C, 0x1E7D); (0x1E7E, 0x1E7F); (0x1E80, 0x1E81); (0x1E82, 0x1E83); (0x1E84, 0x1E85); (0x1E86, 0x1E87);
   (0x1E88, 0x1E89); (0x1E8A, 0x1E8B); (0x1E8C, 0x1E8D); (0x1E8E, 0x1E8F); (0x1E90, 0x1E91); (0x1E92, 0x1E93);
   (0x1E94, 0x1E95); (0x1E9E, 0xDF); (0x1EA0, 0x1EA1); (0x1EA2, 0x1EA3); (0x1EA4, 0x1EA5); (0x1EA6, 0x1EA7);
   (0x1EA8, 0x1EA9); (0x1EAA, 0x1EAB); (0x1EAC, 0x1EAD); (0x1EAE, 0x1EAF); (0x1EB0, 0x1EB1); (0x1EB2, 0x1EB3);
   (0x1EB4, 0x1EB5); (0x1EB6, 0x1EB7); (0x1EB8, 0x1EB9); (0x1EBA, 0x1EBB); (0x1EBC, 0x1EBD); (0x1EBE, 0x1EBF);
   (0x1EC0, 0x1EC1); (0x1EC2, 0x1EC3); (0x1EC4, 0x1EC5); (0x1EC6, 0x1EC7); (0x1EC8, 0x1EC9); (0x1ECA, 0x1ECB);
   (0x1ECC, 0x1ECD); (0x1ECE, 0x1ECF); (0x1ED0, 0x1ED1); (0x1ED2, 0x1ED3); (0x1ED4, 0x1ED5); (0x1ED6, 0x1ED7);
   (0x1ED8, 0x1ED9); (0x1EDA, 0x1EDB); (0x1EDC, 0x1EDD); (0x1EDE, 0x1EDF); (0x1EE0, 0x1EE1); (0x1EE2, 0x1EE3);
   (0x1EE4, 0x1EE5); (0x1EE6, 0x1EE7); (0x1EE8, 0x1EE9); (0x1EEA, 0x1EEB); (0x1EEC, 0x1EED); (0x1EEE, 0x1EEF);
   (0x1EF0, 0x1EF1); (0x1EF2, 0x1EF3); (0x1EF4, 0x1EF5); (0x1EF6, 0x1EF7); (0x1EF8, 0x1EF9); (0x1EFA, 0x1EFB);
   (0x1EFC, 0x1EFD); (0x1EFE, 0x1EFF); (0x1F08, 0x1F00); (0x1F09, 0x1F01); (0x1F0A, 0x1F02); (0x1F0B, 0x1F03);
   (0x1F0C, 0x1F04); (0x1F0D, 0x1F05); (0x1F0E, 0x1F06); (0x1F0F, 0x1F07); (0x1F18, 0x1F10); (0x1F19, 0x1F11);
   (0x1F1A, 0x1F12); (0x1F1B, 0x1F13); (0x1F1C, 0x1F14); (0x1F1D, 0x1F15); (0x1F28, 0x1F20); (0x1F29, 0x1F21);
   (0x1F2A, 0x1F22); (0x1F2B, 0x1F23); (0x1F2C, 0x1F24); (0x1F2D, 0x1F25); (0x1F2E, 0x1F26); (0x1F2F, 0x1F27);
   (0x1F38, 0x1F30); (0x1F39, 0x1F31); (0x1F3A, 0x1F32); (0x1F3B, 0x1F33); (0x1F3C, 0x1F34); (0x1F3D, 0x1F35);
   (0x1F3E, 0x1F36); (0x1F3F, 0x1F37); (0x1F48, 0x1F40); (0x1F49, 0x1F41); (0x1F4A, 0x1F42); (0x1F4B, 0x1F43);
   (0x1F4C, 0x1F44); (0x1F4D, 0x1F45); (0x1F59, 0x1F51); (0x1F5B, 0x1F53); (0x1F5D, 0x1F55); (0x1F5F, 0x1F57);
   (0x1F68, 0x1F60); (0x1F69, 0x1F61); (0x1F6A, 0x1F62); (0x1F6B, 0x1F63); (0x1F6C, 0x1F64); (0x1F6D, 0x1F65);
   (0x1F6E, 0x1F66); (0x1F6F, 0x1F67); (0x1F88, 0x1F80); (0x1F89, 0x1F81); (0x1F8A, 0x1F82); (0x1F8B, 0x1F83);
   (0x1F8C, 0x1F84); (0x1F8D, 0x1F85); (0x1F8E, 0x1F86); (0x1F8F, 0x1F87); (0x1F98, 0x1F90); (0x1F99, 0x1F91);
   (0x1F9A, 0x1F92); (0x1F9B, 0x1F93); (0x1F9C, 0x1F94); (0x1F9D, 0x1F95); (0x1F9E, 0x1F96); (0x1F9F, 0x1F97);
   (0x1FA8, 0x1FA0); (0x1FA9, 0x1FA1); (0x1FAA, 0x1FA2); (0x1FAB, 0x1FA3); (0x1FAC, 0x1FA4); (0x1FAD, 0x1FA5);
   (0x1FAE, 0x1FA6); (0x1FAF, 0x1FA7); (0x1FB8, 0x1FB0); (0x1FB9, 0x1FB1); (0x1FBA, 0x1F70); (0x1FBB, 0x1F71);
   (0x1FBC, 0x1FB3); (0x1FC8, 0x1F72); (0x1FC9, 0x1F73); (0x1FCA, 0x1F74); (0x1FCB, 0x1F75); (0x1FCC, 0x1FC3);
   (0x1FD8, 0x1FD0); (0x1FD9, 0x1FD1); (0x1FDA, 0x1F76); (0x1FDB, 0x1F77); (0x1FE8, 0x1FE0); (0x1FE9, 0x1FE1);
   (0x1FEA, 0x1F7A); (0x1FEB, 0x1F7B); (0x1FEC, 0x1FE5); (0x1FF8, 0x1F78); (0x1FF9, 0x1F79); (0x1FFA, 0x1F7C);
   (0x1FFB, 0x1F7D); (0x1FFC, 0x1FF3); (0x2126, 0x3C9); (0x212A, 0x6B); (0x212B, 0xE5); (0x2132, 0x214E);
   (0x2160, 0x2170); (0x2161, 0x2171); (0x2162, 0x2172); (0x2163, 0x2173); (0x2164, 0x2174); (0x2165, 0x2175);
   (0x2166, 0x2176); (0x2167, 0x2177); (0x2168, 0x2178); (0x2169, 0x2179); (0x216A, 0x217A); (0x216B, 0x217B);
   (0x216C, 0x217C); (0x216D, 0x217D); (0x216E, 0x217E); (0x216F, 0x217F); (0x2183, 0x2184); (0x24B6, 0x24D0);
   (0x24B7, 0x24D1); (0x24B8, 0x24D2); (0x24B9, 0x24D3); (0x24BA, 0x24D4); (0x24BB, 0x24D5); (0x24BC, 0x24D6);
   (0x24BD, 0x24D7); (0x24BE, 0x24D8); (0x24BF, 0x24D9); (0x24C0, 0x24DA); (0x24C1, 0x24DB); (0x24C2, 0x24DC);
   (0x24C3, 0x24DD); (0x24C4, 0x24DE); (0x24C5, 0x24DF); (0x24C6, 0x24E0); (0x24C7, 0x24E1); (0x24C8, 0x24E2);
   (0x24C9, 0x24E3); (0x24CA, 0x24E4); (0x24CB, 0x24E5); (0x24CC, 0x24E6); (0x24CD, 0x24E7); (0x24CE, 0x24E8);
   (0x24CF, 0x24E9); (0x2C00, 0x2C30); (0x2C01, 0x2C31); (0x2C02, 0x2C32); (0x2C03, 0x2C33); (0x2C04, 0x2C34);
   (0x2C05, 0x2C35); (0x2C06, 0x2C36); (0x2C07, 0x2C37); (0x2C08, 0x2C38); (0x2C09, 0x2C39); (0x2C0A, 0x2C3A);
   (0x2C0B, 0x2C3B); (0x2C0C, 0x2C3C); (0x2C0D, 0x2C3D); (0x2C0E, 0x2C3E); (0x2C0F, 0x2C3F); (0x2C10, 0x2C40);
   (0x2C11, 0x2C41); (0x2C12, 0x2C42); (0x2C13, 0x2C43); (0x2C14, 0x2C44); (0x2C15, 0x2C45); (0x2C16, 0x2C46);
   (0x2C17, 0x2C47); (0x2C18, 0x2C48); (0x2C19, 0x2C49); (0x2C1A, 0x2C4A); (0x2C1B, 0x2C4B); (0x2C1C, 0x2C4C);
   (0x2C1D, 0x2C4D); (0x2C1E, 0x2C4E); (0x2C1F, 0x2C4F); (0x2C20, 0x2C50); (0x2C21, 0x2C51); (0x2C22, 0x2C52);
   (0x2C23, 0x2C53); (0x2C24, 0x2C54); (0x2C25, 0x2C55); (0x2C26, 0x2C56); (0x2C27, 0x2C57); (0x2C28, 0x2C58);
   (0x2C29, 0x2C59); (0x2C2A, 0x2C5A); (0x2C2B, 0x2C5B); (0x2C2C, 0x2C5C); (0x2C2D, 0x2C5D); (0x2C2E, 0x2C5E);
   (0x2C2F, 0x2C5F); (0x2C60, 0x2C61); (0x2C62, 0x26B); (0x2C63, 0x1D7D); (0x2C64, 0x27D); (0x2C67, 0x2C68);
   (0x2C69, 0x2C6A); (0x2C6B, 0x2C6C); (0x2C6D, 0x251); (0x2C6E, 0x271); (0x2C6F, 0x250); (0x2C70, 0x252);
   (0x2C72, 0x2C73); (0x2C75, 0x2C76); (0x2C7E, 0x23F); (0x2C7F, 0x240); (0x2C80, 0x2C81); (0x2C82, 0x2C83);
   (0x2C84, 0x2C85); (0x2C86, 0x2C87); (0x2C88, 0x2C89); (0x2C8A, 0x2C8B); (0x2C8C, 0x2C8D); (0x2C8E, 0x2C8F);
   (0x2C90, 0x2C91); (0x2C92, 0x2C93); (0x2C94, 0x2C95); (0x2C96, 0x2C97); (0x2C98, 0x2C99); (0x2C9A, 0x2C9B);
   (0x2C9C, 0x2C9D); (0x2C9E, 0x2C9F); (0x2CA0, 0x2CA1); (0x2CA2, 0x2CA3); (0x2CA4, 0x2CA5); (0x2CA6, 0x2CA7);
   (0x2CA8, 0x2CA9); (0x2CAA, 0x2CAB); (0x2CAC, 0x2CAD); (0x2CAE, 0x2CAF); (0x2CB0, 0x2CB1); (0x2CB2, 0x2CB3);
   (0x2CB4, 0x2CB5); (0x2CB6, 0x2CB7); (0x2CB8, 0x2CB9); (0x2CBA, 0x2CBB); (0x2CBC, 0x2CBD); (0x2CBE, 0x2CBF);
   (0x2CC0, 0x2CC1); (0x2CC2, 0x2CC3); (0x2CC4, 0x2CC5); (0x2CC6, 0x2CC7); (0x2CC8, 0x2CC9); (0x2CCA, 0x2CCB);
   (0x2CCC, 0x2CCD); (0x2CCE, 0x2CCF); (0x2CD0, 0x2CD1); (0x2CD2, 0x2CD3); (0x2CD4, 0x2CD5); (0x2CD6, 0x2CD7);
   (0x2CD8, 0x2CD9); (0x2CDA, 0x2CDB); (0x2CDC, 0x2CDD); (0x2CDE, 0x2CDF); (0x2CE0, 0x2CE1); (0x2CE2, 0x2CE3);
   (0x2CEB, 0x2CEC); (0x2CED, 0x2CEE); (0x2CF2, 0x2CF3); (0xA640, 0xA641); (0xA642, 0xA643); (0xA644, 0xA645);
   (0xA646, 0xA647); (0xA648, 0xA649); (0xA64A, 0xA64B); (0xA64C, 0xA64D); (0xA64E, 0xA64F); (0xA650, 0xA651);
   (0xA652, 0xA653); (0xA654, 0xA655); (0xA656, 0xA657); (0xA658, 0xA659); (0xA65A, 0xA65B); (0xA65C, 0xA65D);
   (0xA65E, 0xA65F); (0xA660, 0xA661); (0xA662, 0xA663); (0xA664, 0xA665); (0xA666, 0xA667); (0xA668, 0xA669);
   (0xA66A, 0xA66B); (0xA66C, 0xA66D); (0xA680, 0xA681); (0xA682, 0xA683); (0xA684, 0xA685); (0xA686, 0xA687);
   (0xA688, 0xA689); (0xA68A, 0xA68B); (0xA68C, 0xA68D); (0xA68E, 0xA68F); (0xA690, 0xA691); (0xA692, 0xA693);
   (0xA694, 0xA695); (0xA696, 0xA697); (0xA698, 0xA699); (0xA69A, 0xA69B); (0xA722, 0xA723); (0xA724, 0xA725);
   (0xA726, 0xA727); (0xA728, 0xA729); (0xA72A, 0xA72B); (0xA72C, 0xA72D); (0xA72E, 0xA72F); (0xA732, 0xA733);
   (0xA734, 0xA735); (0xA736, 0xA737); (0xA738, 0xA739); (0xA73A, 0xA73B); (0xA73C, 0xA73D); (0xA73E, 0xA73F);
   (0xA740, 0xA741); (0xA742, 0xA743); (0xA744, 0xA745); (0xA746, 0xA747); (0xA748, 0xA749); (0xA74A, 0xA74B);
   (0xA74C, 0xA74D); (0xA74E, 0xA74F); (0xA750, 0xA751); (0xA752, 0xA753); (0xA754, 0xA755); (0xA756, 0xA757);
   (0xA758, 0xA759); (0xA75A, 0xA75B); (0xA75C, 0xA75D); (0xA75E, 0xA75F); (0xA760, 0xA761); (0xA762, 0xA763);
   (0xA764, 0xA765); (0xA766, 0xA767); (0xA768, 0xA769); (0xA76A, 0xA76B); (0xA76C, 0xA76D); (0xA76E, 0xA76F);
   (0xA779, 0xA77A); (0xA77B, 0xA77C); (0xA77D, 0x1D79); (0xA77E, 0xA77F); (0xA780, 0xA781); (0xA782, 0xA783);
   (0xA784, 0xA785); (0xA786, 0xA787); (0xA78B, 0xA78C); (0xA78D, 0x265); (0xA790, 0xA791); (0xA792, 0xA793);
   (0xA796, 0xA797); (0xA798, 0xA799); (0xA79A, 0xA79B); (0xA79C, 0xA79D); (0xA79E, 0xA79F); (0xA7A0, 0xA7A1);
   (0xA7A2, 0xA7A3); (0xA7A4, 0xA7A5); (0xA7A6, 0xA7A7); (0xA7A8, 0xA7A9); (0xA7AA, 0x266); (0xA7AB, 0x25C);
   (0xA7AC, 0x261); (0xA7AD, 0x26C); (0xA7AE, 0x26A); (0xA7B0, 0x29E); (0xA7B1, 0x287); (0xA7B2, 0x29D);
   (0xA7B3, 0xAB53); (0xA7B4, 0xA7B5); (0xA7B6, 0xA7B7); (0xA7B8, 0xA7B9); (0xA7BA, 0xA7BB); (0xA7BC, 0xA7BD);
   (0xA7BE, 0xA7BF); (0xA7C0, 0xA7C1); (0xA7C2, 0xA7C3); (0xA7C4, 0xA794); (0xA7C5, 0x282); (0xA7C6, 0x1D8E);
   (0xA7C7, 0xA7C8); (0xA7C9, 0xA7CA); (0xA7D0, 0xA7D1); (0xA7D6, 0xA7D7); (0xA7D8, 0xA7D9); (0xA7F5, 0xA7F6);
   (0xFF21, 0xFF41); (0xFF22, 0xFF42); (0xFF23, 0xFF43); (0xFF24, 0xFF44); (0xFF25, 0xFF45); (0xFF26, 0xFF46);
   (0xFF27, 0xFF47); (0xFF28, 0xFF48); (0xFF29, 0xFF49); (0xFF2A, 0xFF4A); (0xFF2B, 0xFF4B); (0xFF2C, 0xFF4C);
   (0xFF2D, 0xFF4D); (0xFF2E, 0xFF4E); (0xFF2F, 0xFF4F); (0xFF30, 0xFF50); (0xFF31, 0xFF51); (0xFF32, 0xFF52);
   (0xFF33, 0xFF53); (0xFF34, 0xFF54); (0xFF35, 0xFF55); (0xFF36, 0xFF56); (0xFF37, 0xFF57); (0xFF38, 0xFF58);
   (0xFF39, 0xFF59); (0xFF3A, 0xFF5A); (0x10400, 0x10428); (0x10401, 0x10429); (0x10402, 0x1042A); (0x10403, 0x1042B);
   (0x10404, 0x1042C); (0x10405, 0x1042D); (0x10406, 0x1042E); (0x10407, 0x1042F); (0x10408, 0x10430); (0x10409, 0x10431);
   (0x1040A, 0x10432); (0x1040B, 0x10433); (0x1040C, 0x10434); (0x1040D, 0x10435); (0x1040E, 0x10436); (0x1040F, 0x10437);
   (0x10410, 0x10438); (0x10411, 0x10439); (0x10412, 0x1043A); (0x10413, 0x1043B); (0x10414, 0x1043C); (0x10415, 0x1043D);
   (0x10416, 0x1043E); (0x10417, 0x1043F); (0x10418, 0x10440); (0x10419, 0x10441); (0x1041A, 0x10442); (0x1041B, 0x10443);
   (0x1041C, 0x10444); (0x1041D, 0x10445); (0x1041E, 0x10446); (0x1041F, 0x10447); (0x10420, 0x10448); (0x10421, 0x10449);
   (0x10422, 0x1044A); (0x10423, 0x1044B); (0x10424, 0x1044C); (0x10425, 0x1044D); (0x10426, 0x1044E); (0x10427, 0x1044F);
   (0x104B0, 0x104D8); (0x104B1, 0x104D9); (0x104B2, 0x104DA); (0x104B3, 0x104DB); (0x104B4, 0x104DC); (0x104B5, 0x104DD);
   (0x104B6, 0x104DE); (0x104B7, 0x104DF); (0x104B8, 0x104E0); (0x104B9, 0x104E1); (0x104BA, 0x104E2); (0x104BB, 0x104E3);
   (0x104BC, 0x104E4); (0x104BD, 0x104E5); (0x104BE, 0x104E6); (0x104BF, 0x104E7); (0x104C0, 0x104E8); (0x104C1, 0x104E9);
   (0x104C2, 0x104EA); (0x104C3, 0x104EB); (0x104C4, 0x104EC); (0x104C5, 0x104ED); (0x104C6, 0x104EE); (0x104C7, 0x104EF);
   (0x104C8, 0x104F0); (0x104C9, 0x104F1); (0x104CA, 0x104F2); (0x104CB, 0x104F3); (0x104CC, 0x104F4); (0x104CD, 0x104F5);
   (0x104CE, 0x104F6); (0x104CF, 0x104F7); (0x104D0, 0x104F8); (0x104D1, 0x104F9); (0x104D2, 0x104FA); (0x104D3, 0x104FB);
   (0x10570, 0x10597); (0x10571, 0x10598); (0x10572, 0x10599); (0x10573, 0x1059A); (0x10574, 0x1059B); (0x10575, 0x1059C);
   (0x10576, 0x1059D); (0x10577, 0x1059E); (0x10578, 0x1059F); (0x10579, 0x105A0); (0x1057A, 0x105A1); (0x1057C, 0x105A3);
   (0x1057D, 0x105A4); (0x1057E, 0x105A5); (0x1057F, 0x105A6); (0x10580, 0x105A7); (0x10581, 0x105A8); (0x10582, 0x105A9);
   (0x10583, 0x105AA); (0x10584, 0x105AB); (0x10585, 0x105AC); (0x10586, 0x105AD); (0x10587, 0x105AE); (0x10588, 0x105AF);
   (0x10589, 0x105B0); (0x1058A, 0x105B1); (0x1058C, 0x105B3); (0x1058D, 0x105B4); (0x1058E, 0x105B5); (0x1058F, 0x105B6);
   (0x10590, 0x105B7); (0x10591, 0x105B8); (0x10592, 0x105B9); (0x10594, 0x105BB); (0x10595, 0x105BC); (0x10C80, 0x10CC0);
   (0x10C81, 0x10CC1); (0x10C82, 0x10CC2); (0x10C83, 0x10CC3); (0x10C84, 0x10CC4); (0x10C85, 0x10CC5); (0x10C86, 0x10CC6);
   (0x10C87, 0x10CC7); (0x10C88, 0x10CC8); (0x10C89, 0x10CC9); (0x10C8A, 0x10CCA); (0x10C8B, 0x10CCB); (0x10C8C, 0x10CCC);
   (0x10C8D, 0x10CCD); (0x10C8E, 0x10CCE); (0x10C8F, 0x10CCF); (0x10C90, 0x10CD0); (0x10C91, 0x10CD1); (0x10C92, 0x10CD2);
   (0x10C93, 0x10CD3); (0x10C94, 0x10CD4); (0x10C95, 0x10CD5); (0x10C96, 0x10CD6); (0x10C97, 0x10CD7); (0x10C98, 0x10CD8);
   (0x10C99, 0x10CD9); (0x10C9A, 0x10CDA); (0x10C9B, 0x10CDB); (0x10C9C, 0x10CDC); (0x10C9D, 0x10CDD); (0x10C9E, 0x10CDE);
   (0x10C9F, 0x10CDF); (0x10CA0, 0x10CE0); (0x10CA1, 0x10CE1); (0x10CA2, 0x10CE2); (0x10CA3, 0x10CE3); (0x10CA4, 0x10CE4);
   (0x10CA5, 0x10CE5); (0x10CA6, 0x10CE6); (0x10CA7, 0x10CE7); (0x10CA8, 0x10CE8); (0x10CA9, 0x10CE9); (0x10CAA, 0x10CEA);
   (0x10CAB, 0x10CEB); (0x10CAC, 0x10CEC); (0x10CAD, 0x10CED); (0x10CAE, 0x10CEE); (0x10CAF, 0x10CEF); (0x10CB0, 0x10CF0);
   (0x10CB1, 0x10CF1); (0x10CB2, 0x10CF2); (0x118A0, 0x118C0); (0x118A1, 0x118C1); (0x118A2, 0x118C2); (0x118A3, 0x118C3);
   (0x118A4, 0x118C4); (0x118A5, 0x118C5); (0x118A6, 0x118C6); (0x118A7, 0x118C7); (0x118A8, 0x118C8); (0x118A9, 0x118C9);
   (0x118AA, 0x118CA); (0x118AB, 0x118CB); (0x118AC, 0x118CC); (0x118AD, 0x118CD); (0x118AE, 0x118CE); (0x118AF, 0x118CF);
   (0x118B0, 0x118D0); (0x118B1, 0x118D1); (0x118B2, 0x118D2); (0x118B3, 0x118D3); (0x118B4, 0x118D4); (0x118B5, 0x118D5);
   (0x118B6, 0x118D6); (0x118B7, 0x118D7); (0x118B8, 0x118D8); (0x118B9, 0x118D9); (0x118BA, 0x118DA); (0x118BB, 0x118DB);
   (0x118BC, 0x118DC); (0x118BD, 0x118DD); (0x118BE, 0x118DE); (0x118BF, 0x118DF); (0x16E40, 0x16E60); (0x16E41, 0x16E61);
   (0x16E42, 0x16E62); (0x16E43, 0x16E63); (0x16E44, 0x16E64); (0x16E45, 0x16E65); (0x16E46, 0x16E66); (0x16E47, 0x16E67);
   (0x16E48, 0x16E68); (0x16E49, 0x16E69); (0x16E4A, 0x16E6A); (0x16E4B, 0x16E6B); (0x16E4C, 0x16E6C); (0x16E4D, 0x16E6D);
   (0x16E4E, 0x16E6E); (0x16E4F, 0x16E6F); (0x16E50, 0x16E70); (0x16E51, 0x16E71); (0x16E52, 0x16E72); (0x16E53, 0x16E73);
   (0x16E54, 0x16E74); (0x16E55, 0x16E75); (0x16E56, 0x16E76); (0x16E57, 0x16E77); (0x16E58, 0x16E78); (0x16E59, 0x16E79);
   (0x16E5A, 0x16E7A); (0x16E5B, 0x16E7B); (0x16E5C, 0x16E7C); (0x16E5D, 0x16E7D); (0x16E5E, 0x16E7E); (0x16E5F, 0x16E7F);
   (0x1E900, 0x1E922); (0x1E901, 0x1E923); (0x1E902, 0x1E924); (0x1E903, 0x1E925); (0x1E904, 0x1E926); (0x1E905, 0x1E927);
   (0x1E906, 0x1E928); (0x1E907, 0x1E929); (0x1E908, 0x1E92A); (0x1E909, 0x1E92B); (0x1E90A, 0x1E92C); (0x1E90B, 0x1E92D);
   (0x1E90C, 0x1E92E); (0x1E90D, 0x1E92F); (0x1E90E, 0x1E930); (0x1E90F, 0x1E931); (0x1E910, 0x1E932); (0x1E911, 0x1E933);
   (0x1E912, 0x1E934); (0x1E913, 0x1E935); (0x1E914, 0x1E936); (0x1E915, 0x1E937); (0x1E916, 0x1E938); (0x1E917, 0x1E939);
   (0x1E918, 0x1E93A); (0x1E919, 0x1E93B); (0x1E91A, 0x1E93C); (0x1E91B, 0x1E93D); (0x1E91C, 0x1E93E); (0x1E91D, 0x1E93F);
   (0x1E91E, 0x1E940); (0x1E91F, 0x1E941); (0x1E920, 0x1E942); (0x1E921, 0x1E943)
  ]%N.

(** The property Cased, as ranges of code points. *)
Definition cased_ranges : list (N * N) :=
  [
   (0x41, 0x5A); (0x61, 0x7A); (0xAA, 0xAA); (0xB5, 0xB5); (0xBA, 0xBA); (0xC0, 0xD6);
   (0xD8, 0xF6); (0xF8, 0x1BA); (0x1BC, 0x1BF); (0x1C4, 0x293); (0x295, 0x2B8); (0x2C0, 0x2C1);
   (0x2E0, 0x2E4); (0x345, 0x345); (0x370, 0x373); (0x376, 0x377); (0x37A, 0x37D); (0x37F, 0x37F);
   (0x386, 0x386); (0x388, 0x38A); (0x38C, 0x38C); (0x38E, 0x3A1); (0x3A3, 0x3F5); (0x3F7, 0x481);
   (0x48A, 0x52F); (0x531, 0x556); (0x560, 0x588); (0x10A0, 0x10C5); (0x10C7, 0x10C7); (0x10CD, 0x10CD);
   (0x10D0, 0x10FA); (0x10FD, 0x10FF); (0x13A0, 0x13F5); (0x13F8, 0x13FD); (0x1C80, 0x1C88); (0x1C90, 0x1CBA);
   (0x1CBD, 0x1CBF); (0x1D00, 0x1DBF); (0x1E00, 0x1F15); (0x1F18, 0x1F1D); (0x1F20, 0x1F45); (0x1F48, 0x1F4D);
   (0x1F50, 0x1F57); (0x1F59, 0x1F59); (0x1F5B, 0x1F5B); (0x1F5D, 0x1F5D); (0x1F5F, 0x1F7D); (0x1F80, 0x1FB4);
   (0x1FB6, 0x1FBC); (0x1FBE, 0x1FBE); (0x1FC2, 0x1FC4); (0x1FC6, 0x1FCC); (0x1FD0, 0x1FD3); (0x1FD6, 0x1FDB);
   (0x1FE0, 0x1FEC); (0x1FF2, 0x1FF4); (0x1FF6, 0x1FFC); (0x2071, 0x2071); (0x207F, 0x207F); (0x2090, 0x209C);
   (0x2102, 0x2102); (0x2107, 0x2107); (0x210A, 0x2113); (0x2115, 0x2115); (0x2119, 0x211D); (0x2124, 0x2124);
   (0x2126, 0x2126); (0x2128, 0x2128); (0x212A, 0x212D); (0x212F, 0x2134); (0x2139, 0x2139); (0x213C, 0x213F);
   (0x2145, 0x2149); (0x214E, 0x214E); (0x2160, 0x217F); (0x2183, 0x2184); (0x24B6, 0x24E9); (0x2C00, 0x2CE4);
   (0x2CEB, 0x2CEE); (0x2CF2, 0x2CF3); (0x2D00, 0x2D25); (0x2D27, 0x2D27); (0x2D2D, 0x2D2D); (0xA640, 0xA66D);
   (0xA680, 0xA69D); (0xA722, 0xA787); (0xA78B, 0xA78E); (0xA790, 0xA7CA); (0xA7D0, 0xA7D1); (0xA7D3, 0xA7D3);
   (0xA7D5, 0xA7D9); (0xA7F5, 0xA7F6); (0xA7F8, 0xA7FA); (0xAB30, 0xAB5A); (0xAB5C, 0xAB68); (0xAB70, 0xABBF);
   (0xFB00, 0xFB06); (0xFB13, 0xFB17); (0xFF21, 0xFF3A); (0xFF41, 0xFF5A); (0x10400, 0x1044F); (0x104B0, 0x104D3);
   (0x104D8, 0x104FB); (0x10570, 0x1057A); (0x1057C, 0x1058A); (0x1058C, 0x10592); (0x10594, 0x10595); (0x10597, 0x105A1);
   (0x105A3, 0x105B1); (0x105B3, 0x105B9); (0x105BB, 0x105BC); (0x10780, 0x10780); (0x10783, 0x10785); (0x10787, 0x107B0);
   (0x107B2, 0x107BA); (0x10C80, 0x10CB2); (0x10CC0, 0x10CF2); (0x118A0, 0x118DF); (0x16E40, 0x16E7F); (0x1D400, 0x1D454);
   (0x1D456, 0x1D49C); (0x1D49E, 0x1D49F); (0x1D4A2, 0x1D4A2); (0x1D4A5, 0x1D4A6); (0x1D4A9, 0x1D4AC); (0x1D4AE, 0x1D4B9);
   (0x1D4BB, 0x1D4BB); (0x1D4BD, 0x1D4C3); (0x1D4C5, 0x1D505); (0x1D507, 0x1D50A); (0x1D50D, 0x1D514); (0x1D516, 0x1D51C);
   (0x1D51E, 0x1D539); (0x1D53B, 0x1D53E); (0x1D540, 0x1D544); (0x1D546, 0x1D546); (0x1D54A, 0x1D550); (0x1D552, 0x1D6A5);
   (0x1D6A8, 0x1D6C0); (0x1D6C2, 0x1D6DA); (0x1D6DC, 0x1D6FA); (0x1D6FC, 0x1D714); (0x1D716, 0x1D734); (0x1D736, 0x1D74E);
   (0x1D750, 0x1D76E); (0x1D770, 0x1D788); (0x1D78A, 0x1D7A8); (0x1D7AA, 0x1D7C2); (0x1D7C4, 0x1D7CB); (0x1DF00, 0x1DF09);
   (0x1DF0B, 0x1DF1E); (0x1E900, 0x1E943); (0x1F130, 0x1F149); (0x1F150, 0x1F169); (0x1F170, 0x1F189)
  ]%N.

(** The property Case_Ignorable, as ranges of code points. *)
Definition case_ignorable_ranges : list (N * N) :=
  [
   (0x27, 0x27); (0x2E, 0x2E); (0x3A, 0x3A); (0x5E, 0x5E); (0x60, 0x60); (0xA8, 0xA8);
   (0xAD, 0xAD); (0xAF, 0xAF); (0xB4, 0xB4); (0xB7, 0xB8); (0x2B0, 0x36F); (0x374, 0x375);
   (0x37A, 0x37A); (0x384, 0x385); (0x387, 0x387); (0x483, 0x489); (0x559, 0x559); (0x55F, 0x55F);
   (0x591, 0x5BD); (0x5BF, 0x5BF); (0x5C1, 0x5C2); (0x5C4, 0x5C5); (0x5C7, 0x5C7); (0x5F4, 0x5F4);
   (0x600, 0x605); (0x610, 0x61A); (0x61C, 0x61C); (0x640, 0x640); (0x64B, 0x65F); (0x670, 0x670);
   (0x6D6, 0x6DD); (0x6DF, 0x6E8); (0x6EA, 0x6ED); (0x70F, 0x70F); (0x711, 0x711); (0x730, 0x74A);
   (0x7A6, 0x7B0); (0x7EB, 0x7F5); (0x7FA, 0x7FA); (0x7FD, 0x7FD); (0x816, 0x82D); (0x859, 0x85B);
   (0x888, 0x888); (0x890, 0x891); (0x898, 0x89F); (0x8C9, 0x902); (0x93A, 0x93A); (0x93C, 0x93C);
   (0x941, 0x948); (0x94D, 0x94D); (0x951, 0x957); (0x962, 0x963); (0x971, 0x971); (0x981, 0x981);
   (0x9BC, 0x9BC); (0x9C1, 0x9C4); (0x9CD, 0x9CD); (0x9E2, 0x9E3); (0x9FE, 0x9FE); (0xA01, 0xA02);
   (0xA3C, 0xA3C); (0xA41, 0xA42); (0xA47, 0xA48); (0xA4B, 0xA4D); (0xA51, 0xA51); (0xA70, 0xA71);
   (0xA75, 0xA75); (0xA81, 0xA82); (0xABC, 0xABC); (0xAC1, 0xAC5); (0xAC7, 0xAC8); (0xACD, 0xACD);
   (0xAE2, 0xAE3); (0xAFA, 0xAFF); (0xB01, 0xB01); (0xB3C, 0xB3C); (0xB3F, 0xB3F); (0xB41, 0xB44);
   (0xB4D, 0xB4D); (0xB55, 0xB56); (0xB62, 0xB63); (0xB82, 0xB82); (0xBC0, 0xBC0); (0xBCD, 0xBCD);
   (0xC00, 0xC00); (0xC04, 0xC04); (0xC3C, 0xC3C); (0xC3E, 0xC40); (0xC46, 0xC48); (0xC4A, 0xC4D);
   (0xC55, 0xC56); (0xC62, 0xC63); (0xC81, 0xC81); (0xCBC, 0xCBC); (0xCBF, 0xCBF); (0xCC6, 0xCC6);
   (0xCCC, 0xCCD); (0xCE2, 0xCE3); (0xD00, 0xD01); (0xD3B, 0xD3C); (0xD41, 0xD44); (0xD4D, 0xD4D);
   (0xD62, 0xD63); (0xD81, 0xD81); (0xDCA, 0xDCA); (0xDD2, 0xDD4); (0xDD6, 0xDD6); (0xE31, 0xE31);
   (0xE34, 0xE3A); (0xE46, 0xE4E); (0xEB1, 0xEB1); (0xEB4, 0xEBC); (0xEC6, 0xEC6); (0xEC8, 0xECD);
   (0xF18, 0xF19); (0xF35, 0xF35); (0xF37, 0xF37); (0xF39, 0xF39); (0xF71, 0xF7E); (0xF80, 0xF84);
   (0xF86, 0xF87); (0xF8D, 0xF97); (0xF99, 0xFBC); (0xFC6, 0xFC6); (0x102D, 0x1030); (0x1032, 0x1037);
   (0x1039, 0x103A); (0x103D, 0x103E); (0x1058, 0x1059); (0x105E, 0x1060); (0x1071, 0x1074); (0x1082, 0x1082);
   (0x1085, 0x1086); (0x108D, 0x108D); (0x109D, 0x109D); (0x10FC, 0x10FC); (0x135D, 0x135F); (0x1712, 0x1714);
   (0x1732, 0x1733); (0x1752, 0x1753); (0x1772, 0x1773); (0x17B4, 0x17B5); (0x17B7, 0x17BD); (0x17C6, 0x17C6);
   (0x17C9, 0x17D3); (0x17D7, 0x17D7); (0x17DD, 0x17DD); (0x180B, 0x180F); (0x1843, 0x1843); (0x1885, 0x1886);
   (0x18A9, 0x18A9); (0x1920, 0x1922); (0x1927, 0x1928); (0x1932, 0x1932); (0x1939, 0x193B); (0x1A17, 0x1A18);
   (0x1A1B, 0x1A1B); (0x1A56, 0x1A56); (0x1A58, 0x1A5E); (0x1A60, 0x1A60); (0x1A62, 0x1A62); (0x1A65, 0x1A6C);
   (0x1A73, 0x1A7C); (0x1A7F, 0x1A7F); (0x1AA7, 0x1AA7); (0x1AB0, 0x1ACE); (0x1B00, 0x1B03); (0x1B34, 0x1B34);
   (0x1B36, 0x1B3A); (0x1B3C, 0x1B3C); (0x1B42, 0x1B42); (0x1B6B, 0x1B73); (0x1B80, 0x1B81); (0x1BA2, 0x1BA5);
   (0x1BA8, 0x1BA9); (0x1BAB, 0x1BAD); (0x1BE6, 0x1BE6); (0x1BE8, 0x1BE9); (0x1BED, 0x1BED); (0x1BEF, 0x1BF1);
   (0x1C2C, 0x1C33); (0x1C36, 0x1C37); (0x1C78, 0x1C7D); (0x1CD0, 0x1CD2); (0x1CD4, 0x1CE0); (0x1CE2, 0x1CE8);
   (0x1CED, 0x1CED); (0x1CF4, 0x1CF4); (0x1CF8, 0x1CF9); (0x1D2C, 0x1D6A); (0x1D78, 0x1D78); (0x1D9B, 0x1DFF);
   (0x1FBD, 0x1FBD); (0x1FBF, 0x1FC1); (0x1FCD, 0x1FCF); (0x1FDD, 0x1FDF); (0x1FED, 0x1FEF); (0x1FFD, 0x1FFE);
   (0x200B, 0x200F); (0x2018, 0x2019); (0x2024, 0x2024); (0x2027, 0x2027); (0x202A, 0x202E); (0x2060, 0x2064);
   (0x2066, 0x206F); (0x2071, 0x2071); (0x207F, 0x207F); (0x2090, 0x209C); (0x20D0, 0x20F0); (0x2C7C, 0x2C7D);
   (0x2CEF, 0x2CF1); (0x2D6F, 0x2D6F); (0x2D7F, 0x2D7F); (0x2DE0, 0x2DFF); (0x2E2F, 0x2E2F); (0x3005, 0x3005);
   (0x302A, 0x302D); (0x3031, 0x3035); (0x303B, 0x303B); (0x3099, 0x309E); (0x30FC, 0x30FE); (0xA015, 0xA015);
   (0xA4F8, 0xA4FD); (0xA60C, 0xA60C); (0xA66F, 0xA672); (0xA674, 0xA67D); (0xA67F, 0xA67F); (0xA69C, 0xA69F);
   (0xA6F0, 0xA6F1); (0xA700, 0xA721); (0xA770, 0xA770); (0xA788, 0xA78A); (0xA7F2, 0xA7F4); (0xA7F8, 0xA7F9);
   (0xA802, 0xA802); (0xA806, 0xA806); (0xA80B, 0xA80B); (0xA825, 0xA826); (0xA82C, 0xA82C); (0xA8C4, 0xA8C5);
   (0xA8E0, 0xA8F1); (0xA8FF, 0xA8FF); (0xA926, 0xA92D); (0xA947, 0xA951); (0xA980, 0xA982); (0xA9B3, 0xA9B3);
   (0xA9B6, 0xA9B9); (0xA9BC, 0xA9BD); (0xA9CF, 0xA9CF); (0xA9E5, 0xA9E6); (0xAA29, 0xAA2E); (0xAA31, 0xAA32);
   (0xAA35, 0xAA36); (0xAA43, 0xAA43); (0xAA4C, 0xAA4C); (0xAA70, 0xAA70); (0xAA7C, 0xAA7C); (0xAAB0, 0xAAB0);
   (0xAAB2, 0xAAB4); (0xAAB7, 0xAAB8); (0xAABE, 0xAABF); (0xAAC1, 0xAAC1); (0xAADD, 0xAADD); (0xAAEC, 0xAAED);
   (0xAAF3, 0xAAF4); (0xAAF6, 0xAAF6); (0xAB5B, 0xAB5F); (0xAB69, 0xAB6B); (0xABE5, 0xABE5); (0xABE8, 0xABE8);
   (0xABED, 0xABED); (0xFB1E, 0xFB1E); (0xFBB2, 0xFBC2); (0xFE00, 0xFE0F); (0xFE13, 0xFE13); (0xFE20, 0xFE2F);
   (0xFE52, 0xFE52); (0xFE55, 0xFE55); (0xFEFF, 0xFEFF); (0xFF07, 0xFF07); (0xFF0E, 0xFF0E); (0xFF1A, 0xFF1A);
   (0xFF3E, 0xFF3E); (0xFF40, 0xFF40); (0xFF70, 0xFF70); (0xFF9E, 0xFF9F); (0xFFE3, 0xFFE3); (0xFFF9, 0xFFFB);
   (0x101FD, 0x101FD); (0x102E0, 0x102E0); (0x10376, 0x1037A); (0x10780, 0x10785); (0x10787, 0x107B0); (0x107B2, 0x107BA);
   (0x10A01, 0x10A03); (0x10A05, 0x10A06); (0x10A0C, 0x10A0F); (0x10A38, 0x10A3A); (0x10A3F, 0x10A3F); (0x10AE5, 0x10AE6);
   (0x10D24, 0x10D27); (0x10EAB, 0x10EAC); (0x10F46, 0x10F50); (0x10F82, 0x10F85); (0x11001, 0x11001); (0x11038, 0x11046);
   (0x11070, 0x11070); (0x11073, 0x11074); (0x1107F, 0x11081); (0x110B3, 0x110B6); (0x110B9, 0x110BA); (0x110BD, 0x110BD);
   (0x110C2, 0x110C2); (0x110CD, 0x110CD); (0x11100, 0x11102); (0x11127, 0x1112B); (0x1112D, 0x11134); (0x11173, 0x11173);
   (0x11180, 0x11181); (0x111B6, 0x111BE); (0x111C9, 0x111CC); (0x111CF, 0x111CF); (0x1122F, 0x11231); (0x11234, 0x11234);
   (0x11236, 0x11237); (0x1123E, 0x1123E); (0x112DF, 0x112DF); (0x112E3, 0x112EA); (0x11300, 0x11301); (0x1133B, 0x1133C);
   (0x11340, 0x11340); (0x11366, 0x1136C); (0x11370, 0x11374); (0x11438, 0x1143F); (0x11442, 0x11444); (0x11446, 0x11446);
   (0x1145E, 0x1145E); (0x114B3, 0x114B8); (0x114BA, 0x114BA); (0x114BF, 0x114C0); (0x114C2, 0x114C3); (0x115B2, 0x115B5);
   (0x115BC, 0x115BD); (0x115BF, 0x115C0); (0x115DC, 0x115DD); (0x11633, 0x1163A); (0x1163D, 0x1163D); (0x1163F, 0x11640);
   (0x116AB, 0x116AB); (0x116AD, 0x116AD); (0x116B0, 0x116B5); (0x116B7, 0x116B7); (0x1171D, 0x1171F); (0x11722, 0x11725);
   (0x11727, 0x1172B); (0x1182F, 0x11837); (0x11839, 0x1183A); (0x1193B, 0x1193C); (0x1193E, 0x1193E); (0x11943, 0x11943);
   (0x119D4, 0x119D7); (0x119DA, 0x119DB); (0x119E0, 0x119E0); (0x11A01, 0x11A0A); (0x11A33, 0x11A38); (0x11A3B, 0x11A3E);
   (0x11A47, 0x11A47); (0x11A51, 0x11A56); (0x11A59, 0x11A5B); (0x11A8A, 0x11A96); (0x11A98, 0x11A99); (0x11C30, 0x11C36);
   (0x11C38, 0x11C3D); (0x11C3F, 0x11C3F); (0x11C92, 0x11CA7); (0x11CAA, 0x11CB0); (0x11CB2, 0x11CB3); (0x11CB5, 0x11CB6);
   (0x11D31, 0x11D36); (0x11D3A, 0x11D3A); (0x11D3C, 0x11D3D); (0x11D3F, 0x11D45); (0x11D47, 0x11D47); (0x11D90, 0x11D91);
   (0x11D95, 0x11D95); (0x11D97, 0x11D97); (0x11EF3, 0x11EF4); (0x13430, 0x13438); (0x16AF0, 0x16AF4); (0x16B30, 0x16B36);
   (0x16B40, 0x16B43); (0x16F4F, 0x16F4F); (0x16F8F, 0x16F9F); (0x16FE0, 0x16FE1); (0x16FE3, 0x16FE4); (0x1AFF0, 0x1AFF3);
   (0x1AFF5, 0x1AFFB); (0x1AFFD, 0x1AFFE); (0x1BC9D, 0x1BC9E); (0x1BCA0, 0x1BCA3); (0x1CF00, 0x1CF2D); (0x1CF30, 0x1CF46);
   (0x1D167, 0x1D169); (0x1D173, 0x1D182); (0x1D185, 0x1D18B); (0x1D1AA, 0x1D1AD); (0x1D242, 0x1D244); (0x1DA00, 0x1DA36);
   (0x1DA3B, 0x1DA6C); (0x1DA75, 0x1DA75); (0x1DA84, 0x1DA84); (0x1DA9B, 0x1DA9F); (0x1DAA1, 0x1DAAF); (0x1E000, 0x1E006);
   (0x1E008, 0x1E018); (0x1E01B, 0x1E021); (0x1E023, 0x1E024); (0x1E026, 0x1E02A); (0x1E130, 0x1E13D); (0x1E2AE, 0x1E2AE);
   (0x1E2EC, 0x1E2EF); (0x1E8D0, 0x1E8D6); (0x1E944, 0x1E94B); (0x1F3FB, 0x1F3FF); (0xE0001, 0xE0001); (0xE0020, 0xE007F);
   (0xE0100, 0xE01EF)
  ]%N.

Definition is_cased (c : N) : bool := in_ranges c cased_ranges.

Definition is_case_ignorable (c : N) : bool := in_ranges c case_ignorable_ranges.

Definition capital_sigma : N := 0x3A3.
Definition small_sigma : N := 0x3C3.
Definition final_sigma : N := 0x3C2.

(** The lower-case mapping of one code point. *)
Definition to_lower_full (c : N) : ustr :=
  if (c =? 0x130)%N then [0x69; 0x307]%N
  else match lookup c lower_table with
       | Some d => [d]
       | None => [c]
       end.

Fixpoint skip_ignorable (s : ustr) : ustr :=
  match s with
  | [] => []
  | c :: rest => if is_case_ignorable c then skip_ignorable rest else s
  end.

(** The nearest code point that is not case-ignorable is cased. *)
Definition next_is_cased (s : ustr) : bool :=
  match skip_ignorable s with
  | [] => false
  | c :: _ => is_cased c
  end.

(** A capital sigma is final when a cased letter precedes it and none
    follows it, case-ignorable code points aside; [before] lists the code
    points before it, the nearest first. *)
Definition handle_capital_sigma (before after : ustr) : N :=
  if next_is_cased before && negb (next_is_cased after)
  then final_sigma else small_sigma.

Fixpoint do_lower (before s : ustr) : ustr :=
  match s with
  | [] => []
  | c :: rest =>
      (if (c =? capital_sigma)%N then [handle_capital_sigma before rest]
       else to_lower_full c)
        ++ do_lower (c :: before) rest
  end.

(** [s.lower()] *)
Definition str_lower (s : ustr) : ustr := do_lower [] s.

(** [s.replace(old, new)] for a one-character [old]. *)
Fixpoint str_replace (old : N) (new : ustr) (s : ustr) : ustr :=
  match s with
  | [] => []
  | c :: rest =>
      if (c =? old)%N then new ++ str_replace old new rest
      else c :: str_replace old new rest
  end.

Definition hyphen : N := 0x2D.
Definition period : N := 0x2E.
Definition comma : N := 0x2C.
Definition apostrophe : N := 0x27.
Definition space : N := 0x20.

(** [clean_name] on a [str] argument (app.py, lines 293-303). *)
Definition clean_name (name : ustr) : ustr :=
  str_replace apostrophe []
    (str_replace comma []
      (str_replace period []
        (str_replace hyphen [space]
          (str_lower name)))).

(** The normalizer as section 4.1 words it. *)
Definition lowercase (s : ustr) : ustr := str_lower s.

Definition hyphens_to_spaces (s : ustr) : ustr :=
  map (fun c => if (c =? hyphen)%N then space else c) s.

Definition remove (x : N) (s : ustr) : ustr :=
  filter (fun c => negb (c =? x)%N) s.

Definition normalize (s : ustr) : ustr :=
  remove apostrophe (remove comma (remove period (hyphens_to_spaces (lowercase s)))).

(** The code points of a text written with code points below 256. *)
Definition of_string (s : string) : ustr :=
  map N_of_ascii (list_ascii_of_string s).

(** [str.lower] leaves the code point as it is. *)
Definition is_stable (c : N) : bool :=
  match to_lower_full c with
  | [d] => (d =? c)%N
  | _ => false
  end.

Definition is_punctuation (c : N) : bool :=
  (c =? hyphen)%N || (c =? period)%N || (c =? comma)%N || (c =? apostrophe)%N.

(** A code point the normalizer leaves as it is. *)
Definition is_kept (c : N) : bool := is_stable c && negb (is_punctuation c).

(** A code point at which [str.lower] treats the two sides separately. *)
Definition is_boundary (c : N) : bool :=
  is_stable c && negb (is_cased c) && negb (is_case_ignorable c).

End Unicode.

(** * Properties *)

(** ** The error monad *)

Lemma bind_ok_inv {A B : Type} (m : result A) (k : A -> result B) (b : B) :
  bind m k = Ok b -> exists a, m = Ok a /\ k a = Ok b.
Proof.
  destruct m as [a|e]; simpl; intros H; [exists a; auto | discriminate].
Qed.

Ltac inv_bind H :=
  let a := fresh "a" in
  let Ha := fresh "Ha" in
  apply bind_ok_inv in H; destruct H as [a [Ha H]].

(** ** Name normalizer on code points *)

Section NormalizerOnCodePoints.

Import Unicode.
Local Open Scope N_scope.

Lemma lookup_in (c d : N) (t : list (N * N)) :
  lookup c t = Some d -> In (c, d) t.
Proof.
  induction t as [|[k v] t IH]; simpl; [discriminate|].
  destruct (k =? c) eqn:E.
  - intros H. inversion H. subst. apply N.eqb_eq in E. subst. now left.
  - intros H. right. now apply IH.
Qed.

(** Every lower-case mapping of the table is a code point [str.lower] leaves
    alone. *)
Lemma lower_table_stable :
  forallb (fun p => is_stable (snd p)) lower_table = true.
Proof. vm_compute. reflexivity. Qed.

Lemma to_lower_full_stable (c d : N) :
  In d (to_lower_full c) -> is_stable d = true.
Proof.
  unfold to_lower_full. destruct (c =? 0x130) eqn:I.
  - intros [<-|[<-|[]]]; vm_compute; reflexivity.
  - destruct (lookup c lower_table) as [e|] eqn:L; intros [<-|[]].
    + apply lookup_in in L. pose proof lower_table_stable as T.
      rewrite forallb_forall in T. exact (T _ L).
    + unfold is_stable, to_lower_full. rewrite I, L. apply N.eqb_refl.
Qed.

Lemma stable_to_lower (c : N) : is_stable c = true -> to_lower_full c = [c].
Proof.
  unfold is_stable. destruct (to_lower_full c) as [|d [|e r]]; try discriminate.
  intros H. apply N.eqb_eq in H. now subst.
Qed.

Lemma stable_not_sigma (c : N) :
  is_stable c = true -> (c =? capital_sigma) = false.
Proof.
  intros H. destruct (c =? capital_sigma) eqn:E; [|reflexivity].
  apply N.eqb_eq in E. subst. vm_compute in H. discriminate.
Qed.

Lemma sigma_forms_stable (before after : ustr) :
  is_stable (handle_capital_sigma before after) = true.
Proof.
  unfold handle_capital_sigma.
  destruct (next_is_cased before && negb (next_is_cased after));
    vm_compute; reflexivity.
Qed.

(** What [str.lower] returns holds only code points it leaves alone. *)
Lemma do_lower_output_stable (s before : ustr) :
  forallb is_stable (do_lower before s) = true.
Proof.
  revert before. induction s as [|c s IH]; intros before; simpl; [reflexivity|].
  rewrite forallb_app, IH, andb_true_r.
  destruct (c =? capital_sigma).
  - simpl. now rewrite sigma_forms_stable.
  - apply forallb_forall. intros d. apply to_lower_full_stable.
Qed.

Lemma do_lower_fixed (s before : ustr) :
  forallb is_stable s = true -> do_lower before s = s.
Proof.
  revert before. induction s as [|c s IH]; intros before H; simpl; [reflexivity|].
  simpl in H. apply andb_prop in H. destruct H as [C H].
  rewrite (stable_not_sigma c C), (stable_to_lower c C), (IH _ H). reflexivity.
Qed.

Lemma str_lower_idempotent (s : ustr) : str_lower (str_lower s) = str_lower s.
Proof. unfold str_lower. apply do_lower_fixed, do_lower_output_stable. Qed.

Lemma str_replace_one (old x : N) (s : ustr) :
  str_replace old [x] s = map (fun c => if c =? old then x else c) s.
Proof.
  induction s as [|c s IH]; simpl; [reflexivity|].
  rewrite IH. now destruct (c =? old).
Qed.

Lemma str_replace_none (old : N) (s : ustr) :
  str_replace old [] s = filter (fun c => negb (c =? old)) s.
Proof.
  induction s as [|c s IH]; simpl; [reflexivity|].
  rewrite IH. now destruct (c =? old).
Qed.

Lemma clean_name_normalize (s : ustr) : clean_name s = normalize s.
Proof.
  unfold clean_name, normalize, remove, hyphens_to_spaces, lowercase.
  now rewrite str_replace_one, !str_replace_none.
Qed.

Lemma in_remove (x c : N) (s : ustr) : In c (remove x s) <-> In c s /\ c <> x.
Proof.
  unfold remove. rewrite filter_In, negb_true_iff, N.eqb_neq. reflexivity.
Qed.

Lemma remove_absent (x : N) (s : ustr) : ~ In x s -> remove x s = s.
Proof.
  unfold remove. induction s as [|c s IH]; simpl; intros H; [reflexivity|].
  destruct (c =? x) eqn:E; simpl.
  - apply N.eqb_eq in E. subst. tauto.
  - rewrite IH; tauto.
Qed.

Lemma hyphens_to_spaces_absent (s : ustr) :
  ~ In hyphen s -> hyphens_to_spaces s = s.
Proof.
  unfold hyphens_to_spaces. induction s as [|c s IH]; simpl; intros H;
    [reflexivity|].
  destruct (c =? hyphen) eqn:E.
  - apply N.eqb_eq in E. subst. tauto.
  - rewrite IH; tauto.
Qed.

Lemma is_kept_spec (c : N) :
  is_kept c = true <->
  is_stable c = true /\ c <> hyphen /\ c <> period /\ c <> comma /\
  c <> apostrophe.
Proof.
  unfold is_kept, is_punctuation.
  rewrite andb_true_iff, negb_true_iff, !orb_false_iff, !N.eqb_neq. tauto.
Qed.

(** Every code point of a normalized name is one the normalizer leaves as it
    is. *)
Lemma clean_name_output_kept (s : ustr) : forallb is_kept (clean_name s) = true.
Proof.
  rewrite clean_name_normalize. apply forallb_forall. intros c H.
  unfold normalize in H. rewrite !in_remove in H.
  destruct H as [[[H Np] Nc] Na].
  unfold hyphens_to_spaces in H. apply in_map_iff in H.
  destruct H as [d [E Hd]]. apply is_kept_spec.
  destruct (d =? hyphen) eqn:D.
  - subst c. repeat split; vm_compute; congruence.
  - subst c. apply N.eqb_neq in D. repeat split; auto.
    pose proof (do_lower_output_stable s []) as S.
    rewrite forallb_forall in S. now apply S.
Qed.

(** A name made of such code points is left as it is. *)
Lemma clean_name_of_kept (s : ustr) :
  forallb is_kept s = true -> clean_name s = s.
Proof.
  intros H. rewrite forallb_forall in H.
  assert (K : forall c, In c s ->
                is_stable c = true /\ c <> hyphen /\ c <> period /\
                c <> comma /\ c <> apostrophe).
  { intros c Hc. apply is_kept_spec. now apply H. }
  rewrite clean_name_normalize. unfold normalize, lowercase, str_lower.
  rewrite do_lower_fixed.
  - rewrite hyphens_to_spaces_absent, (remove_absent period),
      (remove_absent comma), (remove_absent apostrophe); auto;
      intros Hc; apply K in Hc; tauto.
  - apply forallb_forall. intros c Hc. now apply K.
Qed.

Lemma of_string_app (a b : string) :
  of_string (a ++ b) = of_string a ++ of_string b.
Proof.
  unfold of_string. induction a as [|c a IH]; simpl; [reflexivity|].
  now rewrite IH.
Qed.

(** *** Where [str.lower] treats the two sides of a code point separately *)

Lemma is_boundary_spec (b : N) :
  is_boundary b = true ->
  is_stable b = true /\ is_cased b = false /\ is_case_ignorable b = false.
Proof.
  unfold is_boundary. rewrite !andb_true_iff, !negb_true_iff. tauto.
Qed.

Lemma next_is_cased_boundary (x y : ustr) (b : N) :
  is_boundary b = true -> next_is_cased (x ++ b :: y) = next_is_cased x.
Proof.
  intros B. apply is_boundary_spec in B. destruct B as (_ & C & I).
  unfold next_is_cased. induction x as [|c x IH]; simpl.
  - now rewrite I, C.
  - destruct (is_case_ignorable c); [exact IH | reflexivity].
Qed.

Lemma do_lower_app_boundary (a c before : ustr) (b : N) :
  is_boundary b = true ->
  do_lower before (a ++ b :: c)
  = do_lower before a ++ do_lower (rev a ++ before) (b :: c).
Proof.
  intros B. revert before. induction a as [|x a IH]; intros before;
    [reflexivity|].
  cbn [app do_lower rev]. rewrite IH, <- !app_assoc. cbn [app].
  unfold handle_capital_sigma. now rewrite (next_is_cased_boundary a c b B).
Qed.

Lemma do_lower_before_boundary (s x z : ustr) (b : N) :
  is_boundary b = true -> do_lower (x ++ b :: z) s = do_lower x s.
Proof.
  intros B. revert x. induction s as [|c s IH]; intros x; [reflexivity|].
  cbn [do_lower]. change (c :: x ++ b :: z) with ((c :: x) ++ b :: z).
  rewrite (IH (c :: x)).
  unfold handle_capital_sigma. now rewrite (next_is_cased_boundary x z b B).
Qed.

Lemma str_lower_boundary (a c : ustr) (b : N) :
  is_boundary b = true ->
  str_lower (a ++ b :: c) = str_lower a ++ b :: str_lower c.
Proof.
  intros B. unfold str_lower. rewrite (do_lower_app_boundary a c [] b B).
  f_equal. cbn [do_lower].
  destruct (is_boundary_spec b B) as (S & _ & _).
  rewrite (stable_not_sigma b S), (stable_to_lower b S). cbn [app]. f_equal.
  exact (do_lower_before_boundary c [] (rev a ++ []) b B).
Qed.

Lemma normalize_tail_app (a b : ustr) :
  remove apostrophe (remove comma (remove period (hyphens_to_spaces (a ++ b))))
  = remove apostrophe (remove comma (remove period (hyphens_to_spaces a)))
    ++ remove apostrophe (remove comma (remove period (hyphens_to_spaces b))).
Proof.
  unfold remove, hyphens_to_spaces. now rewrite map_app, !filter_app.
Qed.

Lemma clean_name_split (a c : ustr) (b : N) :
  is_boundary b = true ->
  clean_name (a ++ b :: c) = clean_name a ++ clean_name [b] ++ clean_name c.
Proof.
  intros B. rewrite !clean_name_normalize. unfold normalize, lowercase.
  rewrite (str_lower_boundary a c b B).
  change (b :: str_lower c) with ([b] ++ str_lower c).
  rewrite !normalize_tail_app. do 2 f_equal.
  unfold str_lower. cbn [do_lower].
  destruct (is_boundary_spec b B) as (S & _ & _).
  now rewrite (stable_not_sigma b S), (stable_to_lower b S).
Qed.

(** C7: on every name, a sequence of code points of any kind, [clean_name]
    returns the string of section 4.1: lower-cased by [str.lower], then its
    hyphens turned into spaces, then its periods, its commas and its
    apostrophes removed. Nothing is trimmed or collapsed: a space stays where
    it is and the text on either side of it is normalized on its own, and a
    hyphen becomes one space in the same way, so names that differ by a
    doubled space stay different. Nothing is normalized beyond that: an
    accented letter and the same letter followed by a combining accent stay
    different. The two names of section 8 normalize to the same string. *)
Theorem C7_clean_name_steps :
  (forall s, clean_name s = normalize s) /\
  (forall a b, clean_name (a ++ space :: b)
               = clean_name a ++ space :: clean_name b) /\
  (forall a b, clean_name (a ++ hyphen :: b)
               = clean_name a ++ space :: clean_name b) /\
  clean_name (of_string " a  b ") = of_string " a  b " /\
  clean_name (of_string "a  b") <> clean_name (of_string "a b") /\
  clean_name [0xE9] = [0xE9] /\
  clean_name [0x65; 0x301] = [0x65; 0x301] /\
  clean_name (of_string "McDonald's-Group.")
  = clean_name (of_string "mcdonalds group") /\
  clean_name (of_string "McDonald's-Group.") = of_string "mcdonalds group".
Proof.
  split; [exact clean_name_normalize|].
  split.
  { intros a b. now rewrite (clean_name_split a b space eq_refl). }
  split.
  { intros a b. now rewrite (clean_name_split a b hyphen eq_refl). }
  repeat split; try (vm_compute; reflexivity).
  vm_compute. discriminate.
Qed.

(** C8: normalizing a normalized name changes nothing, for every name: what
    [clean_name] returns holds only code points that [str.lower] and the four
    replacements leave alone. *)
Theorem C8_clean_name_idempotent :
  forall s : ustr, clean_name (clean_name s) = clean_name s.
Proof.
  intros s. apply clean_name_of_kept, clean_name_output_kept.
Qed.

End NormalizerOnCodePoints.

(** *** The normalizer on [string] is the normalizer on code points *)

Lemma N_of_ascii_eqb (a b : ascii) :
  (N_of_ascii a =? N_of_ascii b)%N = Ascii.eqb a b.
Proof.
  destruct (Ascii.eqb_spec a b) as [->|N]; [apply N.eqb_refl|].
  apply N.eqb_neq. intros E. apply N.
  rewrite <- (ascii_N_embedding a), <- (ascii_N_embedding b). now rewrite E.
Qed.

Lemma latin1_to_lower (c : ascii) :
  (N_of_ascii c =? Unicode.capital_sigma)%N = false /\
  Unicode.to_lower_full (N_of_ascii c) = [N_of_ascii (lower_char c)].
Proof.
  destruct c as [[] [] [] [] [] [] [] []]; vm_compute; split; reflexivity.
Qed.

Lemma do_lower_of_string (s : string) (before : Unicode.ustr) :
  Unicode.do_lower before (Unicode.of_string s) = Unicode.of_string (str_lower s).
Proof.
  revert before. induction s as [|c s IH]; intros before; [reflexivity|].
  change (Unicode.of_string (String c s))
    with (N_of_ascii c :: Unicode.of_string s).
  cbn [Unicode.do_lower]. destruct (latin1_to_lower c) as [S L].
  rewrite S, L, IH. reflexivity.
Qed.

Lemma str_replace_of_string (old : ascii) (new s : string) :
  Unicode.str_replace (N_of_ascii old) (Unicode.of_string new) (Unicode.of_string s)
  = Unicode.of_string (str_replace old new s).
Proof.
  induction s as [|c s IH]; [reflexivity|].
  change (Unicode.of_string (String c s))
    with (N_of_ascii c :: Unicode.of_string s).
  cbn [Unicode.str_replace str_replace]. rewrite N_of_ascii_eqb, IH.
  destruct (Ascii.eqb c old); [now rewrite of_string_app | reflexivity].
Qed.

(** On a name whose code points are all below 256 the normalizer of the
    records, [clean_str], returns what [clean_name] returns in full. *)
Lemma clean_str_agrees (s : string) :
  Unicode.clean_name (Unicode.of_string s) = Unicode.of_string (clean_str s).
Proof.
  unfold Unicode.clean_name, clean_str, Unicode.str_lower.
  rewrite do_lower_of_string.
  change Unicode.hyphen with (N_of_ascii hyphen).
  change Unicode.period with (N_of_ascii period).
  change Unicode.comma with (N_of_ascii comma).
  change Unicode.apostrophe with (N_of_ascii apostrophe).
  change [Unicode.space] with (Unicode.of_string " ").
  change (@nil N) with (Unicode.of_string "").
  now rewrite !str_replace_of_string.
Qed.

(** ** Equality of well-formed values *)

Lemma py_eq_opt_str (a b : PyVal) :
  is_opt_str a = true -> is_opt_str b = true -> (py_eq a b = true <-> a = b).
Proof.
  destruct a, b; simpl; try discriminate; intros _ _;
    try (split; [discriminate | congruence]).
  - tauto.
  - rewrite String.eqb_eq. split; congruence.
Qed.

Lemma py_eq_str (a b : string) : py_eq (VStr a) (VStr b) = true <-> a = b.
Proof. simpl. apply String.eqb_eq. Qed.

Lemma evidence_eqb_eq (a b : Evidence) :
  wf_evidence a = true -> wf_evidence b = true ->
  (evidence_eqb a b = true <-> a = b).
Proof.
  destruct a, b; simpl; intros Ha Hb;
    try (split; [discriminate | congruence]);
    repeat (apply andb_prop in Ha; destruct Ha as [Ha ?]);
    repeat (apply andb_prop in Hb; destruct Hb as [Hb ?]);
    rewrite ?andb_true_iff, ?String.eqb_eq, ?py_eq_opt_str by assumption;
    (split; [intuition congruence | intros E; injection E; intuition]).
Qed.

Lemma existsb_evidence_In (x : Evidence) (l : list Evidence) :
  wf_evidence x = true -> forallb wf_evidence l = true ->
  (existsb (evidence_eqb x) l = true <-> In x l).
Proof.
  intros Hx Hl. rewrite existsb_exists. rewrite forallb_forall in Hl.
  split.
  - intros [y [Hy E]]. apply evidence_eqb_eq in E; auto. now subst.
  - intros H. exists x. split; [assumption|]. apply evidence_eqb_eq; auto.
Qed.

(** ** Evidence deduplicator *)

Lemma series_drop_duplicates_fold (xs : list Evidence) :
  series_drop_duplicates xs = fold_left dedupe_step xs [].
Proof. reflexivity. Qed.

Lemma dedupe_fold_spec (xs kept earlier : list Evidence) :
  forallb wf_evidence xs = true ->
  forallb wf_evidence kept = true ->
  forallb wf_evidence earlier = true ->
  (forall e, In e kept <-> In e earlier) ->
  fold_left dedupe_step xs kept = kept ++ DedupeSpec.dedupe_from earlier xs.
Proof.
  revert kept earlier.
  induction xs as [|x xs IH]; intros kept earlier Hxs Hk He Hin; simpl.
  - now rewrite app_nil_r.
  - simpl in Hxs. apply andb_prop in Hxs. destruct Hxs as [Hx Hxs].
    assert (Hsame : existsb (evidence_eqb x) kept = existsb (evidence_eqb x) earlier).
    { apply eq_true_iff_eq.
      rewrite !existsb_evidence_In by assumption. apply Hin. }
    unfold dedupe_step at 2. rewrite Hsame.
    destruct (existsb (evidence_eqb x) earlier) eqn:Hseen.
    + simpl. apply IH; auto.
      * rewrite forallb_app, He. simpl. now rewrite Hx.
      * intros e. rewrite in_app_iff, Hin. simpl.
        apply existsb_evidence_In in Hseen; auto.
        intuition (subst; auto).
    + rewrite (IH (kept ++ [x]) (earlier ++ [x])); auto.
      * now rewrite <- app_assoc.
      * rewrite forallb_app, Hk. simpl. now rewrite Hx.
      * rewrite forallb_app, He. simpl. now rewrite Hx.
      * intros e. rewrite !in_app_iff, Hin. tauto.
Qed.

Lemma dedupe_from_subseq (earlier xs : list Evidence) :
  subseq (DedupeSpec.dedupe_from earlier xs) xs.
Proof.
  revert earlier. induction xs as [|x xs IH]; intros earlier; simpl.
  - constructor.
  - destruct (existsb (evidence_eqb x) earlier); simpl; constructor; apply IH.
Qed.

Lemma dedupe_from_In (xs earlier : list Evidence) (e : Evidence) :
  forallb wf_evidence xs = true ->
  forallb wf_evidence earlier = true ->
  (In e (DedupeSpec.dedupe_from earlier xs) <-> In e xs /\ ~ In e earlier).
Proof.
  revert earlier. induction xs as [|x xs IH]; intros earlier Hxs He; simpl.
  - tauto.
  - simpl in Hxs. apply andb_prop in Hxs. destruct Hxs as [Hx Hxs].
    assert (Hw : forallb wf_evidence (earlier ++ [x]) = true).
    { rewrite forallb_app, He. simpl. now rewrite Hx. }
    rewrite in_app_iff, (IH _ Hxs Hw), in_app_iff. simpl.
    destruct (existsb (evidence_eqb x) earlier) eqn:Hseen; simpl.
    + apply existsb_evidence_In in Hseen; auto.
      split.
      * intros [[]|[H1 H2]]. split; [now right | tauto].
      * intros [[E|H1] H2]; [subst; contradiction|].
        right. split; [assumption|].
        intros [H|[E|[]]]; [contradiction | subst; contradiction].
    + assert (Hn : ~ In x earlier).
      { intros H. apply existsb_evidence_In in H; auto. congruence. }
      split.
      * intros [[E|[]]|[H1 H2]]; [subst; tauto | tauto].
      * intros [[E|H1] H2]; [now left; left|].
        assert (We : wf_evidence e = true).
        { rewrite forallb_forall in Hxs. now apply Hxs. }
        destruct (evidence_eqb x e) eqn:E.
        -- apply evidence_eqb_eq in E; auto.
        -- right. split; [assumption|].
           intros [H|[E'|[]]]; [contradiction|].
           apply (evidence_eqb_eq x e Hx We) in E'. congruence.
Qed.

Lemma dedupe_from_NoDup (xs earlier : list Evidence) :
  forallb wf_evidence xs = true ->
  forallb wf_evidence earlier = true ->
  NoDup (DedupeSpec.dedupe_from earlier xs).
Proof.
  revert earlier. induction xs as [|x xs IH]; intros earlier Hxs He; simpl.
  - constructor.
  - simpl in Hxs. apply andb_prop in Hxs. destruct Hxs as [Hx Hxs].
    assert (Hw : forallb wf_evidence (earlier ++ [x]) = true).
    { rewrite forallb_app, He. simpl. now rewrite Hx. }
    destruct (existsb (evidence_eqb x) earlier); simpl.
    + now apply IH.
    + constructor; [|now apply IH].
      rewrite dedupe_from_In by assumption.
      rewrite in_app_iff. simpl. tauto.
Qed.

Lemma series_drop_duplicates_spec (xs : list Evidence) :
  forallb wf_evidence xs = true ->
  series_drop_duplicates xs = DedupeSpec.dedupe xs.
Proof.
  intros H. rewrite series_drop_duplicates_fold.
  now rewrite (dedupe_fold_spec xs [] []).
Qed.

Lemma series_drop_duplicates_nonempty (xs : list Evidence) :
  truthy xs = true -> truthy (series_drop_duplicates xs) = true.
Proof.
  destruct xs as [|x xs]; [discriminate|]. intros _.
  rewrite series_drop_duplicates_fold. simpl.
  assert (G : forall ys kept, truthy kept = true ->
                truthy (fold_left dedupe_step ys kept) = true).
  { induction ys as [|y ys IH]; intros kept Hk; simpl; [assumption|].
    apply IH. unfold dedupe_step.
    destruct (existsb (evidence_eqb y) kept); [assumption|].
    now destruct kept. }
  now apply G.
Qed.

Lemma evidence_eqb_refl (a : Evidence) :
  wf_evidence a = true -> evidence_eqb a a = true.
Proof. intros H. now apply evidence_eqb_eq. Qed.

Lemma evidence_eqb_neq (a b : Evidence) :
  wf_evidence a = true -> wf_evidence b = true -> a <> b ->
  evidence_eqb a b = false.
Proof.
  intros Ha Hb N. destruct (evidence_eqb a b) eqn:E; [|reflexivity].
  apply evidence_eqb_eq in E; auto. contradiction.
Qed.

(** C3: on a sequence of well-formed evidence, what [drop_duplicates] leaves
    in [matches] is the sequence of section 4.4: an entry is dropped exactly
    when an identical entry occurs earlier. The output has no repeated entry,
    has the same entries as the input, lists them in the input's order, and
    starts with the input's first entry; on [[A; B; A; C]] with [A], [B], [C]
    distinct it is [[A; B; C]]. *)
Theorem C3_dedupe_keeps_first_occurrences :
  forall r : OutputRecord,
    forallb wf_evidence (matches r) = true ->
    matches (drop_duplicates r) = DedupeSpec.dedupe (matches r) /\
    NoDup (matches (drop_duplicates r)) /\
    (forall e, In e (matches (drop_duplicates r)) <-> In e (matches r)) /\
    subseq (matches (drop_duplicates r)) (matches r) /\
    (forall x rest, matches r = x :: rest ->
       exists rest', matches (drop_duplicates r) = x :: rest') /\
    (forall A B C, matches r = [A; B; A; C] -> A <> B -> A <> C -> B <> C ->
       matches (drop_duplicates r) = [A; B; C]).
Proof.
  intros [g o ms] Hwf. simpl in *.
  rewrite (series_drop_duplicates_spec ms Hwf). unfold DedupeSpec.dedupe.
  repeat split.
  - now apply dedupe_from_NoDup.
  - intros H. now apply dedupe_from_In in H.
  - intros H. apply dedupe_from_In; auto.
  - apply dedupe_from_subseq.
  - intros x rest E. subst ms. simpl. eauto.
  - intros A B C E NAB NAC NBC. subst ms. simpl in Hwf.
    apply andb_prop in Hwf. destruct Hwf as [WA Hwf].
    apply andb_prop in Hwf. destruct Hwf as [WB Hwf].
    apply andb_prop in Hwf. destruct Hwf as [_ Hwf].
    apply andb_prop in Hwf. destruct Hwf as [WC _].
    simpl.
    rewrite (evidence_eqb_neq B A), (evidence_eqb_refl A),
      (evidence_eqb_neq C A), (evidence_eqb_neq C B); auto.
Qed.

Lemma C3_witness :
  forallb wf_evidence
    [NameToName "Ali" "ali"; NameToAlias "Ali" (VStr "ALI");
     NameToName "Ali" "ali"; IdentifierMatch (VStr "X1") VNone (VStr "X1") VNone]
  = true /\
  matches (drop_duplicates (mkOutput 1 9
    [NameToName "Ali" "ali"; NameToAlias "Ali" (VStr "ALI");
     NameToName "Ali" "ali"; IdentifierMatch (VStr "X1") VNone (VStr "X1") VNone]))
  = [NameToName "Ali" "ali"; NameToAlias "Ali" (VStr "ALI");
     IdentifierMatch (VStr "X1") VNone (VStr "X1") VNone].
Proof.
  split; [reflexivity|].
  destruct (C3_dedupe_keeps_first_occurrences
              (mkOutput 1 9
                 [NameToName "Ali" "ali"; NameToAlias "Ali" (VStr "ALI");
                  NameToName "Ali" "ali";
                  IdentifierMatch (VStr "X1") VNone (VStr "X1") VNone])
              eq_refl) as (_ & _ & _ & _ & _ & H).
  apply (H _ _ _ eq_refl); discriminate.
Defined.

(** C10: [drop_duplicates] copies [gbr_id] and [ofac_id] as they are; only
    [matches] is replaced, by its deduplicated sequence. *)
Theorem C10_drop_duplicates_keeps_ids :
  forall r : OutputRecord,
    gbr_id (drop_duplicates r) = gbr_id r /\
    ofac_id (drop_duplicates r) = ofac_id r /\
    matches (drop_duplicates r) = series_drop_duplicates (matches r) /\
    drop_duplicates r
    = mkOutput (gbr_id r) (ofac_id r) (series_drop_duplicates (matches r)).
Proof. intros r. repeat split. Qed.

(** ** Loops that append *)

Lemma for_each_collect {A B : Type} (body : list B -> A -> result (list B))
      (g : A -> option (list B)) (xs : list A) :
  (forall acc x, In x xs ->
     body acc x = match g x with
                  | Some ys => Ok (acc ++ ys)
                  | None => Raise AttributeError
                  end) ->
  forall acc,
    for_each body xs acc
    = match collect g xs with
      | Some ys => Ok (acc ++ ys)
      | None => Raise AttributeError
      end.
Proof.
  induction xs as [|x xs IH]; intros Hb acc; simpl.
  - now rewrite app_nil_r.
  - rewrite Hb by now left.
    destruct (g x) as [ys|]; simpl; [|reflexivity].
    rewrite IH by (intros; apply Hb; now right).
    destruct (collect g xs) as [zs|]; [|reflexivity].
    now rewrite app_assoc.
Qed.

Lemma for_pure_flat_map {A B : Type} (body : list B -> A -> list B)
      (f : A -> list B) (xs : list A) :
  (forall acc x, body acc x = acc ++ f x) ->
  forall acc, for_pure body xs acc = acc ++ flat_map f xs.
Proof.
  intros Hb. unfold for_pure.
  induction xs as [|x xs IH]; intros acc; simpl.
  - now rewrite app_nil_r.
  - now rewrite IH, Hb, app_assoc.
Qed.

Lemma collect_some {A B : Type} (g : A -> option (list B)) (xs : list A) :
  (forall x, In x xs -> g x <> None) -> collect g xs <> None.
Proof.
  induction xs as [|x xs IH]; intros H; simpl; [discriminate|].
  destruct (g x) eqn:E; [|exfalso; now apply (H x (or_introl eq_refl))].
  destruct (collect g xs); [discriminate|].
  apply IH. intros; apply H; now right.
Qed.

Lemma collect_none {A B : Type} (g : A -> option (list B)) (xs : list A) :
  collect g xs = None <-> exists x, In x xs /\ g x = None.
Proof.
  induction xs as [|x xs IH]; simpl.
  - split; [discriminate | intros [x [[] _]]].
  - destruct (g x) eqn:E.
    + destruct (collect g xs) eqn:C.
      * split; [discriminate|]. intros [y [[->|Hy] Ey]]; [congruence|].
        assert (F : Some l0 = None) by (apply IH; eauto). discriminate.
      * split; [|reflexivity]. intros _.
        destruct (proj1 IH eq_refl) as [y [Hy Ey]]. eauto.
    + split; [|reflexivity]. intros _. exists x. auto.
Qed.

(** ** The three rules, declaratively *)

Lemma get_name_matches_collect (l r : Record_) :
  get_name_matches (l, r)
  = raise_if_none
      (option_map (app (name_to_name l r)) (collect (name_to_alias l) (aliases r))).
Proof.
  unfold get_name_matches. simpl.
  rewrite (for_each_collect _ (name_to_alias l)).
  - unfold name_to_name.
    destruct (collect (name_to_alias l) (aliases r)); reflexivity.
  - intros acc x _. unfold name_to_alias.
    destruct (alias_value x); simpl; try reflexivity.
    destruct (clean_str (name l) =? clean_str s)%string;
      [reflexivity | now rewrite app_nil_r].
Qed.

Lemma get_alias_matches_collect (l r : Record_) :
  get_alias_matches (l, r) = raise_if_none (collect (alias_rules r) (aliases l)).
Proof.
  unfold get_alias_matches.
  rewrite (for_each_collect _ (alias_rules r)).
  - destruct (collect (alias_rules r) (aliases l)); reflexivity.
  - intros acc la _. unfold alias_rules.
    destruct (alias_value la) as [| |a| |]; simpl; try reflexivity.
    rewrite (for_each_collect _ (alias_to_alias a)).
    + destruct (collect (alias_to_alias a) (aliases r)); [|reflexivity].
      destruct (clean_str a =? clean_str (name r))%string; simpl;
        now rewrite <- ?app_assoc.
    + intros acc' ra _. unfold alias_to_alias.
      destruct (alias_value ra); simpl; try reflexivity.
      destruct (clean_str a =? clean_str s)%string;
        [reflexivity | now rewrite app_nil_r].
Qed.

Lemma get_id_matches_flat_map (l r : Record_) :
  get_id_matches (l, r)
  = flat_map (fun li => flat_map (id_rule li) (id_numbers r)) (id_numbers l).
Proof.
  unfold get_id_matches.
  rewrite (for_pure_flat_map _ (fun li => flat_map (id_rule li) (id_numbers r)));
    [reflexivity|].
  intros acc li.
  apply for_pure_flat_map. intros acc' ri. unfold id_rule.
  destruct (py_eq (id_value li) (id_value ri)); [reflexivity | now rewrite app_nil_r].
Qed.

Lemma collect_forallb {A B : Type} (P : B -> bool) (g : A -> option (list B))
      (xs : list A) (zs : list B) :
  (forall x ys, g x = Some ys -> forallb P ys = true) ->
  collect g xs = Some zs -> forallb P zs = true.
Proof.
  intros Hg. revert zs. induction xs as [|x xs IH]; simpl; intros zs H.
  - now inversion H.
  - destruct (g x) as [ys|] eqn:E; [|discriminate].
    destruct (collect g xs) as [ws|]; [|discriminate].
    inversion H. subst. rewrite forallb_app, (Hg _ _ E). now apply IH.
Qed.

Lemma named_name_to_alias (l r : Record_) :
  named_aliases r = true ->
  exists ns, collect (name_to_alias l) (aliases r) = Some ns.
Proof.
  intros H. unfold named_aliases in H. rewrite forallb_forall in H.
  destruct (collect (name_to_alias l) (aliases r)) as [ns|] eqn:E; [eauto|].
  apply collect_none in E. destruct E as [a [Ha E]].
  apply H in Ha. unfold name_to_alias in E.
  destruct (alias_value a); discriminate.
Qed.

Lemma named_alias_to_alias (la : string) (r : Record_) :
  named_aliases r = true ->
  exists ys, collect (alias_to_alias la) (aliases r) = Some ys.
Proof.
  intros H. unfold named_aliases in H. rewrite forallb_forall in H.
  destruct (collect (alias_to_alias la) (aliases r)) as [ns|] eqn:E; [eauto|].
  apply collect_none in E. destruct E as [a [Ha E]].
  apply H in Ha. unfold alias_to_alias in E.
  destruct (alias_value a); discriminate.
Qed.

Lemma named_alias_rules (l r : Record_) :
  named_aliases l = true -> named_aliases r = true ->
  exists ms, collect (alias_rules r) (aliases l) = Some ms.
Proof.
  intros Hl Hr. unfold named_aliases in Hl. rewrite forallb_forall in Hl.
  destruct (collect (alias_rules r) (aliases l)) as [ms|] eqn:E; [eauto|].
  apply collect_none in E. destruct E as [a [Ha E]].
  apply Hl in Ha. unfold alias_rules in E.
  destruct (alias_value a) as [| |s| |]; try discriminate.
  destruct (named_alias_to_alias s r Hr) as [ys Hys].
  rewrite Hys in E. discriminate.
Qed.

Lemma name_rule_family (l r : Record_) (ns : list Evidence) :
  collect (name_to_alias l) (aliases r) = Some ns ->
  forallb is_name_rule (name_to_name l r ++ ns) = true.
Proof.
  intros H. rewrite forallb_app. apply andb_true_intro. split.
  - unfold name_to_name. now destruct (String.eqb _ _).
  - revert H. apply collect_forallb. intros x ys. unfold name_to_alias.
    destruct (alias_value x); try discriminate.
    intros E. inversion E. now destruct (String.eqb _ _).
Qed.

Lemma alias_rule_family (l r : Record_) (ms : list Evidence) :
  collect (alias_rules r) (aliases l) = Some ms ->
  forallb is_alias_rule ms = true.
Proof.
  apply collect_forallb. intros la ys. unfold alias_rules.
  destruct (alias_value la) as [| |a| |]; try discriminate.
  destruct (collect (alias_to_alias a) (aliases r)) as [zs|] eqn:E; [|discriminate].
  intros H. inversion H. rewrite forallb_app. apply andb_true_intro. split.
  - destruct (String.eqb (clean_str a) (clean_str (name r))); reflexivity.
  - revert E. apply collect_forallb. intros x ws. unfold alias_to_alias.
    destruct (alias_value x) as [| |b| |]; try discriminate.
    intros E'. inversion E'.
    destruct (String.eqb (clean_str a) (clean_str b)); reflexivity.
Qed.

Lemma id_rule_family (l r : Record_) :
  forallb is_id_rule (get_id_matches (l, r)) = true.
Proof.
  rewrite get_id_matches_flat_map. apply forallb_forall. intros e He.
  apply in_flat_map in He. destruct He as [li [_ He]].
  apply in_flat_map in He. destruct He as [ri [_ He]].
  unfold id_rule in He. destruct (py_eq _ _); [|contradiction].
  destruct He as [<-|[]]. reflexivity.
Qed.

(** On records whose aliases all carry a string value the engine returns. *)
Lemma get_all_matches_named (l r : Record_) :
  named_aliases l = true -> named_aliases r = true ->
  exists ns ms,
    collect (name_to_alias l) (aliases r) = Some ns /\
    collect (alias_rules r) (aliases l) = Some ms /\
    get_name_matches (l, r) = Ok (name_to_name l r ++ ns) /\
    get_alias_matches (l, r) = Ok ms /\
    get_all_matches (l, r)
    = Ok (mkOutput (id_ l) (id_ r)
            (((name_to_name l r ++ ns) ++ ms) ++ get_id_matches (l, r))).
Proof.
  intros Hl Hr.
  destruct (named_name_to_alias l r Hr) as [ns Hns].
  destruct (named_alias_rules l r Hl Hr) as [ms Hms].
  exists ns, ms.
  assert (N : get_name_matches (l, r) = Ok (name_to_name l r ++ ns)).
  { rewrite get_name_matches_collect, Hns. reflexivity. }
  assert (A : get_alias_matches (l, r) = Ok ms).
  { rewrite get_alias_matches_collect, Hms. reflexivity. }
  repeat split; auto.
  unfold get_all_matches. rewrite N, A. reflexivity.
Qed.

(** An alias without a string value, on either side, makes the engine raise. *)
Lemma get_all_matches_unnamed (l r : Record_) :
  named_aliases l && named_aliases r = false ->
  get_all_matches (l, r) = Raise AttributeError.
Proof.
  intros H. unfold get_all_matches.
  rewrite get_name_matches_collect, get_alias_matches_collect.
  destruct (collect (name_to_alias l) (aliases r)) as [ns|] eqn:N; [|reflexivity].
  simpl.
  destruct (collect (alias_rules r) (aliases l)) as [ms|] eqn:A; [|reflexivity].
  exfalso.
  assert (Hr : named_aliases r = true).
  { apply forallb_forall. intros a Ha.
    destruct (is_str (alias_value a)) eqn:E; [reflexivity|].
    assert (F : collect (name_to_alias l) (aliases r) = None).
    { apply collect_none. exists a. split; [assumption|].
      unfold name_to_alias. destruct (alias_value a); try reflexivity; discriminate. }
    congruence. }
  assert (Hl : named_aliases l = true).
  { apply forallb_forall. intros a Ha.
    destruct (is_str (alias_value a)) eqn:E; [reflexivity|].
    assert (F : collect (alias_rules r) (aliases l) = None).
    { apply collect_none. exists a. split; [assumption|].
      unfold alias_rules. destruct (alias_value a); try reflexivity; discriminate. }
    congruence. }
  rewrite Hl, Hr in H. discriminate.
Qed.

(** ** The matching engine on records as the standardizer produces them *)

(** C1 (where the code departs from it): an alias element without a [value]
    key is standardized to an alias whose value is [None]; the record is
    well-formed, and the name rule raises [AttributeError] on it, because
    [clean_name] calls [lower] on [None]. The identifier rule, next to it,
    compares [None] values without raising. *)
Theorem C1_none_alias_value_raises :
  (forall py_repr,
     standardize_record py_repr
       [("id", VInt 2); ("type", VStr "individual"); ("name", VStr "B");
        ("aliases", VList [VDict []])]
     = Ok (record_of 2 "B" [mkAlias VNone VNone] [])) /\
  well_formed (record_of 2 "B" [mkAlias VNone VNone] []) = true /\
  clean_name VNone = Raise AttributeError /\
  get_name_matches (record_of 1 "A" [] [], record_of 2 "B" [mkAlias VNone VNone] [])
  = Raise AttributeError /\
  get_all_matches (record_of 1 "A" [] [], record_of 2 "B" [mkAlias VNone VNone] [])
  = Raise AttributeError /\
  run [record_of 1 "A" [] []] [record_of 2 "B" [mkAlias VNone VNone] []]
  = Raise AttributeError /\
  get_id_matches (record_of 1 "A" [] [mkIDNumber VNone VNone],
                  record_of 2 "B" [] [mkIDNumber VNone VNone])
  = [IdentifierMatch VNone VNone VNone VNone].
Proof. repeat split. Qed.

(** What does hold of C1: the normalizer returns on every string, the
    identifier rule and the deduplicator return on every input, and the name
    and alias rules return on every pair of records whose aliases all carry a
    string value; they raise on every other pair. *)
Lemma matching_total_on_named_aliases :
  (forall s, exists t, clean_name (VStr s) = Ok t) /\
  (forall l r, named_aliases l = true -> named_aliases r = true ->
     exists out, get_all_matches (l, r) = Ok out) /\
  (forall l r, named_aliases l && named_aliases r = false ->
     get_all_matches (l, r) = Raise AttributeError).
Proof.
  split; [|split].
  - intros s. simpl. eauto.
  - intros l r Hl Hr.
    destruct (get_all_matches_named l r Hl Hr) as (ns & ms & _ & _ & _ & _ & H).
    eauto.
  - apply get_all_matches_unnamed.
Qed.

(** C4: on records whose aliases all carry a string value, [get_all_matches]
    returns the output of the name rules, then that of the alias rules, then
    that of the identifier rules, each family producing only its own variants;
    whenever it returns, on any records, its matches are that concatenation.
    The two one-record collections of section 8 give one pair result, with the
    name match before the identifier match. *)
Theorem C4_rule_families_in_order :
  (forall l r,
     named_aliases l = true -> named_aliases r = true ->
     exists ns ms,
       get_name_matches (l, r) = Ok ns /\
       get_alias_matches (l, r) = Ok ms /\
       get_all_matches (l, r)
       = Ok (mkOutput (id_ l) (id_ r) (ns ++ ms ++ get_id_matches (l, r))) /\
       forallb is_name_rule ns = true /\
       forallb is_alias_rule ms = true /\
       forallb is_id_rule (get_id_matches (l, r)) = true) /\
  (forall l r out,
     get_all_matches (l, r) = Ok out ->
     exists ns ms,
       get_name_matches (l, r) = Ok ns /\
       get_alias_matches (l, r) = Ok ms /\
       out = mkOutput (id_ l) (id_ r) (ns ++ ms ++ get_id_matches (l, r))) /\
  run [record_of 1 "Ali Hassan" [] [mkIDNumber (VStr "X1") (VStr "passport")]]
      [record_of 9 "ali hassan" [] [mkIDNumber (VStr "X1") (VStr "reg")]]
  = Ok [mkOutput 1 9
          [NameToName "Ali Hassan" "ali hassan";
           IdentifierMatch (VStr "X1") (VStr "passport") (VStr "X1") (VStr "reg")]].
Proof.
  split; [|split].
  - intros l r Hl Hr.
    destruct (get_all_matches_named l r Hl Hr) as (ns & ms & Hn & Hm & N & A & H).
    exists (name_to_name l r ++ ns), ms.
    repeat split; auto.
    + now rewrite H, <- app_assoc.
    + now apply name_rule_family.
    + now apply (alias_rule_family l r).
    + apply id_rule_family.
  - intros l r out H. unfold get_all_matches in H.
    destruct (get_name_matches (l, r)) as [ns|] eqn:N; [|discriminate].
    destruct (get_alias_matches (l, r)) as [ms|] eqn:A; [|discriminate].
    simpl in H. inversion H. exists ns, ms.
    now rewrite <- app_assoc.
  - reflexivity.
Qed.

Lemma C4_witness :
  named_aliases (record_of 1 "Ali Hassan" [mkAlias (VStr "A. Hassan") VNone]
                   [mkIDNumber (VStr "X1") (VStr "passport")]) = true /\
  named_aliases (record_of 9 "ali hassan" [mkAlias (VStr "a hassan") VNone]
                   [mkIDNumber (VStr "X1") (VStr "reg")]) = true /\
  exists ns ms,
    get_name_matches
      (record_of 1 "Ali Hassan" [mkAlias (VStr "A. Hassan") VNone]
         [mkIDNumber (VStr "X1") (VStr "passport")],
       record_of 9 "ali hassan" [mkAlias (VStr "a hassan") VNone]
         [mkIDNumber (VStr "X1") (VStr "reg")]) = Ok ns /\
    get_alias_matches
      (record_of 1 "Ali Hassan" [mkAlias (VStr "A. Hassan") VNone]
         [mkIDNumber (VStr "X1") (VStr "passport")],
       record_of 9 "ali hassan" [mkAlias (VStr "a hassan") VNone]
         [mkIDNumber (VStr "X1") (VStr "reg")]) = Ok ms /\
    forallb is_name_rule ns = true /\ forallb is_alias_rule ms = true.
Proof.
  split; [reflexivity|]. split; [reflexivity|].
  destruct (proj1 C4_rule_families_in_order
              (record_of 1 "Ali Hassan" [mkAlias (VStr "A. Hassan") VNone]
                 [mkIDNumber (VStr "X1") (VStr "passport")])
              (record_of 9 "ali hassan" [mkAlias (VStr "a hassan") VNone]
                 [mkIDNumber (VStr "X1") (VStr "reg")])
              eq_refl eq_refl)
    as (ns & ms & N & A & _ & Fn & Fa & _).
  exists ns, ms. auto.
Defined.

(** ** Identifier rule *)

Lemma of_opt_eq (a b : option string) :
  py_eq (of_opt a) (of_opt b) = true <-> a = b.
Proof.
  destruct a as [a|], b as [b|]; simpl;
    try (split; [discriminate | congruence]); [|tauto].
  rewrite String.eqb_eq. split; congruence.
Qed.

(** C5: the identifier rule emits, left identifiers outermost and in order,
    one [IdentifierMatch] for each pair of a left and a right identifier whose
    values are equal, and nothing else; on strings that equality is equality
    of the strings themselves, so ["a-1"] and ["A 1"], which normalize to the
    same name, do not match. With one left identifier ["A123"] and two right
    identifiers ["A123"], whatever the comments, the engine returns two
    entries, and [drop_duplicates] leaves one exactly when the two right
    comments are the same. *)
Theorem C5_identifier_rule :
  (forall l r,
     get_id_matches (l, r)
     = flat_map (fun li => flat_map (id_rule li) (id_numbers r)) (id_numbers l)) /\
  (forall l r e,
     In e (get_id_matches (l, r)) <->
     exists li ri,
       In li (id_numbers l) /\ In ri (id_numbers r) /\
       py_eq (id_value li) (id_value ri) = true /\
       e = IdentifierMatch (id_value li) (comment li) (id_value ri) (comment ri)) /\
  (forall a b, py_eq (VStr a) (VStr b) = true <-> a = b) /\
  (clean_str "a-1" = clean_str "A 1" /\
   get_id_matches (record_of 1 "L" [] [mkIDNumber (VStr "a-1") VNone],
                   record_of 2 "R" [] [mkIDNumber (VStr "A 1") VNone]) = []) /\
  (forall c0 c1 c2 : option string,
     get_all_matches
       (record_of 1 "L" [] [mkIDNumber (VStr "A123") (of_opt c0)],
        record_of 2 "R" [] [mkIDNumber (VStr "A123") (of_opt c1);
                            mkIDNumber (VStr "A123") (of_opt c2)])
     = Ok (mkOutput 1 2
             [IdentifierMatch (VStr "A123") (of_opt c0) (VStr "A123") (of_opt c1);
              IdentifierMatch (VStr "A123") (of_opt c0) (VStr "A123") (of_opt c2)]) /\
     (List.length
        (matches (drop_duplicates (mkOutput 1 2
           [IdentifierMatch (VStr "A123") (of_opt c0) (VStr "A123") (of_opt c1);
            IdentifierMatch (VStr "A123") (of_opt c0) (VStr "A123") (of_opt c2)]))) = 1%nat
      <-> c1 = c2)).
Proof.
  split; [apply get_id_matches_flat_map|].
  split.
  { intros l r e. rewrite get_id_matches_flat_map, in_flat_map. split.
    - intros [li [Hl He]]. apply in_flat_map in He. destruct He as [ri [Hr He]].
      unfold id_rule in He.
      destruct (py_eq (id_value li) (id_value ri)) eqn:E; [|contradiction].
      destruct He as [<-|[]]. exists li, ri. auto.
    - intros (li & ri & Hl & Hr & E & ->). exists li. split; [assumption|].
      apply in_flat_map. exists ri. split; [assumption|].
      unfold id_rule. rewrite E. now left. }
  split; [apply py_eq_str|].
  split; [split; reflexivity|].
  intros c0 c1 c2. split; [reflexivity|].
  cbn [drop_duplicates matches gbr_id ofac_id].
  unfold series_drop_duplicates, for_pure. cbn [fold_left].
  unfold dedupe_step at 2. cbn [existsb app]. unfold dedupe_step.
  cbn [existsb evidence_eqb orb].
  assert (R0 : py_eq (of_opt c0) (of_opt c0) = true) by now apply of_opt_eq.
  rewrite R0. cbn [py_eq String.eqb Ascii.eqb Bool.eqb andb orb].
  destruct (py_eq (of_opt c2) (of_opt c1)) eqn:E.
  - cbn. split; [intros _|reflexivity].
    apply of_opt_eq in E. congruence.
  - cbn. split; [discriminate|]. intros ->.
    assert (T : py_eq (of_opt c2) (of_opt c2) = true) by now apply of_opt_eq.
    congruence.
Qed.

(** ** The pipeline *)

Lemma rdd_map_total {A B : Type} (f : A -> result B) (xs : list A) :
  (forall x, In x xs -> exists y, f x = Ok y) -> exists ys, rdd_map f xs = Ok ys.
Proof.
  induction xs as [|x xs IH]; intros H; simpl; [eauto|].
  destruct (H x (or_introl eq_refl)) as [y Hy]. rewrite Hy. simpl.
  destruct IH as [ys Hys]; [intros; apply H; now right|].
  rewrite Hys. simpl. eauto.
Qed.

Lemma run_nonempty (gbr ofac : list Record_) (out : list OutputRecord) :
  run gbr ofac = Ok out -> Forall (fun p => matches p <> []) out.
Proof.
  unfold run. intros H. inv_bind H. inversion H. subst out.
  apply Forall_forall. intros p Hp.
  apply in_map_iff in Hp. destruct Hp as [q [<- Hq]].
  apply filter_In in Hq. destruct Hq as [_ Hq].
  apply series_drop_duplicates_nonempty in Hq.
  simpl. now destruct (series_drop_duplicates (matches q)).
Qed.

(** C9: whatever the two collections, every pair result the pipeline returns
    has a non-empty [matches], also when the collections come from
    standardizing decoded lines; and on collections whose aliases all carry a
    string value the pipeline does return. *)
Theorem C9_run_has_no_empty_matches :
  (forall gbr ofac out,
     run gbr ofac = Ok out -> Forall (fun p => matches p <> []) out) /\
  (forall py_repr gbr_lines ofac_lines out,
     main py_repr gbr_lines ofac_lines = Ok out ->
     Forall (fun p => matches p <> []) out) /\
  (forall gbr ofac,
     forallb named_aliases gbr = true -> forallb named_aliases ofac = true ->
     exists out, run gbr ofac = Ok out).
Proof.
  split; [apply run_nonempty|]. split.
  - intros py_repr gl ol out H. unfold main in H.
    inv_bind H. inv_bind H. now apply run_nonempty in H.
  - intros gbr ofac Hg Ho. unfold run.
    destruct (rdd_map_total get_all_matches (cartesian gbr ofac)) as [ys Hys].
    + intros [l r] Hin. apply in_prod_iff in Hin. destruct Hin as [Hl Hr].
      rewrite forallb_forall in Hg, Ho.
      destruct (get_all_matches_named l r (Hg _ Hl) (Ho _ Hr))
        as (ns & ms & _ & _ & _ & _ & H). eauto.
    + rewrite Hys. simpl. eauto.
Qed.

Lemma C9_witness :
  run [record_of 1 "Ali Hassan" [] []; record_of 2 "Jane Doe" [] []]
      [record_of 9 "ali hassan" [] []]
  = Ok [mkOutput 1 9 [NameToName "Ali Hassan" "ali hassan"]] /\
  Forall (fun p => matches p <> [])
    [mkOutput 1 9 [NameToName "Ali Hassan" "ali hassan"]].
Proof.
  split; [reflexivity|].
  apply (proj1 C9_run_has_no_empty_matches
           [record_of 1 "Ali Hassan" [] []; record_of 2 "Jane Doe" [] []]
           [record_of 9 "ali hassan" [] []]).
  reflexivity.
Defined.

(** ** Swapping the two records *)

Lemma flat_map_app_perm {A B : Type} (f g : A -> list B) (xs : list A) :
  Permutation (flat_map (fun x => f x ++ g x) xs) (flat_map f xs ++ flat_map g xs).
Proof.
  induction xs as [|x xs IH]; simpl; [constructor|].
  rewrite IH, <- !app_assoc. apply Permutation_app_head.
  rewrite !app_assoc. apply Permutation_app_tail, Permutation_app_comm.
Qed.

Lemma flat_map_swap_perm {A B C : Type} (h : A -> B -> list C)
      (xs : list A) (ys : list B) :
  Permutation (flat_map (fun x => flat_map (h x) ys) xs)
              (flat_map (fun y => flat_map (fun x => h x y) xs) ys).
Proof.
  induction xs as [|x xs IH]; simpl.
  - induction ys as [|y ys IHy]; simpl; [constructor | assumption].
  - rewrite IH. symmetry.
    apply (flat_map_app_perm (h x) (fun y => flat_map (fun x => h x y) xs)).
Qed.

Lemma flat_map_ext_in {A B : Type} (f g : A -> list B) (xs : list A) :
  (forall x, In x xs -> f x = g x) -> flat_map f xs = flat_map g xs.
Proof.
  induction xs as [|x xs IH]; intros H; simpl; [reflexivity|].
  rewrite (H x (or_introl eq_refl)), IH; [reflexivity|].
  intros; apply H; now right.
Qed.

Lemma map_flat_map {A B C : Type} (m : B -> C) (f : A -> list B) (xs : list A) :
  map m (flat_map f xs) = flat_map (fun x => map m (f x)) xs.
Proof.
  induction xs as [|x xs IH]; simpl; [reflexivity|].
  now rewrite map_app, IH.
Qed.

Lemma collect_named {B : Type} (g : Alias -> option (list B)) (f : string -> list B)
      (r : Record_) :
  named_aliases r = true ->
  (forall a s, alias_value a = VStr s -> g a = Some (f s)) ->
  collect g (aliases r) = Some (flat_map f (alias_strings r)).
Proof.
  unfold named_aliases, alias_strings. intros H Hg.
  induction (aliases r) as [|a xs IH]; simpl; [reflexivity|].
  simpl in H. apply andb_prop in H. destruct H as [Ha H].
  destruct (alias_value a) as [| |s| |] eqn:E; try discriminate.
  rewrite (Hg a s E), (IH H). reflexivity.
Qed.

Lemma name_rules_named (l r : Record_) :
  named_aliases r = true ->
  collect (name_to_alias l) (aliases r)
  = Some (flat_map (name_vs_alias (name l)) (alias_strings r)).
Proof.
  intros H. apply collect_named; [assumption|].
  intros a s E. unfold name_to_alias. now rewrite E.
Qed.

Lemma alias_rules_named (l r : Record_) :
  named_aliases l = true -> named_aliases r = true ->
  collect (alias_rules r) (aliases l)
  = Some (flat_map
            (fun a => alias_vs_name a (name r)
                      ++ flat_map (alias_vs_alias a) (alias_strings r))
            (alias_strings l)).
Proof.
  intros Hl Hr. apply collect_named; [assumption|].
  intros a s E. unfold alias_rules. rewrite E.
  rewrite (collect_named (alias_to_alias s) (alias_vs_alias s) r Hr); [reflexivity|].
  intros b t Eb. unfold alias_to_alias. now rewrite Eb.
Qed.

Lemma mirror_involutive (e : Evidence) : mirror (mirror e) = e.
Proof. now destruct e. Qed.

Lemma mirror_name_to_name (l r : Record_) :
  map mirror (name_to_name l r) = name_to_name r l.
Proof.
  unfold name_to_name.
  rewrite (String.eqb_sym (clean_str (name r))).
  now destruct (String.eqb _ _).
Qed.

Lemma mirror_name_vs_alias (n a : string) :
  map mirror (name_vs_alias n a) = alias_vs_name a n.
Proof.
  unfold name_vs_alias, alias_vs_name.
  rewrite (String.eqb_sym (clean_str a)). now destruct (String.eqb _ _).
Qed.

Lemma mirror_alias_vs_name (a n : string) :
  map mirror (alias_vs_name a n) = name_vs_alias n a.
Proof.
  unfold name_vs_alias, alias_vs_name.
  rewrite (String.eqb_sym (clean_str a)). now destruct (String.eqb _ _).
Qed.

Lemma mirror_alias_vs_alias (a b : string) :
  map mirror (alias_vs_alias a b) = alias_vs_alias b a.
Proof.
  unfold alias_vs_alias.
  rewrite (String.eqb_sym (clean_str a)). now destruct (String.eqb _ _).
Qed.

Lemma py_eq_sym_opt_str (a b : PyVal) :
  is_opt_str a = true -> is_opt_str b = true -> py_eq a b = py_eq b a.
Proof.
  destruct a, b; simpl; try discriminate; try reflexivity.
  intros _ _. apply String.eqb_sym.
Qed.

Lemma mirror_id_rule (li ri : IDNumber) :
  wf_id_number li = true -> wf_id_number ri = true ->
  map mirror (id_rule li ri) = id_rule ri li.
Proof.
  unfold wf_id_number, id_rule. intros Hl Hr.
  apply andb_prop in Hl. apply andb_prop in Hr.
  rewrite (py_eq_sym_opt_str (id_value ri) (id_value li)) by tauto.
  now destruct (py_eq _ _).
Qed.

Lemma id_matches_swap (l r : Record_) :
  well_formed l = true -> well_formed r = true ->
  Permutation (get_id_matches (r, l)) (map mirror (get_id_matches (l, r))).
Proof.
  unfold well_formed. intros Hl Hr.
  apply andb_prop in Hl. apply andb_prop in Hr.
  destruct Hl as [_ Hl]. destruct Hr as [_ Hr].
  rewrite forallb_forall in Hl, Hr.
  rewrite !get_id_matches_flat_map, map_flat_map.
  rewrite (flat_map_swap_perm (fun ri li => id_rule ri li)).
  erewrite (flat_map_ext_in (fun li => map mirror _)); [reflexivity|].
  intros li Hli. cbn beta. rewrite map_flat_map.
  apply flat_map_ext_in. intros ri Hri. apply mirror_id_rule; auto.
Qed.

Lemma name_alias_swap (l r : Record_) :
  Permutation
    (flat_map (name_vs_alias (name r)) (alias_strings l)
     ++ flat_map (fun a => alias_vs_name a (name l)
                           ++ flat_map (alias_vs_alias a) (alias_strings l))
          (alias_strings r))
    (map mirror (flat_map (name_vs_alias (name l)) (alias_strings r))
     ++ map mirror
          (flat_map (fun a => alias_vs_name a (name r)
                              ++ flat_map (alias_vs_alias a) (alias_strings r))
             (alias_strings l))).
Proof.
  rewrite !map_flat_map.
  rewrite (flat_map_ext _ _ (fun s => mirror_name_vs_alias (name l) s)).
  rewrite (flat_map_ext
             (fun a => map mirror (alias_vs_name a (name r)
                                   ++ flat_map (alias_vs_alias a) (alias_strings r)))
             (fun a => name_vs_alias (name r) a
                       ++ flat_map (fun b => alias_vs_alias b a) (alias_strings r))).
  2:{ intros a. rewrite map_app, mirror_alias_vs_name, map_flat_map.
      f_equal. apply flat_map_ext. intros b. apply mirror_alias_vs_alias. }
  rewrite !flat_map_app_perm.
  rewrite (flat_map_swap_perm (fun a b => alias_vs_alias a b)
             (alias_strings r) (alias_strings l)).
  apply Permutation_app_swap_app.
Qed.

Lemma all_matches_swap (l r : Record_) :
  well_formed l = true -> well_formed r = true ->
  named_aliases l = true -> named_aliases r = true ->
  exists a b,
    get_all_matches (l, r) = Ok a /\ get_all_matches (r, l) = Ok b /\
    gbr_id b = ofac_id a /\ ofac_id b = gbr_id a /\
    Permutation (matches b) (map mirror (matches a)).
Proof.
  intros Wl Wr Nl Nr.
  destruct (get_all_matches_named l r Nl Nr) as (ns & ms & Hn & Hm & _ & _ & Ha).
  destruct (get_all_matches_named r l Nr Nl) as (ns' & ms' & Hn' & Hm' & _ & _ & Hb).
  rewrite name_rules_named in Hn, Hn' by assumption.
  rewrite alias_rules_named in Hm, Hm' by assumption.
  inversion Hn. inversion Hn'. inversion Hm. inversion Hm'. subst ns ns' ms ms'.
  eexists. eexists. split; [exact Ha|]. split; [exact Hb|].
  cbn [gbr_id ofac_id matches]. split; [reflexivity|]. split; [reflexivity|].
  rewrite !map_app, mirror_name_to_name.
  apply Permutation_app; [|now apply id_matches_swap].
  rewrite <- !app_assoc. apply Permutation_app_head.
  apply name_alias_swap.
Qed.

(** C6, as the code has it: on well-formed records the engine either raises
    on both orders of the pair or returns on both, and then the matches of
    [(r, l)] are, up to order, the mirror images of the matches of [(l, r)]:
    the same variant with the two sides' values exchanged for [NameToName],
    [AliasToAlias] and [IdentifierMatch], and [NameToAlias] exchanged with
    [AliasToName]. *)
Theorem C6_swap_mirrors_evidence :
  forall l r,
    well_formed l = true -> well_formed r = true ->
    match get_all_matches (l, r), get_all_matches (r, l) with
    | Ok a, Ok b =>
        gbr_id b = ofac_id a /\ ofac_id b = gbr_id a /\
        Permutation (matches b) (map mirror (matches a)) /\
        (forall e, In e (matches a) <-> In (mirror e) (matches b)) /\
        (forall g o, In (NameToName g o) (matches a)
                     <-> In (NameToName o g) (matches b)) /\
        (forall v c w d, In (IdentifierMatch v c w d) (matches a)
                         <-> In (IdentifierMatch w d v c) (matches b)) /\
        (forall g o, In (NameToAlias g o) (matches a)
                     <-> In (AliasToName o g) (matches b)) /\
        (forall g o, In (AliasToName g o) (matches a)
                     <-> In (NameToAlias o g) (matches b))
    | Raise e, Raise e' => e = AttributeError /\ e' = AttributeError
    | _, _ => False
    end.
Proof.
  intros l r Wl Wr.
  destruct (named_aliases l && named_aliases r) eqn:N.
  - apply andb_prop in N. destruct N as [Nl Nr].
    destruct (all_matches_swap l r Wl Wr Nl Nr) as (a & b & Ha & Hb & I1 & I2 & P).
    rewrite Ha, Hb.
    assert (M : forall e, In e (matches a) <-> In (mirror e) (matches b)).
    { intros e. split.
      - intros H. apply (Permutation_in _ (Permutation_sym P)).
        now apply in_map.
      - intros H. apply (Permutation_in _ P) in H.
        apply in_map_iff in H. destruct H as [e' [E H]].
        apply (f_equal mirror) in E. rewrite !mirror_involutive in E.
        now subst. }
    repeat split; auto;
      try (intros H; apply M in H; exact H); intros H; apply M; exact H.
  - rewrite (get_all_matches_unnamed l r N).
    rewrite andb_comm in N. rewrite (get_all_matches_unnamed r l N). auto.
Qed.

Lemma C6_witness :
  well_formed (record_of 1 "Ali Hassan" [mkAlias (VStr "A. Hassan") VNone]
                 [mkIDNumber (VStr "X1") (VStr "passport")]) = true /\
  well_formed (record_of 9 "a hassan" [mkAlias (VStr "ali-hassan") VNone]
                 [mkIDNumber (VStr "X1") (VStr "reg")]) = true /\
  Permutation
    [NameToAlias "a hassan" (VStr "A. Hassan");
     AliasToName (VStr "ali-hassan") "Ali Hassan";
     IdentifierMatch (VStr "X1") (VStr "reg") (VStr "X1") (VStr "passport")]
    (map mirror
       [NameToAlias "Ali Hassan" (VStr "ali-hassan");
        AliasToName (VStr "A. Hassan") "a hassan";
        IdentifierMatch (VStr "X1") (VStr "passport") (VStr "X1") (VStr "reg")]).
Proof.
  split; [reflexivity|]. split; [reflexivity|].
  pose proof (C6_swap_mirrors_evidence
                (record_of 1 "Ali Hassan" [mkAlias (VStr "A. Hassan") VNone]
                   [mkIDNumber (VStr "X1") (VStr "passport")])
                (record_of 9 "a hassan" [mkAlias (VStr "ali-hassan") VNone]
                   [mkIDNumber (VStr "X1") (VStr "reg")])
                eq_refl eq_refl) as H.
  exact (proj1 (proj2 (proj2 H))).
Defined.

(** C6 as it is worded fails: with names ["Ali Hassan"] and ["ali hassan"] the
    two orders return different [NameToName] entries, each with its own left
    name first. *)
Lemma C6_counterexample :
  ~ (forall l r a b,
       get_all_matches (l, r) = Ok a -> get_all_matches (r, l) = Ok b ->
       forall e, is_symmetric_variant e = true ->
                 (In e (matches a) <-> In e (matches b))).
Proof.
  intros H.
  specialize (H (record_of 1 "Ali Hassan" [] []) (record_of 9 "ali hassan" [] [])
                _ _ eq_refl eq_refl (NameToName "Ali Hassan" "ali hassan") eq_refl).
  simpl in H. destruct H as [H _].
  destruct (H (or_introl eq_refl)) as [E|[]]. discriminate.
Qed.

(** ** Record standardizer *)

Lemma dict_mem_get (k : string) (d : dict) :
  dict_mem k d = true -> exists v, dict_get k d = Ok v.
Proof.
  induction d as [|[k' v] d IH]; simpl; [discriminate|].
  destruct (String.eqb k' k); simpl; eauto.
Qed.

Lemma dict_get_mem (k : string) (d : dict) (v : PyVal) :
  dict_get k d = Ok v -> dict_mem k d = true.
Proof.
  induction d as [|[k' w] d IH]; simpl; [discriminate|].
  destruct (String.eqb k' k); simpl; auto.
Qed.

Lemma dict_mem_remove (k f : string) (d : dict) :
  dict_mem k (dict_remove f d) = negb (String.eqb k f) && dict_mem k d.
Proof.
  induction d as [|[k' v] d IH]; simpl; [now rewrite andb_false_r|].
  destruct (String.eqb k' f) eqn:E; simpl.
  - rewrite IH. apply String.eqb_eq in E. subst k'.
    rewrite (String.eqb_sym f k).
    destruct (String.eqb k f); reflexivity.
  - rewrite IH. destruct (String.eqb k' k) eqn:E'; simpl; [|reflexivity].
    apply String.eqb_eq in E'. subst k'. now rewrite E.
Qed.

Lemma dict_get_remove (k f : string) (d : dict) :
  String.eqb k f = false -> dict_get k (dict_remove f d) = dict_get k d.
Proof.
  intros N. induction d as [|[k' v] d IH]; simpl; [reflexivity|].
  destruct (String.eqb k' f) eqn:E; simpl.
  - apply String.eqb_eq in E. subst k'.
    rewrite (String.eqb_sym f k), N. exact IH.
  - now rewrite IH.
Qed.

Lemma id_coercible_spec (d : dict) :
  id_coercible d = true <->
  dict_mem "id" d = true /\ exists v z, dict_get "id" d = Ok v /\ py_int v = Ok z.
Proof.
  unfold id_coercible. split.
  - destruct (dict_get "id" d) as [v|] eqn:G; [|discriminate].
    destruct (py_int v) as [z|] eqn:I; [|discriminate].
    intros _. split; [now apply dict_get_mem in G | eauto].
  - intros [_ (v & z & -> & ->)]. reflexivity.
Qed.

Lemma for_each_raises {A S : Type} (P : exn -> Prop)
      (body : S -> A -> result S) (xs : list A) :
  (forall st x e, body st x = Raise e -> P e) ->
  forall st e, for_each body xs st = Raise e -> P e.
Proof.
  intros Hb. induction xs as [|x xs IH]; intros st e; simpl; [discriminate|].
  destruct (body st x) as [st'|e'] eqn:E; simpl.
  - apply IH.
  - intros H. inversion H. subst. eapply Hb, E.
Qed.

Ltac by_inversion := let H := fresh "H" in intros H; inversion H; subst; reflexivity.

Lemma dict_get_raises (k : string) (d : dict) (e : exn) :
  dict_get k d = Raise e -> is_value_error e = false.
Proof.
  induction d as [|[k' v] d IH]; simpl; [by_inversion|].
  destruct (String.eqb k' k); [discriminate | exact IH].
Qed.

Lemma get_or_none_raises (x : PyVal) (k : string) (e : exn) :
  get_or_none x k = Raise e -> is_value_error e = false.
Proof.
  unfold get_or_none, py_contains, py_getitem.
  destruct x as [|z|s|xs|kvs]; cbn [bind]; try by_inversion.
  - destruct (str_contains k s); by_inversion.
  - destruct (existsb (py_eq (VStr k)) xs); by_inversion.
  - destruct (dict_mem k kvs); [apply dict_get_raises | discriminate].
Qed.

Lemma py_iter_raises (v : PyVal) (e : exn) :
  py_iter v = Raise e -> is_value_error e = false.
Proof. destruct v; simpl; by_inversion. Qed.

Ltac raise_cases H :=
  repeat match type of H with
    | bind ?m _ = Raise _ =>
        let E := fresh "E" in
        destruct m eqn:E; simpl in H;
        [|inversion H; subst;
          first [ eapply get_or_none_raises; eassumption
                | eapply py_iter_raises; eassumption ]]
    end.

Lemma standardize_aliases_raises (v : PyVal) (e : exn) :
  standardize_aliases v = Raise e -> is_value_error e = false.
Proof.
  unfold standardize_aliases. intros H. raise_cases H.
  revert H. apply (for_each_raises (fun e => is_value_error e = false)).
  intros st x e' H. raise_cases H.
  discriminate.
Qed.

Lemma standardize_addresses_raises (v : PyVal) (e : exn) :
  standardize_addresses v = Raise e -> is_value_error e = false.
Proof.
  unfold standardize_addresses. intros H. raise_cases H.
  revert H. apply (for_each_raises (fun e => is_value_error e = false)).
  intros st x e' H. raise_cases H.
  discriminate.
Qed.

Lemma standardize_id_numbers_raises (v : PyVal) (e : exn) :
  standardize_id_numbers v = Raise e -> is_value_error e = false.
Proof.
  unfold standardize_id_numbers. intros H. raise_cases H.
  revert H. apply (for_each_raises (fun e => is_value_error e = false)).
  intros st x e' H. raise_cases H.
  discriminate.
Qed.


Lemma py_int_raises (v : PyVal) (e : exn) :
  py_int v = Raise e ->
  e = TypeError \/ e = ValueError "invalid literal for int()".
Proof.
  destruct v; simpl; try (intros H; inversion H; auto; fail).
  destruct (parse_int s); intros H; inversion H; auto.
Qed.

(** One optional field: [E] says that reading it raised. *)
Ltac optional_raises E :=
  match type of E with
  | (if ?c then _ else _) = Raise _ =>
      destruct c; [|discriminate];
      match type of E with
      | bind ?g _ = Raise _ =>
          let G := fresh "G" in
          destruct g eqn:G; simpl in E;
          [ first [ apply standardize_aliases_raises in E
                  | apply standardize_addresses_raises in E
                  | apply standardize_id_numbers_raises in E
                  | discriminate ]
          | inversion E; subst; apply dict_get_raises in G ]; assumption
      | _ => apply dict_get_raises in E; assumption
      end
  end.

Ltac optional_chain H :=
  repeat match type of H with
    | bind ?m _ = Raise _ =>
        let E := fresh "E" in
        destruct m eqn:E; simpl in H;
        [|inversion H; subst; optional_raises E]
    end.

(** What [standardize_record] does with the required fields, in the order it
    reads them. *)
Lemma standardize_outcome (py_repr : PyVal -> string) (d : dict) :
  match standardize_record py_repr d with
  | Raise e =>
      if negb (dict_mem "id" d) then e = MissingRequiredField "id"
      else if negb (id_coercible d)
           then e = TypeError \/ e = ValueError "invalid literal for int()"
      else if negb (dict_mem "type" d) then e = MissingRequiredField "type"
      else if negb (dict_mem "name" d) then e = MissingRequiredField "name"
      else is_value_error e = false
  | Ok r =>
      id_coercible d = true /\ dict_mem "type" d = true /\ dict_mem "name" d = true
  end.
Proof.
  unfold standardize_record, id_coercible.
  destruct (dict_mem "id" d) eqn:M1; [|reflexivity].
  destruct (dict_mem_get _ _ M1) as [v1 G1]. rewrite G1. cbn [bind negb].
  destruct (py_int v1) as [z|e1] eqn:I; cbn [bind negb];
    [|exact (py_int_raises v1 e1 I)].
  destruct (dict_mem "type" d) eqn:M2; [|reflexivity].
  destruct (dict_mem_get _ _ M2) as [v2 G2]. rewrite G2. cbn [bind negb].
  destruct (dict_mem "name" d) eqn:M3; [|reflexivity].
  destruct (dict_mem_get _ _ M3) as [v3 G3]. rewrite G3. cbn [bind negb].
  match goal with |- match ?m with _ => _ end => destruct m as [r|e] eqn:H end;
    [auto|].
  optional_chain H. discriminate.
Qed.

Lemma standardize_defaults (py_repr : PyVal -> string) (d : dict) (r : Record_) :
  standardize_record py_repr d = Ok r ->
  (dict_mem "aliases" d = false -> aliases r = []) /\
  (dict_mem "nationality" d = false -> nationality r = VList []) /\
  (dict_mem "addresses" d = false -> addresses r = []) /\
  (dict_mem "id_numbers" d = false -> id_numbers r = []) /\
  (dict_mem "place_of_birth" d = false -> place_of_birth r = None) /\
  (dict_mem "position" d = false -> position r = None) /\
  (dict_mem "reported_dates_of_birth" d = false ->
   reported_dates_of_birth r = VList []).
Proof.
  unfold standardize_record. intros H.
  repeat inv_bind H. inversion H. subst r. cbn.
  repeat split; intros M; rewrite M in *; congruence.
Qed.

Lemma standardize_all_absent (py_repr : PyVal -> string) (d : dict) :
  id_coercible d = true ->
  dict_mem "type" d = true -> dict_mem "name" d = true ->
  (forall f, In f optional_fields -> dict_mem f d = false) ->
  exists vi z vt vn,
    dict_get "id" d = Ok vi /\ py_int vi = Ok z /\
    dict_get "type" d = Ok vt /\ dict_get "name" d = Ok vn /\
    standardize_record py_repr d
    = Ok (mkRecord z (py_str py_repr vt) (py_str py_repr vn)
            [] (VList []) [] [] None None (VList [])).
Proof.
  intros Hid Ht Hn Habs.
  apply id_coercible_spec in Hid. destruct Hid as [Mi (vi & z & Gi & Ii)].
  destruct (dict_mem_get _ _ Ht) as [vt Gt].
  destruct (dict_mem_get _ _ Hn) as [vn Gn].
  exists vi, z, vt, vn. repeat split; auto.
  unfold standardize_record.
  rewrite Mi, Gi, Ht, Gt, Hn, Gn. cbn [bind]. rewrite Ii. cbn [bind].
  rewrite !Habs by (unfold optional_fields; simpl; tauto).
  reflexivity.
Qed.

Ltac same_stages :=
  repeat match goal with
    | E : ?m = Ok _ |- context [bind ?m _] => rewrite E; cbn [bind]
    end.

Lemma standardize_remove_optional (py_repr : PyVal -> string) (d : dict)
      (r : Record_) (f : string) :
  In f optional_fields ->
  standardize_record py_repr d = Ok r ->
  exists r',
    standardize_record py_repr (dict_remove f d) = Ok r' /\
    id_ r' = id_ r /\ type_ r' = type_ r /\ name r' = name r.
Proof.
  unfold optional_fields. intros Hf H.
  unfold standardize_record in *.
  repeat inv_bind H. inversion H. subst r. clear H.
  repeat (destruct Hf as [<-|Hf]); [..|destruct Hf];
    rewrite !dict_mem_remove;
    cbn [String.eqb Ascii.eqb Bool.eqb negb andb];
    rewrite !dict_get_remove by reflexivity;
    same_stages; cbn [bind]; same_stages;
    eexists; (split; [reflexivity|]); cbn; auto.
Qed.

(** C2, as the code has it: the standardizer reads [id], [type] and [name] in
    that order and raises [MissingRequiredField] for the first one that is
    absent; since it coerces [id] as soon as it has read it, an [id] that is
    present but that [int] rejects raises the coercion error instead, whether
    or not [type] and [name] are there. Absence of any other recognized field
    never raises: on success an absent field holds its default, a dictionary
    with only coercible required fields standardizes to the all-default
    record, and removing an optional field from a dictionary that
    standardizes leaves one that standardizes, to the same id, type and
    name. *)
Theorem C2_required_fields_and_defaults :
  forall (py_repr : PyVal -> string) (d : dict),
    (standardize_record py_repr d = Raise (MissingRequiredField "id")
     <-> dict_mem "id" d = false) /\
    (standardize_record py_repr d = Raise (MissingRequiredField "type")
     <-> id_coercible d = true /\ dict_mem "type" d = false) /\
    (standardize_record py_repr d = Raise (MissingRequiredField "name")
     <-> id_coercible d = true /\ dict_mem "type" d = true /\
         dict_mem "name" d = false) /\
    (dict_mem "id" d = true -> id_coercible d = false ->
     standardize_record py_repr d = Raise TypeError \/
     standardize_record py_repr d = Raise (ValueError "invalid literal for int()")) /\
    (forall r, standardize_record py_repr d = Ok r ->
       id_coercible d = true /\ dict_mem "type" d = true /\
       dict_mem "name" d = true /\
       (dict_mem "aliases" d = false -> aliases r = []) /\
       (dict_mem "nationality" d = false -> nationality r = VList []) /\
       (dict_mem "addresses" d = false -> addresses r = []) /\
       (dict_mem "id_numbers" d = false -> id_numbers r = []) /\
       (dict_mem "place_of_birth" d = false -> place_of_birth r = None) /\
       (dict_mem "position" d = false -> position r = None) /\
       (dict_mem "reported_dates_of_birth" d = false ->
        reported_dates_of_birth r = VList [])) /\
    (id_coercible d = true ->
     dict_mem "type" d = true -> dict_mem "name" d = true ->
     (forall f, In f optional_fields -> dict_mem f d = false) ->
     exists vi z vt vn,
       dict_get "id" d = Ok vi /\ py_int vi = Ok z /\
       dict_get "type" d = Ok vt /\ dict_get "name" d = Ok vn /\
       standardize_record py_repr d
       = Ok (mkRecord z (py_str py_repr vt) (py_str py_repr vn)
               [] (VList []) [] [] None None (VList []))) /\
    (forall f r,
       In f optional_fields -> standardize_record py_repr d = Ok r ->
       exists r',
         standardize_record py_repr (dict_remove f d) = Ok r' /\
         id_ r' = id_ r /\ type_ r' = type_ r /\ name r' = name r).
Proof.
  intros py_repr d.
  pose proof (standardize_outcome py_repr d) as O.
  assert (C : id_coercible d = true -> dict_mem "id" d = true).
  { intros H. apply id_coercible_spec in H. tauto. }
  unfold MissingRequiredField in *. cbn [append] in *.
  split; [|split; [|split; [|split; [|split; [|split]]]]].
  - destruct (standardize_record py_repr d) as [r|e];
      destruct (dict_mem "id" d); [intuition discriminate..| |].
    + cbn in O. split; [|discriminate]. intros E. inversion E. subst e.
      destruct (id_coercible d); cbn in O;
        [|destruct O; discriminate].
      destruct (dict_mem "type" d); cbn in O; [|discriminate].
      destruct (dict_mem "name" d); cbn in O; discriminate.
    + cbn in O. subst e. tauto.
  - destruct (standardize_record py_repr d) as [r|e];
      [intuition (try discriminate; congruence)|].
    destruct (id_coercible d).
    + rewrite (C eq_refl) in O. cbn in O.
      destruct (dict_mem "type" d); cbn in O.
      * split; [|intuition discriminate]. intros E. inversion E. subst e.
        destruct (dict_mem "name" d); cbn in O; discriminate.
      * subst e. tauto.
    + split; [|intuition discriminate]. intros E. inversion E. subst e.
      destruct (dict_mem "id" d); cbn in O; [destruct O|]; discriminate.
  - destruct (standardize_record py_repr d) as [r|e];
      [intuition (try discriminate; congruence)|].
    destruct (id_coercible d).
    + rewrite (C eq_refl) in O. cbn in O.
      destruct (dict_mem "type" d); cbn in O.
      * destruct (dict_mem "name" d); cbn in O.
        -- split; [|intuition discriminate]. intros E. inversion E. subst e.
           discriminate.
        -- subst e. tauto.
      * subst e. split; [discriminate | intuition discriminate].
    + split; [|intuition discriminate]. intros E. inversion E. subst e.
      destruct (dict_mem "id" d); cbn in O; [destruct O|]; discriminate.
  - intros M N. rewrite M, N in O.
    destruct (standardize_record py_repr d) as [r|e]; cbn in O.
    + destruct O; discriminate.
    + destruct O; subst; auto.
  - intros r H. rewrite H in O. destruct O as (O1 & O2 & O3).
    repeat (split; [assumption|]).
    exact (standardize_defaults py_repr d r H).
  - apply standardize_all_absent.
  - intros f r. apply standardize_remove_optional.
Qed.

Lemma C2_witness :
  id_coercible [("id", VStr " 42 "); ("type", VStr "entity"); ("name", VStr "Acme")]
  = true /\
  standardize_record (fun _ => "")
    [("id", VStr " 42 "); ("type", VStr "entity"); ("name", VStr "Acme")]
  = Ok (mkRecord 42 "entity" "Acme" [] (VList []) [] [] None None (VList [])).
Proof.
  split; [reflexivity|].
  destruct (proj1 (proj2 (proj2 (proj2 (proj2 (proj2
              (C2_required_fields_and_defaults (fun _ => "")
                 [("id", VStr " 42 "); ("type", VStr "entity");
                  ("name", VStr "Acme")]))))))
              eq_refl eq_refl eq_refl)
    as (vi & z & vt & vn & Gi & Ii & Gt & Gn & H).
  - intros f Hf. unfold optional_fields in Hf. simpl in Hf.
    repeat (destruct Hf as [<-|Hf]; [reflexivity|]). destruct Hf.
  - rewrite H. inversion Gi. subst vi. inversion Ii. subst z.
    inversion Gt. inversion Gn. reflexivity.
Defined.

(** C2 as it is worded fails: a dictionary that holds only [id], with the
    value [None], lacks [type] and [name], and the standardizer leaves with
    the [TypeError] of [int(None)], not with a missing-field error. *)
Lemma C2_counterexample :
  ~ (forall (py_repr : PyVal -> string) (d : dict),
       (exists f, In f required_fields /\
                  standardize_record py_repr d = Raise (MissingRequiredField f))
       <-> (dict_mem "id" d = false \/ dict_mem "type" d = false \/
            dict_mem "name" d = false)).
Proof.
  intros H.
  destruct (proj2 (H (fun _ => "") [("id", VNone)])) as [f [Hf E]].
  - right. left. reflexivity.
  - cbn in E. discriminate.
Qed.

(** * Further properties of the code *)

(** ** Name normalizer *)

Section NormalizerFurther.

Import Unicode.
Local Open Scope N_scope.

(** X1: whatever the name, the normalized name holds no hyphen, no period, no
    comma and no apostrophe, and no code point that [str.lower] would
    change. *)
Theorem X1_clean_name_output_alphabet :
  forall s c,
    In c (clean_name s) ->
    c <> hyphen /\ c <> period /\ c <> comma /\ c <> apostrophe /\
    str_lower [c] = [c].
Proof.
  intros s c H. pose proof (clean_name_output_kept s) as K.
  rewrite forallb_forall in K. apply K, is_kept_spec in H.
  destruct H as (S & Nh & Np & Nc & Na). repeat split; auto.
  apply do_lower_fixed. simpl. now rewrite S.
Qed.

Lemma X1_witness :
  In 0x20 (clean_name (of_string "O'Neil-Smith, J.R.")) /\
  str_lower [0x20] = [0x20].
Proof.
  split; [vm_compute; tauto|].
  apply (X1_clean_name_output_alphabet (of_string "O'Neil-Smith, J.R.") 0x20).
  vm_compute. tauto.
Defined.

(** X2: the names the normalizer returns unchanged are exactly those made of
    code points that [str.lower] leaves alone and that are not a hyphen, a
    period, a comma or an apostrophe. *)
Theorem X2_clean_name_fixed_points :
  forall s, clean_name s = s <-> forallb is_kept s = true.
Proof.
  intros s. split.
  - intros H. rewrite <- H. apply clean_name_output_kept.
  - apply clean_name_of_kept.
Qed.

Lemma hyphen_class (c : N) :
  is_case_ignorable (if c =? hyphen then space else c) = is_case_ignorable c /\
  is_cased (if c =? hyphen then space else c) = is_cased c /\
  ((if c =? hyphen then space else c) =? capital_sigma) = (c =? capital_sigma).
Proof.
  destruct (c =? hyphen) eqn:E; [|auto].
  apply N.eqb_eq in E. subst. vm_compute. auto.
Qed.

Lemma next_is_cased_hyphens (l : ustr) :
  next_is_cased (hyphens_to_spaces l) = next_is_cased l.
Proof.
  unfold next_is_cased, hyphens_to_spaces.
  induction l as [|c l IH]; [reflexivity|].
  cbn [map skip_ignorable]. destruct (hyphen_class c) as (I & C & _).
  rewrite I. destruct (is_case_ignorable c); [exact IH|].
  exact C.
Qed.

(** No lower-case mapping is a hyphen. *)
Lemma lower_table_no_hyphen :
  forallb (fun p => negb (snd p =? hyphen)) lower_table = true.
Proof. vm_compute. reflexivity. Qed.

Lemma to_lower_full_hyphens (c : N) :
  to_lower_full (if c =? hyphen then space else c)
  = hyphens_to_spaces (to_lower_full c).
Proof.
  destruct (c =? hyphen) eqn:E.
  - apply N.eqb_eq in E. subst. vm_compute. reflexivity.
  - symmetry. apply hyphens_to_spaces_absent. unfold to_lower_full.
    destruct (c =? 0x130).
    + vm_compute. intuition discriminate.
    + destruct (lookup c lower_table) as [d|] eqn:L; intros [H|[]].
      * apply lookup_in in L. pose proof lower_table_no_hyphen as T.
        rewrite forallb_forall in T. specialize (T _ L). cbn [snd] in T.
        rewrite <- H, N.eqb_refl in T. discriminate.
      * rewrite <- H, N.eqb_refl in E. discriminate.
Qed.

Lemma hyphens_to_spaces_cons (c : N) (l : ustr) :
  hyphens_to_spaces (c :: l)
  = (if c =? hyphen then space else c) :: hyphens_to_spaces l.
Proof. reflexivity. Qed.

Lemma hyphens_to_spaces_app (a b : ustr) :
  hyphens_to_spaces (a ++ b) = hyphens_to_spaces a ++ hyphens_to_spaces b.
Proof. apply map_app. Qed.

Lemma do_lower_hyphens (s before : ustr) :
  do_lower (hyphens_to_spaces before) (hyphens_to_spaces s)
  = hyphens_to_spaces (do_lower before s).
Proof.
  revert before. induction s as [|c s IH]; intros before; [reflexivity|].
  rewrite hyphens_to_spaces_cons. cbn [do_lower].
  rewrite hyphens_to_spaces_app, <- IH, hyphens_to_spaces_cons. f_equal.
  destruct (hyphen_class c) as (_ & _ & S). rewrite S.
  destruct (c =? capital_sigma).
  - unfold handle_capital_sigma. rewrite !next_is_cased_hyphens.
    destruct (next_is_cased before && negb (next_is_cased s)); reflexivity.
  - apply to_lower_full_hyphens.
Qed.

(** X4: normalization does not see case or the difference between a hyphen
    and a space: lower-casing a name first, or writing its hyphens as spaces
    first, gives the same normalized name. *)
Theorem X4_clean_name_insensitive :
  (forall s, clean_name (str_lower s) = clean_name s) /\
  (forall s, clean_name (str_replace hyphen [space] s) = clean_name s).
Proof.
  split.
  - intros s. unfold clean_name. now rewrite str_lower_idempotent.
  - intros s. rewrite str_replace_one. fold (hyphens_to_spaces s).
    rewrite !clean_name_normalize. unfold normalize, lowercase, str_lower.
    change (@nil N) with (hyphens_to_spaces []) at 1.
    rewrite do_lower_hyphens. f_equal. f_equal. f_equal.
    unfold hyphens_to_spaces. rewrite map_map. apply map_ext.
    intros c. destruct (c =? hyphen) eqn:E; [reflexivity | now rewrite E].
Qed.

End NormalizerFurther.

(** ** Element-wise standardizers *)

Lemma get_or_none_dict (d : dict) (k : string) :
  get_or_none (VDict d) k = Ok (dict_get_or_none d k).
Proof.
  unfold get_or_none, dict_get_or_none. simpl.
  induction d as [|[k' v] d IH]; simpl; [reflexivity|].
  destruct (String.eqb k' k); simpl; [reflexivity | exact IH].
Qed.

Lemma for_each_map {A B : Type} (body : list B -> A -> result (list B))
      (f : A -> B) (xs : list A) :
  (forall acc x, In x xs -> body acc x = Ok (acc ++ [f x])) ->
  forall acc, for_each body xs acc = Ok (acc ++ map f xs).
Proof.
  induction xs as [|x xs IH]; intros Hb acc; simpl.
  - now rewrite app_nil_r.
  - rewrite Hb by now left. simpl.
    rewrite IH by (intros; apply Hb; now right).
    now rewrite <- app_assoc.
Qed.

(** X5: on a list of dictionaries each element-wise standardizer returns, with
    one entry per dictionary in the same order, each field holding the value
    under its key or [None] when the key is absent. *)
Theorem X5_standardize_lists_of_dictionaries :
  forall ds : list dict,
    standardize_aliases (VList (map VDict ds)) = Ok (map alias_of_dict ds) /\
    standardize_addresses (VList (map VDict ds)) = Ok (map address_of_dict ds) /\
    standardize_id_numbers (VList (map VDict ds)) = Ok (map id_number_of_dict ds).
Proof.
  intros ds. unfold standardize_aliases, standardize_addresses,
    standardize_id_numbers. cbn [py_iter bind].
  repeat split.
  - rewrite (for_each_map _ (fun v => match v with
                                      | VDict d => alias_of_dict d
                                      | _ => mkAlias VNone VNone
                                      end)).
    + now rewrite map_map.
    + intros acc x Hx. apply in_map_iff in Hx. destruct Hx as [d [<- _]].
      now rewrite !get_or_none_dict.
  - rewrite (for_each_map _ (fun v => match v with
                                      | VDict d => address_of_dict d
                                      | _ => mkAddress VNone VNone VNone
                                      end)).
    + now rewrite map_map.
    + intros acc x Hx. apply in_map_iff in Hx. destruct Hx as [d [<- _]].
      now rewrite !get_or_none_dict.
  - rewrite (for_each_map _ (fun v => match v with
                                      | VDict d => id_number_of_dict d
                                      | _ => mkIDNumber VNone VNone
                                      end)).
    + now rewrite map_map.
    + intros acc x Hx. apply in_map_iff in Hx. destruct Hx as [d [<- _]].
      now rewrite !get_or_none_dict.
Qed.

Lemma get_or_none_type_error (x : PyVal) (k : string) (e : exn) :
  get_or_none x k = Raise e -> e = TypeError.
Proof.
  destruct x as [|z|s|xs|kvs]; try (cbn; congruence).
  - unfold get_or_none. cbn [py_contains bind py_getitem].
    destruct (str_contains k s); congruence.
  - unfold get_or_none. cbn [py_contains bind py_getitem].
    destruct (existsb (py_eq (VStr k)) xs); congruence.
  - rewrite get_or_none_dict. discriminate.
Qed.

Lemma py_iter_type_error (v : PyVal) (e : exn) :
  py_iter v = Raise e -> e = TypeError.
Proof. destruct v; simpl; congruence. Qed.

Ltac type_error_cases H :=
  repeat match type of H with
    | bind ?m _ = Raise _ =>
        let E := fresh "E" in
        destruct m eqn:E; simpl in H;
        [|inversion H; subst;
          first [ eapply get_or_none_type_error; eassumption
                | eapply py_iter_type_error; eassumption ]]
    end.

Lemma standardizers_type_error (v : PyVal) (e : exn) :
  (standardize_aliases v = Raise e -> e = TypeError) /\
  (standardize_addresses v = Raise e -> e = TypeError) /\
  (standardize_id_numbers v = Raise e -> e = TypeError).
Proof.
  unfold standardize_aliases, standardize_addresses, standardize_id_numbers.
  repeat split; intros H; type_error_cases H; revert H;
    apply (for_each_raises (fun e => e = TypeError));
    intros st x e' H; type_error_cases H; discriminate.
Qed.

(** X6: the element-wise standardizers have one way to fail, a [TypeError]:
    no input makes them raise anything else. *)
Theorem X6_standardizers_raise_only_type_error :
  forall v e,
    standardize_aliases v = Raise e \/ standardize_addresses v = Raise e \/
    standardize_id_numbers v = Raise e ->
    e = TypeError.
Proof.
  intros v e H. destruct (standardizers_type_error v e) as (A & B & C).
  destruct H as [H|[H|H]]; auto.
Qed.

Lemma X6_witness :
  standardize_aliases (VList [VDict [("value", VStr "A")]; VStr "xvalue"])
  = Raise TypeError.
Proof.
  assert (H : exists e, standardize_aliases
                (VList [VDict [("value", VStr "A")]; VStr "xvalue"]) = Raise e)
    by (eexists; reflexivity).
  destruct H as [e H]. rewrite H. f_equal.
  apply (X6_standardizers_raise_only_type_error
           (VList [VDict [("value", VStr "A")]; VStr "xvalue"]) e).
  left. exact H.
Defined.

Lemma for_each_scalar {B : Type} (body : list B -> PyVal -> result (list B))
      (xs : list PyVal) :
  (forall acc x e, body acc x = Raise e -> e = TypeError) ->
  (forall acc x, is_scalar x = true -> body acc x = Raise TypeError) ->
  existsb is_scalar xs = true ->
  forall acc, for_each body xs acc = Raise TypeError.
Proof.
  intros He Hs. induction xs as [|x xs IH]; intros H acc; simpl in *;
    [discriminate|].
  destruct (body acc x) as [acc'|e] eqn:E; simpl.
  - destruct (is_scalar x) eqn:S; [|now apply IH].
    rewrite (Hs acc x S) in E. discriminate.
  - f_equal. eapply He, E.
Qed.

(** X7: a field that is [None] or an integer, and a list with an element that
    is [None] or an integer, make each element-wise standardizer raise
    [TypeError]: one such element fails the whole list, whatever the other
    elements are. *)
Theorem X7_scalar_element_fails_the_list :
  (forall v, is_scalar v = true ->
     standardize_aliases v = Raise TypeError /\
     standardize_addresses v = Raise TypeError /\
     standardize_id_numbers v = Raise TypeError) /\
  (forall xs, existsb is_scalar xs = true ->
     standardize_aliases (VList xs) = Raise TypeError /\
     standardize_addresses (VList xs) = Raise TypeError /\
     standardize_id_numbers (VList xs) = Raise TypeError).
Proof.
  split.
  - intros v H. destruct v; try discriminate; repeat split.
  - intros xs H.
    unfold standardize_aliases, standardize_addresses, standardize_id_numbers.
    cbn [py_iter bind].
    repeat split; apply for_each_scalar; auto;
      try (intros acc x e E; type_error_cases E; discriminate);
      intros acc x S; destruct x; try discriminate; reflexivity.
Qed.

Lemma X7_witness :
  standardize_aliases (VList [VDict [("value", VStr "A")]; VNone])
  = Raise TypeError.
Proof.
  apply (proj2 X7_scalar_element_fails_the_list
           [VDict [("value", VStr "A")]; VNone]).
  reflexivity.
Defined.

Lemma char_lacks_key (a b c : ascii) (rest : string) :
  str_contains (String a (String b rest)) (String c "") = false.
Proof. simpl. destruct (ascii_dec a c); reflexivity. Qed.

Lemma get_or_none_char (a b c : ascii) (rest : string) :
  get_or_none (VStr (String c "")) (String a (String b rest)) = Ok VNone.
Proof.
  unfold get_or_none. cbn [py_contains bind]. now rewrite char_lacks_key.
Qed.

Lemma map_chars_of {B : Type} (b : B) (s : string) :
  map (fun _ => b) (chars_of s) = repeat b (String.length s).
Proof. induction s as [|c s IH]; simpl; [reflexivity | now rewrite IH]. Qed.

Lemma in_chars_of (x : PyVal) (s : string) :
  In x (chars_of s) -> exists c, x = VStr (String c "").
Proof.
  induction s as [|c s IH]; simpl; [tauto|].
  intros [<-|H]; eauto.
Qed.

(** X8: a string where the list is expected is not refused: it is read
    character by character, and every character gives an entry whose fields
    are all [None]. *)
Theorem X8_string_in_place_of_list :
  forall s : string,
    standardize_aliases (VStr s)
    = Ok (repeat (mkAlias VNone VNone) (String.length s)) /\
    standardize_addresses (VStr s)
    = Ok (repeat (mkAddress VNone VNone VNone) (String.length s)) /\
    standardize_id_numbers (VStr s)
    = Ok (repeat (mkIDNumber VNone VNone) (String.length s)).
Proof.
  intros s.
  unfold standardize_aliases, standardize_addresses, standardize_id_numbers.
  cbn [py_iter bind].
  repeat split.
  - rewrite (for_each_map _ (fun _ => mkAlias VNone VNone)).
    + now rewrite map_chars_of.
    + intros acc x Hx. apply in_chars_of in Hx. destruct Hx as [c ->].
      now rewrite !get_or_none_char.
  - rewrite (for_each_map _ (fun _ => mkAddress VNone VNone VNone)).
    + now rewrite map_chars_of.
    + intros acc x Hx. apply in_chars_of in Hx. destruct Hx as [c ->].
      now rewrite !get_or_none_char.
  - rewrite (for_each_map _ (fun _ => mkIDNumber VNone VNone)).
    + now rewrite map_chars_of.
    + intros acc x Hx. apply in_chars_of in Hx. destruct Hx as [c ->].
      now rewrite !get_or_none_char.
Qed.

(** ** Record standardizer: the line of text and the fields it reads *)

Lemma dict_mem_lookup (f : string) (d : dict) :
  dict_mem f d = match dict_lookup f d with Some _ => true | None => false end.
Proof.
  induction d as [|[k v] d IH]; [reflexivity|].
  cbn [dict_mem existsb fst dict_lookup]. destruct (String.eqb k f); [reflexivity|].
  exact IH.
Qed.

Lemma dict_get_lookup (f : string) (d : dict) :
  dict_get f d
  = match dict_lookup f d with Some v => Ok v | None => Raise (KeyError f) end.
Proof.
  induction d as [|[k v] d IH]; [reflexivity|].
  cbn [dict_get dict_lookup]. destruct (String.eqb k f); [reflexivity|].
  exact IH.
Qed.

(** On a dictionary the statements after line 79 are [standardize_record] as
    used in the properties above. *)
Lemma read_fields_dict (py_repr : PyVal -> string) (d : dict) :
  FromText.read_fields py_repr (VDict d) = standardize_record py_repr d.
Proof. reflexivity. Qed.

Ltac field_in := unfold recognized_fields, required_fields, optional_fields;
                 simpl; tauto.

(** The standardizer reads a dictionary under the ten recognized keys only. *)
Lemma standardize_record_reads_recognized (py_repr : PyVal -> string) (d d' : dict) :
  (forall f, In f recognized_fields -> dict_lookup f d' = dict_lookup f d) ->
  standardize_record py_repr d' = standardize_record py_repr d.
Proof.
  intros A. unfold standardize_record.
  rewrite !dict_mem_lookup, !dict_get_lookup.
  repeat match goal with
    | |- context [dict_lookup ?f d'] => rewrite (A f ltac:(field_in))
    end.
  reflexivity.
Qed.

(** X9: keys outside the ten recognized ones are ignored.  When [eval]
    decodes two lines to dictionaries that hold the same values under the
    recognized keys, the two lines give the same record, or fail with the
    same exception.  (A line that [eval] does not decode fails at line 79,
    before any key is read.) *)
Theorem X9_unrecognized_fields_are_ignored :
  forall py_repr py_eval line line' d d',
    py_eval (FromText.standard_string line) = FromText.Value (VDict d) ->
    py_eval (FromText.standard_string line') = FromText.Value (VDict d') ->
    (forall f, In f recognized_fields -> dict_lookup f d' = dict_lookup f d) ->
    FromText.standardize_record py_repr py_eval line'
    = FromText.standardize_record py_repr py_eval line.
Proof.
  intros py_repr py_eval line line' d d' E E' A.
  unfold FromText.standardize_record. rewrite E, E', !read_fields_dict.
  now rewrite (standardize_record_reads_recognized py_repr d d' A).
Qed.

Lemma X9_witness :
  FromText.standardize_record (fun _ => "")
    (fun text =>
       if String.eqb text "{'id': 7, 'type': 'entity', 'name': 'Acme'}"
       then FromText.Value
              (VDict [("id", VInt 7); ("type", VStr "entity"); ("name", VStr "Acme")])
       else if String.eqb text
                 "{'source': None, 'id': 7, 'type': 'entity', 'name': 'Acme'}"
       then FromText.Value
              (VDict [("source", VNone); ("id", VInt 7); ("type", VStr "entity");
                      ("name", VStr "Acme")])
       else FromText.EvalRaises "SyntaxError")
    "{'source': null, 'id': 7, 'type': 'entity', 'name': 'Acme'}"
  = FromText.Standard
      (mkRecord 7 "entity" "Acme" [] (VList []) [] [] None None (VList [])).
Proof.
  rewrite (X9_unrecognized_fields_are_ignored (fun _ => "") _
             "{'id': 7, 'type': 'entity', 'name': 'Acme'}"
             "{'source': null, 'id': 7, 'type': 'entity', 'name': 'Acme'}"
             [("id", VInt 7); ("type", VStr "entity"); ("name", VStr "Acme")]
             [("source", VNone); ("id", VInt 7); ("type", VStr "entity");
              ("name", VStr "Acme")]
             eq_refl eq_refl).
  - reflexivity.
  - intros f Hf. unfold recognized_fields, required_fields, optional_fields in Hf.
    simpl in Hf.
    repeat (destruct Hf as [<-|Hf]; [reflexivity|]). destruct Hf.
Defined.

(** ** The rewriting of the text before it is decoded *)

Lemma prefix_cons (a b : ascii) (p s : string) :
  String.prefix (String a p) (String b s) = true <-> a = b /\ String.prefix p s = true.
Proof.
  cbn [String.prefix]. destruct (ascii_dec a b) as [->|N]; intuition congruence.
Qed.

(** A text without a capital N that starts the rewritten text started the
    text itself. *)
Lemma prefix_replace_null (p : string) :
  ~ In "N"%char (list_ascii_of_string p) ->
  forall s, String.prefix p (FromText.replace_from "null" "None" 0 s) = true ->
            String.prefix p s = true.
Proof.
  induction p as [|c p IH]; intros N s H.
  - now destruct s.
  - destruct s as [|d rest]; [discriminate H|].
    cbn [FromText.replace_from] in H.
    destruct (String.prefix "null" (String d rest)).
    + apply prefix_cons in H. destruct H as [-> _]. exfalso. apply N. now left.
    + apply prefix_cons in H. destruct H as [-> H]. apply prefix_cons. split; [reflexivity|].
      apply IH; [|exact H]. intros I. apply N. now right.
Qed.

Lemma replace_null_leaves_none (s : string) :
  forall skip, str_contains "null" (FromText.replace_from "null" "None" skip s) = false.
Proof.
  induction s as [|c rest IH]; intros skip; [reflexivity|].
  cbn [FromText.replace_from]. destruct skip as [|n]; [|apply IH].
  destruct (String.prefix "null" (String c rest)) eqn:P.
  - change (String.length "null" - 1) with 3.
    specialize (IH 3). revert IH.
    generalize (FromText.replace_from "null" "None" 3 rest). intros r IH.
    cbn. exact IH.
  - cbn [str_contains]. rewrite IH, Bool.orb_false_r.
    destruct (String.prefix "null" (String c (FromText.replace_from "null" "None" 0 rest)))
      eqn:Q; [|reflexivity].
    apply prefix_cons in Q. destruct Q as [<- Q].
    apply prefix_replace_null in Q.
    + assert (T : String.prefix "null" (String "n" rest) = true)
        by (apply prefix_cons; auto).
      rewrite T in P. discriminate P.
    + cbn. intuition discriminate.
Qed.

Lemma str_contains_middle (needle a b : string) :
  str_contains needle (a ++ needle ++ b)%string = true.
Proof.
  induction a as [|c a IH].
  - cbn [String.append]. assert (P : String.prefix needle (needle ++ b)%string = true).
    { induction needle as [|x n IHn]; [now destruct b|].
      cbn [String.append]. apply prefix_cons. auto. }
    destruct (needle ++ b)%string; cbn [str_contains]; now rewrite P.
  - cbn [String.append str_contains]. rewrite IH. apply Bool.orb_true_r.
Qed.

(** X27: line 78 leaves no [null] in the text it hands to [eval], wherever the
    four letters stand: inside a quoted name too they become [None], so that
    a text with [null] in it is never decoded as it was written, and the name
    [Annulled] is decoded as [AnNoneed]. *)
Theorem X27_no_null_is_left_in_the_text :
  (forall s, str_contains "null" (FromText.standard_string s) = false) /\
  (forall a b : string,
      FromText.standard_string (a ++ "null" ++ b) <> (a ++ "null" ++ b)%string) /\
  FromText.standard_string "{'id': 1, 'type': 'x', 'name': 'Annulled'}"
  = "{'id': 1, 'type': 'x', 'name': 'AnNoneed'}"%string.
Proof.
  assert (A : forall s, str_contains "null" (FromText.standard_string s) = false)
    by (intros s; apply replace_null_leaves_none).
  split; [exact A | split; [| reflexivity]].
  intros a b E. specialize (A (a ++ "null" ++ b)%string).
  rewrite E, str_contains_middle in A. discriminate A.
Qed.

Ltac stage_of k :=
  match goal with
  | E : (if dict_mem k ?d then _ else _) = Ok _, G : dict_get k ?d = Ok _ |- _ =>
      rewrite (dict_get_mem _ _ _ G), G in E; cbn [bind] in E
  end.

(** ** Matching engine: what it reports and when it fails *)

Lemma in_alias_strings (r : Record_) (a : string) :
  In a (alias_strings r) <-> exists al, In al (aliases r) /\ alias_value al = VStr a.
Proof.
  unfold alias_strings. rewrite in_flat_map. split.
  - intros [al [Hal H]]. exists al. split; [assumption|].
    destruct (alias_value al); simpl in H; try tauto.
    destruct H as [->|[]]. reflexivity.
  - intros [al [Hal E]]. exists al. split; [assumption|].
    rewrite E. now left.
Qed.

Lemma get_all_matches_ok_named (l r : Record_) (out : OutputRecord) :
  get_all_matches (l, r) = Ok out ->
  named_aliases l = true /\ named_aliases r = true.
Proof.
  intros H. destruct (named_aliases l && named_aliases r) eqn:N.
  - now apply andb_prop in N.
  - rewrite (get_all_matches_unnamed l r N) in H. discriminate.
Qed.

Lemma get_all_matches_explicit (l r : Record_) :
  named_aliases l = true -> named_aliases r = true ->
  get_all_matches (l, r)
  = Ok (mkOutput (id_ l) (id_ r)
          (((name_to_name l r
             ++ flat_map (name_vs_alias (name l)) (alias_strings r))
            ++ flat_map (fun a => alias_vs_name a (name r)
                                  ++ flat_map (alias_vs_alias a) (alias_strings r))
                 (alias_strings l))
           ++ get_id_matches (l, r))).
Proof.
  intros Nl Nr.
  destruct (get_all_matches_named l r Nl Nr) as (ns & ms & Hn & Hm & _ & _ & H).
  rewrite name_rules_named in Hn by assumption.
  rewrite alias_rules_named in Hm by assumption.
  inversion Hn. inversion Hm. subst. exact H.
Qed.

Lemma in_if_singleton {A : Type} (c : bool) (x e : A) :
  In e (if c then [x] else []) <-> c = true /\ e = x.
Proof. destruct c; simpl; intuition congruence. Qed.

Lemma in_get_id_matches (l r : Record_) (e : Evidence) :
  In e (get_id_matches (l, r)) <->
  exists li ri,
    In li (id_numbers l) /\ In ri (id_numbers r) /\
    py_eq (id_value li) (id_value ri) = true /\
    e = IdentifierMatch (id_value li) (comment li) (id_value ri) (comment ri).
Proof.
  rewrite get_id_matches_flat_map, in_flat_map. split.
  - intros [li [Hl He]]. apply in_flat_map in He. destruct He as [ri [Hr He]].
    apply in_if_singleton in He. destruct He as [E ->]. exists li, ri. auto.
  - intros (li & ri & Hl & Hr & E & ->). exists li. split; [assumption|].
    apply in_flat_map. exists ri. split; [assumption|].
    apply in_if_singleton. auto.
Qed.

(** X11: when the engine returns, its matches are exactly the evidence the
    two records support: the name pair when the names normalize alike, the
    left name with every right alias that normalizes like it, every left alias
    with the right name and with every right alias that normalizes like it,
    and every pair of identifiers with equal values; every entry carries the
    strings as the records have them. *)
Theorem X11_matches_are_sound_and_complete :
  forall l r out e,
    get_all_matches (l, r) = Ok out ->
    (In e (matches out) <->
     (e = NameToName (name l) (name r) /\
      clean_str (name l) = clean_str (name r)) \/
     (exists a ra, In ra (aliases r) /\ alias_value ra = VStr a /\
                   e = NameToAlias (name l) (VStr a) /\
                   clean_str (name l) = clean_str a) \/
     (exists a la, In la (aliases l) /\ alias_value la = VStr a /\
                   e = AliasToName (VStr a) (name r) /\
                   clean_str a = clean_str (name r)) \/
     (exists a b la ra,
        In la (aliases l) /\ alias_value la = VStr a /\
        In ra (aliases r) /\ alias_value ra = VStr b /\
        e = AliasToAlias (VStr a) (VStr b) /\ clean_str a = clean_str b) \/
     (exists li ri,
        In li (id_numbers l) /\ In ri (id_numbers r) /\
        py_eq (id_value li) (id_value ri) = true /\
        e = IdentifierMatch (id_value li) (comment li)
                            (id_value ri) (comment ri))).
Proof.
  intros l r out e H.
  destruct (get_all_matches_ok_named l r out H) as [Nl Nr].
  pose proof (get_all_matches_explicit l r Nl Nr) as X.
  remember (get_id_matches (l, r)) as ids eqn:Eids.
  rewrite X in H. injection H as <-.
  cbn [matches]. rewrite !in_app_iff. subst ids. rewrite in_get_id_matches.
  unfold name_to_name. rewrite in_if_singleton, String.eqb_eq.
  rewrite !in_flat_map.
  split.
  - intros [[[[E ->]|[a [Ha He]]]|[a [Ha He]]]|Hid].
    + left. auto.
    + right. left. unfold name_vs_alias in He.
      apply in_if_singleton in He. destruct He as [E ->].
      apply String.eqb_eq in E. apply in_alias_strings in Ha.
      destruct Ha as [ra [Hra Va]]. exists a, ra. auto.
    + apply in_app_iff in He. destruct He as [He|He].
      * right. right. left. unfold alias_vs_name in He.
        apply in_if_singleton in He. destruct He as [E ->].
        apply String.eqb_eq in E. apply in_alias_strings in Ha.
        destruct Ha as [la [Hla Va]]. exists a, la. auto.
      * right. right. right. left.
        apply in_flat_map in He. destruct He as [b [Hb He]].
        unfold alias_vs_alias in He.
        apply in_if_singleton in He. destruct He as [E ->].
        apply String.eqb_eq in E. apply in_alias_strings in Ha, Hb.
        destruct Ha as [la [Hla Va]]. destruct Hb as [ra [Hra Vb]].
        exists a, b, la, ra. auto 10.
    + right. right. right. right. exact Hid.
  - intros [[-> E]|[(a & ra & Hra & Va & -> & E)|[(a & la & Hla & Va & -> & E)
             |[(a & b & la & ra & Hla & Va & Hra & Vb & -> & E)|Hid]]]].
    + left. left. left. auto.
    + left. left. right. exists a. split.
      * apply in_alias_strings. eauto.
      * unfold name_vs_alias. apply in_if_singleton.
        split; [now apply String.eqb_eq | reflexivity].
    + left. right. exists a. split; [apply in_alias_strings; eauto|].
      apply in_app_iff. left. unfold alias_vs_name. apply in_if_singleton.
      split; [now apply String.eqb_eq | reflexivity].
    + left. right. exists a. split; [apply in_alias_strings; eauto|].
      apply in_app_iff. right. apply in_flat_map. exists b.
      split; [apply in_alias_strings; eauto|].
      unfold alias_vs_alias. apply in_if_singleton.
      split; [now apply String.eqb_eq | reflexivity].
    + right. exact Hid.
Qed.

Lemma X11_witness :
  get_all_matches
    (record_of 1 "Ali Hassan" [mkAlias (VStr "A. Hassan") VNone] [],
     record_of 9 "a hassan" [mkAlias (VStr "ali-hassan") VNone] [])
  = Ok (mkOutput 1 9 [NameToAlias "Ali Hassan" (VStr "ali-hassan");
                      AliasToName (VStr "A. Hassan") "a hassan"]) /\
  In (AliasToName (VStr "A. Hassan") "a hassan")
     [NameToAlias "Ali Hassan" (VStr "ali-hassan");
      AliasToName (VStr "A. Hassan") "a hassan"].
Proof.
  split; [reflexivity|].
  apply (proj2 (X11_matches_are_sound_and_complete
                  (record_of 1 "Ali Hassan" [mkAlias (VStr "A. Hassan") VNone] [])
                  (record_of 9 "a hassan" [mkAlias (VStr "ali-hassan") VNone] [])
                  _ (AliasToName (VStr "A. Hassan") "a hassan") eq_refl)).
  right. right. left.
  exists "A. Hassan", (mkAlias (VStr "A. Hassan") VNone).
  simpl. auto.
Defined.

Lemma named_aliases_false (r : Record_) :
  named_aliases r = false <->
  exists a, In a (aliases r) /\ is_str (alias_value a) = false.
Proof.
  unfold named_aliases. split.
  - intros H. induction (aliases r) as [|a xs IH]; simpl in H; [discriminate|].
    destruct (is_str (alias_value a)) eqn:E; simpl in H.
    + destruct (IH H) as [b [Hb Eb]]. exists b. simpl. auto.
    + exists a. simpl. auto.
  - intros [a [Ha E]].
    destruct (forallb (fun a => is_str (alias_value a)) (aliases r)) eqn:F;
      [|reflexivity].
    rewrite forallb_forall in F. rewrite (F a Ha) in E. discriminate.
Qed.

(** X12: the engine fails on a pair exactly when some alias of either record
    has a value that is not a string, and then it raises [AttributeError];
    it raises nothing else, and on every other pair it returns. *)
Theorem X12_engine_failure_condition :
  forall l r,
    (get_all_matches (l, r) = Raise AttributeError <->
     exists a, (In a (aliases l) \/ In a (aliases r)) /\
               is_str (alias_value a) = false) /\
    (forall e, get_all_matches (l, r) = Raise e -> e = AttributeError) /\
    ((exists out, get_all_matches (l, r) = Ok out) <->
     forall a, In a (aliases l) \/ In a (aliases r) ->
               is_str (alias_value a) = true).
Proof.
  intros l r.
  destruct (named_aliases l && named_aliases r) eqn:N.
  - apply andb_prop in N. destruct N as [Nl Nr].
    rewrite (get_all_matches_explicit l r Nl Nr).
    unfold named_aliases in Nl, Nr. rewrite forallb_forall in Nl, Nr.
    split; [|split].
    + split; [discriminate|]. intros [a [[H|H] E]];
        [rewrite (Nl a H) in E | rewrite (Nr a H) in E]; discriminate.
    + discriminate.
    + split; [|eauto]. intros _ a [H|H]; auto.
  - rewrite (get_all_matches_unnamed l r N).
    apply andb_false_iff in N.
    assert (B : exists a, (In a (aliases l) \/ In a (aliases r)) /\
                          is_str (alias_value a) = false).
    { destruct N as [N|N]; apply named_aliases_false in N;
        destruct N as [a [Ha E]]; exists a; auto. }
    split; [|split].
    + tauto.
    + congruence.
    + split; [intros [out H]; discriminate|].
      intros H. destruct B as [a [Ha E]]. rewrite (H a Ha) in E. discriminate.
Qed.

Lemma flat_map_length_le {A B : Type} (f : A -> list B) (n : nat) (xs : list A) :
  (forall x, List.length (f x) <= n) ->
  List.length (flat_map f xs) <= n * List.length xs.
Proof.
  intros H. induction xs as [|x xs IH]; simpl; [lia|].
  rewrite length_app. specialize (H x). lia.
Qed.

Lemma if_singleton_length {A : Type} (c : bool) (x : A) :
  List.length (if c then [x] else []) <= 1.
Proof. destruct c; simpl; lia. Qed.

Lemma alias_strings_length (r : Record_) :
  List.length (alias_strings r) <= List.length (aliases r).
Proof.
  unfold alias_strings.
  pose proof (flat_map_length_le
                (fun a => match alias_value a with VStr s => [s] | _ => [] end)
                1 (aliases r)) as H.
  rewrite Nat.mul_1_l in H. apply H.
  intros a. destruct (alias_value a); simpl; lia.
Qed.

Lemma get_id_matches_length (l r : Record_) :
  List.length (get_id_matches (l, r))
  <= List.length (id_numbers l) * List.length (id_numbers r).
Proof.
  rewrite get_id_matches_flat_map, Nat.mul_comm.
  apply flat_map_length_le. intros li.
  pose proof (flat_map_length_le (id_rule li) 1 (id_numbers r)) as H.
  rewrite Nat.mul_1_l in H. apply H.
  intros ri. apply if_singleton_length.
Qed.

(** X13: the number of matches for a pair is bounded by the sizes of the two
    records: at most one entry for each choice of a name or alias on the left
    and a name or alias on the right, and one for each pair of identifiers. *)
Theorem X13_number_of_matches :
  forall l r out,
    get_all_matches (l, r) = Ok out ->
    List.length (matches out)
    <= (1 + List.length (aliases l)) * (1 + List.length (aliases r))
       + List.length (id_numbers l) * List.length (id_numbers r).
Proof.
  intros l r out H.
  destruct (get_all_matches_ok_named l r out H) as [Nl Nr].
  pose proof (get_all_matches_explicit l r Nl Nr) as X.
  pose proof (get_id_matches_length l r) as I.
  remember (get_id_matches (l, r)) as ids eqn:Eids.
  rewrite X in H. injection H as <-. cbn [matches].
  rewrite !length_app.
  pose proof (alias_strings_length l) as Al.
  pose proof (alias_strings_length r) as Ar.
  assert (N1 : List.length (name_to_name l r) <= 1)
    by apply if_singleton_length.
  assert (N2 : List.length (flat_map (name_vs_alias (name l)) (alias_strings r))
               <= 1 * List.length (alias_strings r)).
  { apply flat_map_length_le. intros a. apply if_singleton_length. }
  assert (N3 : List.length
                 (flat_map (fun a => alias_vs_name a (name r)
                                     ++ flat_map (alias_vs_alias a) (alias_strings r))
                    (alias_strings l))
               <= (1 + List.length (alias_strings r)) * List.length (alias_strings l)).
  { apply flat_map_length_le. intros a. rewrite length_app.
    pose proof (if_singleton_length
                  (String.eqb (clean_str a) (clean_str (name r)))
                  (AliasToName (VStr a) (name r))) as P.
    fold (alias_vs_name a (name r)) in P.
    assert (Q : List.length (flat_map (alias_vs_alias a) (alias_strings r))
                <= 1 * List.length (alias_strings r)).
    { apply flat_map_length_le. intros b. apply if_singleton_length. }
    lia. }
  nia.
Qed.

Lemma X13_witness :
  List.length
    [NameToAlias "Ali Hassan" (VStr "ali-hassan");
     AliasToName (VStr "A. Hassan") "a hassan"]
  <= (1 + 1) * (1 + 1) + 0 * 0.
Proof.
  apply (X13_number_of_matches
           (record_of 1 "Ali Hassan" [mkAlias (VStr "A. Hassan") VNone] [])
           (record_of 9 "a hassan" [mkAlias (VStr "ali-hassan") VNone] [])
           (mkOutput 1 9 [NameToAlias "Ali Hassan" (VStr "ali-hassan");
                          AliasToName (VStr "A. Hassan") "a hassan"])).
  reflexivity.
Defined.

Lemma name_to_name_self (r : Record_) :
  name_to_name r r = [NameToName (name r) (name r)].
Proof. unfold name_to_name. now rewrite String.eqb_refl. Qed.

Lemma py_eq_refl_opt_str (v : PyVal) : is_opt_str v = true -> py_eq v v = true.
Proof. intros H. now apply py_eq_opt_str. Qed.

(** X14: a record whose aliases all carry a string value matches itself: the
    engine returns, the first match is the name with itself, every alias is
    matched with itself and so is every identifier whose value is a string or
    [None]. *)
Theorem X14_record_matches_itself :
  forall r,
    named_aliases r = true ->
    exists rest,
      get_all_matches (r, r)
      = Ok (mkOutput (id_ r) (id_ r) (NameToName (name r) (name r) :: rest)) /\
      (forall a al, In al (aliases r) -> alias_value al = VStr a ->
                    In (AliasToAlias (VStr a) (VStr a)) rest) /\
      (forall i, In i (id_numbers r) -> is_opt_str (id_value i) = true ->
                 In (IdentifierMatch (id_value i) (comment i)
                                     (id_value i) (comment i)) rest).
Proof.
  intros r N.
  pose proof (get_all_matches_explicit r r N N) as X.
  remember (get_id_matches (r, r)) as ids eqn:Eids.
  rewrite name_to_name_self in X. cbn [app] in X.
  eexists. split; [exact X|]. split.
  - intros a al Hal Va. rewrite !in_app_iff. left. right.
    apply in_flat_map. exists a. split; [apply in_alias_strings; eauto|].
    apply in_app_iff. right. apply in_flat_map. exists a.
    split; [apply in_alias_strings; eauto|].
    unfold alias_vs_alias. rewrite String.eqb_refl. now left.
  - intros i Hi W. rewrite !in_app_iff. right. subst ids.
    apply in_get_id_matches. exists i, i.
    repeat split; auto. now apply py_eq_refl_opt_str.
Qed.

Lemma X14_witness :
  exists rest,
    get_all_matches
      (record_of 1 "Ali Hassan" [mkAlias (VStr "A. Hassan") VNone]
         [mkIDNumber VNone VNone],
       record_of 1 "Ali Hassan" [mkAlias (VStr "A. Hassan") VNone]
         [mkIDNumber VNone VNone])
    = Ok (mkOutput 1 1 (NameToName "Ali Hassan" "Ali Hassan" :: rest)).
Proof.
  destruct (X14_record_matches_itself
              (record_of 1 "Ali Hassan" [mkAlias (VStr "A. Hassan") VNone]
                 [mkIDNumber VNone VNone]) eq_refl) as [rest [H _]].
  exists rest. exact H.
Defined.

Lemma alias_strings_values (a b : Record_) :
  map alias_value (aliases a) = map alias_value (aliases b) ->
  alias_strings a = alias_strings b /\ named_aliases a = named_aliases b.
Proof.
  unfold alias_strings, named_aliases.
  generalize (aliases a) (aliases b).
  induction l as [|x xs IH]; intros [|y ys] E; simpl in E; try discriminate;
    [auto|].
  injection E as E1 E2. destruct (IH ys E2) as [S N]. simpl.
  now rewrite E1, S, N.
Qed.

(** X15: the engine reads only the id, the name, the alias values and the
    identifiers of a record: two records that agree on these give the same
    result against any other record, whatever their type, nationality,
    addresses, place of birth, position, dates of birth and alias types. *)
Theorem X15_engine_reads_only_names_aliases_identifiers :
  forall l l' r r',
    same_matching_fields l l' -> same_matching_fields r r' ->
    get_all_matches (l, r) = get_all_matches (l', r').
Proof.
  intros l l' r r' (Li & Ln & La & Ld) (Ri & Rn & Ra & Rd).
  destruct (alias_strings_values l l' La) as [Ls LN].
  destruct (alias_strings_values r r' Ra) as [Rs RN].
  assert (I : get_id_matches (l, r) = get_id_matches (l', r')).
  { now rewrite !get_id_matches_flat_map, Ld, Rd. }
  destruct (named_aliases l && named_aliases r) eqn:N.
  - pose proof N as N'. rewrite LN, RN in N'.
    apply andb_prop in N. apply andb_prop in N'.
    rewrite (get_all_matches_explicit l r) by tauto.
    rewrite (get_all_matches_explicit l' r') by tauto.
    unfold name_to_name. now rewrite I, Li, Ri, Ln, Rn, Ls, Rs.
  - pose proof N as N'. rewrite LN, RN in N'.
    now rewrite (get_all_matches_unnamed l r N),
      (get_all_matches_unnamed l' r' N').
Qed.

Lemma X15_witness :
  get_all_matches
    (mkRecord 1 "individual" "Ali Hassan" [mkAlias (VStr "Ali") (VStr "aka")]
       (VList [VStr "GB"]) [mkAddress (VStr "1 High St") VNone VNone]
       [mkIDNumber (VStr "X1") VNone] (Some "Leeds") None (VList []),
     record_of 9 "ali hassan" [] [])
  = get_all_matches
      (mkRecord 1 "entity" "Ali Hassan" [mkAlias (VStr "Ali") VNone]
         (VList []) [] [mkIDNumber (VStr "X1") VNone] None (Some "Director")
         (VList [VStr "1970"]),
       record_of 9 "ali hassan" [] []).
Proof.
  apply X15_engine_reads_only_names_aliases_identifiers;
    unfold same_matching_fields; simpl; auto.
Defined.

(** X16: identifiers without a value match each other: when the engine
    returns, every left identifier whose value is [None] is reported against
    every right identifier whose value is [None]. *)
Theorem X16_identifiers_without_value_match :
  forall l r out li ri,
    get_all_matches (l, r) = Ok out ->
    In li (id_numbers l) -> In ri (id_numbers r) ->
    id_value li = VNone -> id_value ri = VNone ->
    In (IdentifierMatch VNone (comment li) VNone (comment ri)) (matches out).
Proof.
  intros l r out li ri H Hl Hr Vl Vr.
  destruct (get_all_matches_ok_named l r out H) as [Nl Nr].
  pose proof (get_all_matches_explicit l r Nl Nr) as X.
  assert (I : In (IdentifierMatch VNone (comment li) VNone (comment ri))
                 (get_id_matches (l, r))).
  { apply in_get_id_matches. exists li, ri. rewrite Vl, Vr. auto. }
  remember (get_id_matches (l, r)) as ids eqn:Eids.
  rewrite X in H. injection H as <-. cbn [matches].
  apply in_app_iff. now right.
Qed.

Lemma X16_witness :
  In (IdentifierMatch VNone (VStr "passport") VNone (VStr "tax no"))
     (matches (mkOutput 1 9
        [IdentifierMatch VNone (VStr "passport") VNone (VStr "tax no")])).
Proof.
  apply (X16_identifiers_without_value_match
           (record_of 1 "A" [] [mkIDNumber VNone (VStr "passport")])
           (record_of 9 "B" [] [mkIDNumber VNone (VStr "tax no")])
           _ (mkIDNumber VNone (VStr "passport"))
           (mkIDNumber VNone (VStr "tax no")));
    simpl; auto.
Defined.

(** ** Evidence deduplicator on arbitrary values *)

Lemma dedupe_distinct_fixed (ys seen : list Evidence) :
  distinct_from seen ys = true -> fold_left dedupe_step ys seen = seen ++ ys.
Proof.
  revert seen. induction ys as [|y ys IH]; intros seen H; simpl in *.
  - now rewrite app_nil_r.
  - apply andb_prop in H. destruct H as [F D].
    unfold dedupe_step at 2.
    destruct (existsb (evidence_eqb y) seen); [discriminate|].
    rewrite (IH _ D). now rewrite <- app_assoc.
Qed.

Lemma dedupe_fold_distinct (xs seen : list Evidence) :
  exists ys,
    fold_left dedupe_step xs seen = seen ++ ys /\
    distinct_from seen ys = true /\ subseq ys xs.
Proof.
  revert seen. induction xs as [|x xs IH]; intros seen; simpl.
  - exists []. rewrite app_nil_r. repeat split. constructor.
  - unfold dedupe_step at 2.
    destruct (existsb (evidence_eqb x) seen) eqn:E.
    + destruct (IH seen) as (ys & F & D & S).
      exists ys. repeat split; auto. now constructor.
    + destruct (IH (seen ++ [x])) as (ys & F & D & S).
      exists (x :: ys). rewrite F, <- app_assoc. repeat split.
      * simpl. now rewrite E, D.
      * now constructor.
Qed.

Lemma subseq_length {A : Type} (xs ys : list A) :
  subseq xs ys -> List.length xs <= List.length ys.
Proof. induction 1; simpl; lia. Qed.

(** X17: deduplicating twice is deduplicating once, whatever values the
    evidence carries. *)
Theorem X17_drop_duplicates_idempotent :
  forall r, drop_duplicates (drop_duplicates r) = drop_duplicates r.
Proof.
  intros [g o ms]. unfold drop_duplicates. cbn [gbr_id ofac_id matches].
  f_equal. rewrite !series_drop_duplicates_fold.
  destruct (dedupe_fold_distinct ms []) as (ys & F & D & _).
  cbn [app] in F. rewrite F.
  now rewrite (dedupe_distinct_fixed ys [] D).
Qed.

(** X18: whatever values the evidence carries, the deduplicated matches are
    the input with some entries left out and the others in their order, so
    never more than the input; no entry kept is [==] to an entry kept before
    it; and a sequence in which no entry is [==] to an earlier one comes out
    unchanged. *)
Theorem X18_drop_duplicates_on_any_values :
  forall r,
    subseq (matches (drop_duplicates r)) (matches r) /\
    List.length (matches (drop_duplicates r)) <= List.length (matches r) /\
    distinct_from [] (matches (drop_duplicates r)) = true /\
    (distinct_from [] (matches r) = true -> drop_duplicates r = r).
Proof.
  intros [g o ms]. unfold drop_duplicates. cbn [gbr_id ofac_id matches].
  rewrite series_drop_duplicates_fold.
  destruct (dedupe_fold_distinct ms []) as (ys & F & D & S).
  cbn [app] in F. rewrite F.
  repeat split; auto.
  - now apply subseq_length.
  - intros H. f_equal. rewrite <- F. exact (dedupe_distinct_fixed ms [] H).
Qed.

(** ** The pipeline: what it returns and when it fails *)

Lemma rdd_map_ok {A B : Type} (f : A -> result B) (xs : list A) (ys : list B) :
  rdd_map f xs = Ok ys ->
  List.length ys = List.length xs /\
  (forall y, In y ys <-> exists x, In x xs /\ f x = Ok y) /\
  (forall x, In x xs -> exists y, f x = Ok y).
Proof.
  revert ys. induction xs as [|x xs IH]; intros ys H; simpl in H.
  - inversion H. subst. simpl. repeat split; try tauto.
    intros [x [[] _]].
  - inv_bind H. inv_bind H. inversion H. subst ys. clear H.
    destruct (IH _ Ha0) as (L & M & T). simpl. repeat split.
    + now rewrite L.
    + intros [<-|Hy]; [eauto|]. apply M in Hy. destruct Hy as [z [Hz E]]. eauto.
    + intros [z [[<-|Hz] E]]; [left; congruence|]. right. apply M. eauto.
    + intros z [<-|Hz]; eauto.
Qed.

Lemma rdd_map_raise {A B : Type} (f : A -> result B) (xs : list A) (e : exn) :
  rdd_map f xs = Raise e -> exists x, In x xs /\ f x = Raise e.
Proof.
  induction xs as [|x xs IH]; simpl; [discriminate|].
  destruct (f x) as [y|e'] eqn:E; simpl.
  - destruct (rdd_map f xs) as [ys|e'']; simpl; [discriminate|].
    intros H. inversion H. subst. destruct (IH eq_refl) as [z [Hz Ez]]. eauto.
  - intros H. inversion H. subst. eauto.
Qed.

Lemma truthy_nonempty {A : Type} (xs : list A) : truthy xs = true <-> xs <> [].
Proof. destruct xs; simpl; split; congruence. Qed.

(** X19: every pair result the pipeline returns comes from one pair of a left
    and a right record on which the engine returned at least one match: it
    carries their two ids and the deduplicated matches of that pair; and there
    are at most as many results as pairs. *)
Theorem X19_run_results_come_from_pairs :
  forall gbr ofac out,
    run gbr ofac = Ok out ->
    List.length out <= List.length gbr * List.length ofac /\
    (forall o, In o out <->
       exists l r a,
         In l gbr /\ In r ofac /\ get_all_matches (l, r) = Ok a /\
         matches a <> [] /\ o = drop_duplicates a) /\
    (forall o, In o out ->
       exists l r, In l gbr /\ In r ofac /\
                   gbr_id o = id_ l /\ ofac_id o = id_ r).
Proof.
  intros gbr ofac out H. unfold run in H. inv_bind H.
  injection H as <-. rename a into all.
  destruct (rdd_map_ok _ _ _ Ha) as (L & M & _).
  assert (Q : forall o,
             In o (map drop_duplicates
                     (filter (fun p => truthy (matches p)) all)) <->
             exists l r a,
               In l gbr /\ In r ofac /\ get_all_matches (l, r) = Ok a /\
               matches a <> [] /\ o = drop_duplicates a).
  { intros o. rewrite in_map_iff. split.
    - intros [a [<- Hin]]. apply filter_In in Hin. destruct Hin as [Hin T].
      apply M in Hin. destruct Hin as [[l r] [Hp E]].
      apply in_prod_iff in Hp. exists l, r, a.
      repeat split; try tauto. now apply truthy_nonempty.
    - intros (l & r & a & Hl & Hr & E & N & ->). exists a. split; [reflexivity|].
      apply filter_In. split; [|now apply truthy_nonempty].
      apply M. exists (l, r). split; [|assumption].
      apply in_prod_iff. auto. }
  split; [|split].
  - rewrite length_map.
    pose proof (filter_length_le (fun p => truthy (matches p)) all) as F.
    unfold cartesian in L. rewrite length_prod in L. lia.
  - exact Q.
  - intros o Ho. apply Q in Ho.
    destruct Ho as (l & r & a & Hl & Hr & E & _ & ->).
    exists l, r. repeat split; auto.
    + destruct (get_all_matches_ok_named l r a E) as [Nl Nr].
      pose proof (get_all_matches_explicit l r Nl Nr) as X.
      remember (get_id_matches (l, r)) as ids.
      rewrite X in E. injection E as <-. reflexivity.
    + destruct (get_all_matches_ok_named l r a E) as [Nl Nr].
      pose proof (get_all_matches_explicit l r Nl Nr) as X.
      remember (get_id_matches (l, r)) as ids.
      rewrite X in E. injection E as <-. reflexivity.
Qed.

Lemma X19_witness :
  List.length [mkOutput 1 9 [NameToName "Ali Hassan" "ali hassan"]] <= 2 * 1.
Proof.
  apply (X19_run_results_come_from_pairs
           [record_of 1 "Ali Hassan" [] []; record_of 2 "Jane Doe" [] []]
           [record_of 9 "ali hassan" [] []]
           [mkOutput 1 9 [NameToName "Ali Hassan" "ali hassan"]]).
  reflexivity.
Defined.

Lemma list_prod_nil_r {A B : Type} (xs : list A) : list_prod xs (@nil B) = [].
Proof. induction xs as [|x xs IH]; simpl; [reflexivity | exact IH]. Qed.

(** X20: with an empty collection on either side the pipeline returns no
    result; with records on both sides it returns exactly when every alias of
    every record carries a string value; and when it fails it is with
    [AttributeError]. *)
Theorem X20_run_failure_condition :
  forall gbr ofac,
    run [] ofac = Ok [] /\ run gbr [] = Ok [] /\
    (forall e, run gbr ofac = Raise e -> e = AttributeError) /\
    ((exists out, run gbr ofac = Ok out) <->
     gbr = [] \/ ofac = [] \/
     (forallb named_aliases gbr = true /\ forallb named_aliases ofac = true)).
Proof.
  intros gbr ofac. split; [reflexivity|]. split.
  { unfold run, cartesian. now rewrite list_prod_nil_r. }
  split.
  - intros e H. unfold run in H.
    destruct (rdd_map get_all_matches (cartesian gbr ofac)) as [all|e'] eqn:E;
      simpl in H; [discriminate|].
    injection H as ->. apply rdd_map_raise in E. destruct E as [[l r] [_ E]].
    destruct (named_aliases l && named_aliases r) eqn:N.
    + apply andb_prop in N.
      rewrite (get_all_matches_explicit l r) in E by tauto. discriminate.
    + rewrite (get_all_matches_unnamed l r N) in E. congruence.
  - split.
    + intros [out H]. unfold run in H. inv_bind H.
      destruct (rdd_map_ok _ _ _ Ha) as (_ & _ & T).
      destruct gbr as [|l0 gbr']; [now left|].
      destruct ofac as [|r0 ofac']; [right; now left|].
      right. right. split; apply forallb_forall.
      * intros l Hl. destruct (T (l, r0)) as [o Ho].
        { apply in_prod_iff. split; [assumption | now left]. }
        now apply get_all_matches_ok_named in Ho.
      * intros r Hr. destruct (T (l0, r)) as [o Ho].
        { apply in_prod_iff. split; [now left | assumption]. }
        now apply get_all_matches_ok_named in Ho.
    + intros [->|[->|[Hg Ho]]].
      * eexists. reflexivity.
      * eexists. unfold run, cartesian. now rewrite list_prod_nil_r.
      * unfold run.
        destruct (rdd_map_total get_all_matches (cartesian gbr ofac)) as [ys Hys].
        -- intros [l r] Hin. apply in_prod_iff in Hin. destruct Hin as [Hl Hr].
           rewrite forallb_forall in Hg, Ho.
           rewrite (get_all_matches_explicit l r (Hg _ Hl) (Ho _ Hr)). eauto.
        -- rewrite Hys. simpl. eauto.
Qed.

Lemma py_eq_of_opt_str (a b : PyVal) :
  is_opt_str a = true -> py_eq a b = true -> b = a.
Proof.
  destruct a, b; simpl; try discriminate; auto.
  intros _ H. apply String.eqb_eq in H. now subst.
Qed.

Lemma evidence_eqb_of_wf (e k : Evidence) :
  wf_evidence e = true -> evidence_eqb e k = true -> k = e.
Proof.
  destruct e, k; simpl; try discriminate; intros W H;
    repeat (apply andb_prop in W; destruct W as [W ?]);
    repeat (apply andb_prop in H; destruct H as [H ?]);
    repeat match goal with
      | E : String.eqb _ _ = true |- _ => apply String.eqb_eq in E; subst
      | E : py_eq ?a ?b = true |- _ =>
          apply (py_eq_of_opt_str a b) in E; [subst|assumption]
      end; reflexivity.
Qed.

Lemma dedupe_keeps_wf (e : Evidence) (xs seen : list Evidence) :
  wf_evidence e = true ->
  In e seen \/ In e xs -> In e (fold_left dedupe_step xs seen).
Proof.
  intros W. revert seen. induction xs as [|x xs IH]; intros seen H; simpl.
  - destruct H as [H|[]]. exact H.
  - apply IH. unfold dedupe_step.
    destruct H as [H|[->|H]]; auto.
    + destruct (existsb (evidence_eqb x) seen); auto.
      left. apply in_app_iff. now left.
    + destruct (existsb (evidence_eqb e) seen) eqn:E.
      * left. apply existsb_exists in E. destruct E as [k [Hk E]].
        apply (evidence_eqb_of_wf e k W) in E. now subst.
      * left. apply in_app_iff. right. now left.
Qed.

(** X21: the pipeline loses no evidence: when it returns, every match the
    engine finds for a pair of a left and a right record, with string or
    [None] values, is in a returned pair result that carries the two
    records' ids. In particular two records whose names normalize alike are
    always reported. *)
Theorem X21_run_reports_every_match :
  forall gbr ofac out l r a e,
    run gbr ofac = Ok out ->
    In l gbr -> In r ofac ->
    get_all_matches (l, r) = Ok a ->
    In e (matches a) -> wf_evidence e = true ->
    exists o, In o out /\ gbr_id o = id_ l /\ ofac_id o = id_ r /\
              In e (matches o).
Proof.
  intros gbr ofac out l r a e H Hl Hr E He W.
  unfold run in H. inv_bind H. injection H as <-. rename a0 into all.
  destruct (rdd_map_ok _ _ _ Ha) as (_ & M & _).
  exists (drop_duplicates a). split; [|split; [|split]].
  - apply in_map. apply filter_In. split.
    + apply M. exists (l, r). split; [|assumption]. apply in_prod_iff. auto.
    + destruct (matches a); [contradiction | reflexivity].
  - destruct (get_all_matches_ok_named l r a E) as [Nl Nr].
    pose proof (get_all_matches_explicit l r Nl Nr) as X.
    remember (get_id_matches (l, r)) as ids.
    rewrite X in E. injection E as <-. reflexivity.
  - destruct (get_all_matches_ok_named l r a E) as [Nl Nr].
    pose proof (get_all_matches_explicit l r Nl Nr) as X.
    remember (get_id_matches (l, r)) as ids.
    rewrite X in E. injection E as <-. reflexivity.
  - cbn. rewrite series_drop_duplicates_fold. apply dedupe_keeps_wf; auto.
Qed.

Lemma X21_witness :
  exists o,
    In o [mkOutput 1 9 [NameToName "Ali Hassan" "ali hassan"]] /\
    gbr_id o = 1%Z /\ ofac_id o = 9%Z /\
    In (NameToName "Ali Hassan" "ali hassan") (matches o).
Proof.
  apply (X21_run_reports_every_match
           [record_of 1 "Ali Hassan" [] []; record_of 2 "Jane Doe" [] []]
           [record_of 9 "ali hassan" [] []]
           [mkOutput 1 9 [NameToName "Ali Hassan" "ali hassan"]]
           (record_of 1 "Ali Hassan" [] []) (record_of 9 "ali hassan" [] [])
           (mkOutput 1 9 [NameToName "Ali Hassan" "ali hassan"])
           (NameToName "Ali Hassan" "ali hassan"));
    simpl; auto.
Defined.

(** ** The pipeline on well-formed collections *)

Lemma forallb_flat_map {A B : Type} (P : B -> bool) (f : A -> list B) (xs : list A) :
  (forall x, forallb P (f x) = true) -> forallb P (flat_map f xs) = true.
Proof.
  intros H. induction xs as [|x xs IH]; simpl; [reflexivity|].
  now rewrite forallb_app, H, IH.
Qed.

Lemma wf_get_id_matches (l r : Record_) :
  well_formed l = true -> well_formed r = true ->
  forallb wf_evidence (get_id_matches (l, r)) = true.
Proof.
  unfold well_formed. intros Wl Wr.
  apply andb_prop in Wl. apply andb_prop in Wr.
  destruct Wl as [_ Wl]. destruct Wr as [_ Wr].
  rewrite forallb_forall in Wl, Wr.
  apply forallb_forall. intros e He. apply in_get_id_matches in He.
  destruct He as (li & ri & Hl & Hr & _ & ->).
  specialize (Wl _ Hl). specialize (Wr _ Hr). unfold wf_id_number in *.
  apply andb_prop in Wl. apply andb_prop in Wr. simpl.
  destruct Wl as [-> ->]. destruct Wr as [-> ->]. reflexivity.
Qed.

Lemma wf_matches (l r : Record_) (a : OutputRecord) :
  well_formed l = true -> well_formed r = true ->
  get_all_matches (l, r) = Ok a ->
  forallb wf_evidence (matches a) = true.
Proof.
  intros Wl Wr H.
  destruct (get_all_matches_ok_named l r a H) as [Nl Nr].
  pose proof (get_all_matches_explicit l r Nl Nr) as X.
  pose proof (wf_get_id_matches l r Wl Wr) as I.
  remember (get_id_matches (l, r)) as ids.
  rewrite X in H. injection H as <-. cbn [matches].
  rewrite !forallb_app, I, andb_true_r.
  repeat (apply andb_true_intro; split).
  - unfold name_to_name. now destruct (String.eqb _ _).
  - apply forallb_flat_map. intros x. unfold name_vs_alias.
    now destruct (String.eqb _ _).
  - apply forallb_flat_map. intros x. rewrite forallb_app.
    apply andb_true_intro. split.
    + unfold alias_vs_name. now destruct (String.eqb _ _).
    + apply forallb_flat_map. intros y. unfold alias_vs_alias.
      now destruct (String.eqb _ _).
Qed.

Lemma run_result_origin (gbr ofac : list Record_) (out : list OutputRecord)
      (o : OutputRecord) :
  run gbr ofac = Ok out -> In o out ->
  exists l r a,
    In l gbr /\ In r ofac /\ get_all_matches (l, r) = Ok a /\
    matches a <> [] /\ o = drop_duplicates a.
Proof.
  intros H Ho. unfold run in H. inv_bind H. injection H as <-.
  destruct (rdd_map_ok _ _ _ Ha) as (_ & M & _).
  apply in_map_iff in Ho. destruct Ho as [b [<- Hin]].
  apply filter_In in Hin. destruct Hin as [Hin T].
  apply M in Hin. destruct Hin as [[l r] [Hp E]].
  apply in_prod_iff in Hp. exists l, r, b.
  repeat split; try tauto. now apply truthy_nonempty.
Qed.

Lemma run_result_present (gbr ofac : list Record_) (out : list OutputRecord)
      (l r : Record_) :
  run gbr ofac = Ok out -> In l gbr -> In r ofac ->
  exists a, get_all_matches (l, r) = Ok a /\
            (matches a <> [] -> In (drop_duplicates a) out).
Proof.
  intros H Hl Hr. unfold run in H. inv_bind H. injection H as <-.
  destruct (rdd_map_ok _ _ _ Ha) as (_ & M & T).
  destruct (T (l, r)) as [b Hb]; [apply in_prod_iff; auto|].
  exists b. split; [assumption|]. intros N.
  apply in_map. apply filter_In. split.
  - apply M. exists (l, r). split; [apply in_prod_iff; auto | assumption].
  - now apply truthy_nonempty.
Qed.

Lemma wf_dedupe (xs : list Evidence) :
  forallb wf_evidence xs = true ->
  NoDup (series_drop_duplicates xs) /\
  forallb wf_evidence (series_drop_duplicates xs) = true /\
  (forall e, In e (series_drop_duplicates xs) <-> In e xs).
Proof.
  intros W. rewrite (series_drop_duplicates_spec xs W). unfold DedupeSpec.dedupe.
  assert (I : forall e, In e (DedupeSpec.dedupe_from [] xs) <-> In e xs).
  { intros e. rewrite dedupe_from_In by auto. simpl. tauto. }
  split; [now apply dedupe_from_NoDup|]. split; [|exact I].
  apply forallb_forall. intros e He. apply I in He.
  rewrite forallb_forall in W. now apply W.
Qed.

(** X23: on collections of well-formed records every pair result the
    pipeline returns lists each piece of evidence once, and every piece of
    evidence it lists carries strings or [None]. *)
Theorem X23_run_matches_have_no_repeats :
  forall gbr ofac out,
    forallb well_formed gbr = true -> forallb well_formed ofac = true ->
    run gbr ofac = Ok out ->
    Forall (fun o => NoDup (matches o) /\
                     forallb wf_evidence (matches o) = true) out.
Proof.
  intros gbr ofac out Wg Wo H. apply Forall_forall. intros o Ho.
  destruct (run_result_origin gbr ofac out o H Ho)
    as (l & r & a & Hl & Hr & E & _ & ->).
  rewrite forallb_forall in Wg, Wo.
  pose proof (wf_matches l r a (Wg _ Hl) (Wo _ Hr) E) as W.
  destruct (wf_dedupe (matches a) W) as (N & W' & _).
  split; assumption.
Qed.

Lemma X23_witness :
  Forall (fun o => NoDup (matches o) /\ forallb wf_evidence (matches o) = true)
    [mkOutput 1 9 [NameToAlias "Ali" (VStr "ali")]].
Proof.
  apply (X23_run_matches_have_no_repeats
           [record_of 1 "Ali" [] []]
           [record_of 9 "Hassan" [mkAlias (VStr "ali") VNone;
                                  mkAlias (VStr "ali") (VStr "aka")] []]);
    reflexivity.
Defined.

Lemma mirror_wf (e : Evidence) : wf_evidence (mirror e) = wf_evidence e.
Proof.
  destruct e; simpl; try reflexivity.
  - apply andb_comm.
  - rewrite <- !andb_assoc.
    destruct (is_opt_str gbr_id_number), (is_opt_str gbr_comment),
      (is_opt_str ofac_id_number), (is_opt_str ofac_comment); reflexivity.
Qed.

Lemma mirror_NoDup (xs : list Evidence) : NoDup xs -> NoDup (map mirror xs).
Proof.
  induction 1 as [|x xs N _ IH]; simpl; constructor; [|assumption].
  intros H. apply in_map_iff in H. destruct H as [y [E Hy]].
  apply (f_equal mirror) in E. rewrite !mirror_involutive in E. now subst.
Qed.

(** X24: swapping the two collections mirrors the report: on collections of
    well-formed records, when the pipeline returns on both orders, every pair
    result of one order has a counterpart in the other with the two ids
    exchanged and, up to order, the mirrored matches. *)
Theorem X24_run_swap_mirrors_results :
  forall gbr ofac out out',
    forallb well_formed gbr = true -> forallb well_formed ofac = true ->
    run gbr ofac = Ok out -> run ofac gbr = Ok out' ->
    forall o, In o out ->
      exists o', In o' out' /\
                 gbr_id o' = ofac_id o /\ ofac_id o' = gbr_id o /\
                 Permutation (matches o') (map mirror (matches o)).
Proof.
  intros gbr ofac out out' Wg Wo H H' o Ho.
  destruct (run_result_origin gbr ofac out o H Ho)
    as (l & r & a & Hl & Hr & E & Na & ->).
  rewrite forallb_forall in Wg, Wo.
  pose proof (Wg _ Hl) as Wl. pose proof (Wo _ Hr) as Wr.
  destruct (get_all_matches_ok_named l r a E) as [Nl Nr].
  destruct (all_matches_swap l r Wl Wr Nl Nr) as (a0 & b & Ea & Eb & I1 & I2 & P).
  assert (a0 = a) by congruence. subst a0.
  destruct (run_result_present ofac gbr out' r l H' Hr Hl) as (b' & Eb' & In').
  assert (b' = b) by congruence. subst b'.
  exists (drop_duplicates b). split; [|split; [|split]].
  - apply In'. intros Z. rewrite Z in P. apply Permutation_nil in P.
    apply map_eq_nil in P. contradiction.
  - exact I1.
  - exact I2.
  - cbn [drop_duplicates matches].
    pose proof (wf_matches l r a Wl Wr E) as Wa.
    pose proof (wf_matches r l b Wr Wl Eb) as Wb.
    destruct (wf_dedupe _ Wa) as (Da & _ & Ia).
    destruct (wf_dedupe _ Wb) as (Db & _ & Ib).
    apply NoDup_Permutation; [assumption | now apply mirror_NoDup |].
    intros e. rewrite Ib, in_map_iff. split.
    + intros He. apply (Permutation_in _ P) in He.
      apply in_map_iff in He. destruct He as [x [<- Hx]].
      exists x. split; [reflexivity | now apply Ia].
    + intros [x [<- Hx]]. apply Ia in Hx.
      apply (Permutation_in _ (Permutation_sym P)). now apply in_map.
Qed.

Lemma X24_witness :
  exists o',
    In o' [mkOutput 9 1 [AliasToName (VStr "ali") "Ali"]] /\
    gbr_id o' = 9%Z /\ ofac_id o' = 1%Z /\
    Permutation (matches o') (map mirror [NameToAlias "Ali" (VStr "ali")]).
Proof.
  apply (X24_run_swap_mirrors_results
           [record_of 1 "Ali" [] []]
           [record_of 9 "Hassan" [mkAlias (VStr "ali") VNone] []]
           [mkOutput 1 9 [NameToAlias "Ali" (VStr "ali")]]
           [mkOutput 9 1 [AliasToName (VStr "ali") "Ali"]]
           eq_refl eq_refl eq_refl eq_refl
           (mkOutput 1 9 [NameToAlias "Ali" (VStr "ali")])).
  now left.
Defined.

(** ** A line with an alias without a value *)

Lemma standardize_aliases_dicts (ds : list dict) :
  standardize_aliases (VList (map VDict ds)) = Ok (map alias_of_dict ds).
Proof.
  unfold standardize_aliases. cbn [py_iter bind].
  rewrite (for_each_map _ (fun v => match v with
                                    | VDict d => alias_of_dict d
                                    | _ => mkAlias VNone VNone
                                    end)).
  - now rewrite map_map.
  - intros acc x Hx. apply in_map_iff in Hx. destruct Hx as [d [<- _]].
    now rewrite !get_or_none_dict.
Qed.

Lemma standardized_aliases (py_repr : PyVal -> string) (d : dict) (r : Record_)
      (v : PyVal) :
  standardize_record py_repr d = Ok r -> dict_get "aliases" d = Ok v ->
  standardize_aliases v = Ok (aliases r).
Proof.
  intros H G. unfold standardize_record in H.
  repeat inv_bind H. injection H as <-. cbn.
  stage_of "aliases". assumption.
Qed.

(** X26: a line whose alias list holds a dictionary without a [value] key
    standardizes, and the record it gives cannot be compared with anything:
    the engine raises [AttributeError] with it on either side, and so does
    the pipeline on any collections that contain it and are not empty on the
    other side. *)
Theorem X26_alias_without_value_fails_every_comparison :
  forall py_repr d ds x r other,
    standardize_record py_repr d = Ok r ->
    dict_get "aliases" d = Ok (VList (map VDict ds)) ->
    In x ds -> dict_lookup "value" x = None ->
    get_all_matches (r, other) = Raise AttributeError /\
    get_all_matches (other, r) = Raise AttributeError /\
    (forall gbr ofac, In r gbr -> ofac <> [] ->
                      run gbr ofac = Raise AttributeError) /\
    (forall gbr ofac, gbr <> [] -> In r ofac ->
                      run gbr ofac = Raise AttributeError).
Proof.
  intros py_repr d ds x r other H G Hx V.
  pose proof (standardized_aliases py_repr d r _ H G) as A.
  rewrite standardize_aliases_dicts in A. injection A as A.
  assert (N : named_aliases r = false).
  { apply named_aliases_false. exists (alias_of_dict x). split.
    - rewrite <- A. now apply in_map.
    - unfold alias_of_dict, dict_get_or_none. simpl. now rewrite V. }
  assert (F : forall gbr ofac,
             (exists l o, In l gbr /\ In o ofac /\
                          named_aliases l && named_aliases o = false) ->
             run gbr ofac = Raise AttributeError).
  { intros gbr ofac (l & o & Hl & Ho & B). unfold run.
    destruct (rdd_map get_all_matches (cartesian gbr ofac)) as [all|e] eqn:E.
    - destruct (rdd_map_ok _ _ _ E) as (_ & _ & T).
      destruct (T (l, o)) as [a Ea]; [apply in_prod_iff; auto|].
      rewrite (get_all_matches_unnamed l o B) in Ea. discriminate.
    - cbn [bind]. f_equal.
      apply rdd_map_raise in E. destruct E as [[l' o'] [_ E]].
      destruct (named_aliases l' && named_aliases o') eqn:N'.
      + apply andb_prop in N'.
        rewrite (get_all_matches_explicit l' o') in E by tauto. discriminate.
      + rewrite (get_all_matches_unnamed l' o' N') in E. congruence. }
  split; [|split; [|split]].
  - apply get_all_matches_unnamed. now rewrite N.
  - apply get_all_matches_unnamed. rewrite N. apply andb_false_r.
  - intros gbr ofac Hr No. apply F.
    destruct ofac as [|o ofac]; [contradiction|].
    exists r, o. rewrite N. simpl. auto.
  - intros gbr ofac Ng Hr. apply F.
    destruct gbr as [|l gbr]; [contradiction|].
    exists l, r. rewrite N, andb_false_r. simpl. auto.
Qed.

Lemma X26_witness :
  get_all_matches (record_of 2 "B" [mkAlias VNone (VStr "aka")] [],
                   record_of 1 "A" [] [])
  = Raise AttributeError.
Proof.
  apply (X26_alias_without_value_fails_every_comparison (fun _ => "")
           [("id", VInt 2); ("type", VStr "individual"); ("name", VStr "B");
            ("aliases", VList [VDict [("type", VStr "aka")]])]
           [[("type", VStr "aka")]] [("type", VStr "aka")]
           (record_of 2 "B" [mkAlias VNone (VStr "aka")] [])
           (record_of 1 "A" [] []));
    simpl; auto.
Defined.
